(** * The WebGL math backend of deeplearn.js: residency, program cache, reductions

    A shallow embedding of [src/math/backends/backend_webgl.ts]
    (class [MathBackendWebGL]).  The class keeps its state in mutable
    fields and signals failure with JavaScript exceptions; an exception
    does not undo the field updates made before it.  The embedding is
    therefore a state monad whose computations return either a value or a
    thrown error, together with the state reached. *)

From Stdlib Require Import ZArith List Lia Bool String.
From stdpp Require Import base option gmap strings list fin_maps pretty.

Local Open Scope string_scope.

(** ** Data model *)

(** [DataType] of [math/types.ts]: ['float32' | 'int32' | 'bool']. *)
Inductive DataType := float32 | int32 | bool_.

(** [TextureType] of [webgl/tex_util.ts]. *)
Inductive TextureType := FLOAT | UNSIGNED_BYTE.

#[global] Instance DataType_eq_dec : EqDecision DataType.
Proof. solve_decision. Defined.
#[global] Instance TextureType_eq_dec : EqDecision TextureType.
Proof. solve_decision. Defined.

(** A device memory block is named by the number the device context gave
    it; host buffers carry their elements as integers (NaN encodings and
    float rounding are outside this model). *)
Definition WebGLTexture := nat.
Definition WebGLProgram := nat.
Definition TypedArray := list Z.

(** [TextureData] of [webgl/tex_util.ts], the residency record.  The
    nullable fields are options. *)
Record TextureData := mkTextureData {
  shape : list nat;
  dtype : DataType;
  values : option TypedArray;
  texture : option WebGLTexture;
  texShape : option (nat * nat);
  texType : TextureType
}.

Definition with_values (v : option TypedArray) (d : TextureData) :=
  mkTextureData (shape d) (dtype d) v (texture d) (texShape d) (texType d).
Definition with_texture (t : option WebGLTexture) (d : TextureData) :=
  mkTextureData (shape d) (dtype d) (values d) t (texShape d) (texType d).
Definition with_texShape (s : option (nat * nat)) (d : TextureData) :=
  mkTextureData (shape d) (dtype d) (values d) (texture d) s (texType d).
Definition with_texType (k : TextureType) (d : TextureData) :=
  mkTextureData (shape d) (dtype d) (values d) (texture d) (texShape d) k.

(** The array handle the allocation layer gives out: the backend sees its
    [dataId], [shape] and [dtype]. *)
Module NDArray.

Record t := make_handle { dataId : nat; shape : list nat; dtype : DataType }.

End NDArray.

(** [GPGPUProgram]: what an operation kind hands to the dispatcher.  The
    dispatcher reads only [outputShape]; the rest is opaque to it. *)
Record GPGPUProgram := mkProgram {
  userCode : string;
  outputShape : list nat
}.

(** [GPGPUBinary]: the compiled artifact kept in the program cache. *)
Record GPGPUBinary := mkBinary {
  webGLProgram : WebGLProgram;
  program : GPGPUProgram
}.

Definition ArrayData : Type := NDArray.t * TextureData.

(** The device context ([GPGPUContext]): the blocks it has allocated with
    their contents, the programs it has compiled and not deleted. *)
Record GPGPUContext := mkGPGPU {
  textures : gmap WebGLTexture TypedArray;
  nextTexture : WebGLTexture;
  programs : gset WebGLProgram;
  nextProgram : WebGLProgram;
  gpgpuDisposed : bool
}.

(** The pooled allocator ([TextureManager]): free blocks by (shape, kind)
    in release order, the blocks handed out and not yet released. *)
Record TextureManager := mkTextureManager {
  freeTextures : list (option (nat * nat) * TextureType * WebGLTexture);
  usedTextures : list WebGLTexture;
  numAcquired : nat;
  managerDisposed : bool
}.

(** The fields of [MathBackendWebGL].  [compiledKeys] is a ghost field:
    the keys for which [getAndSaveBinary] ran its factory, latest first.
    [nextDataId] is the counter of the allocation layer ([NDArray.make]),
    kept here because fresh output handles are drawn from it. *)
Record MathBackendWebGL := mkBackend {
  texData : gmap nat TextureData;
  canvas : bool;
  textureManager : TextureManager;
  binaryCache : gmap string GPGPUBinary;
  gpgpuCreatedLocally : bool;
  gpgpu : GPGPUContext;
  delayedStorage : bool;
  disposed : bool;
  compiledKeys : list string;
  nextDataId : nat
}.

Definition with_texData (m : gmap nat TextureData) (b : MathBackendWebGL) :=
  mkBackend m (canvas b) (textureManager b) (binaryCache b)
    (gpgpuCreatedLocally b) (gpgpu b) (delayedStorage b) (disposed b)
    (compiledKeys b) (nextDataId b).
Definition with_textureManager (m : TextureManager) (b : MathBackendWebGL) :=
  mkBackend (texData b) (canvas b) m (binaryCache b)
    (gpgpuCreatedLocally b) (gpgpu b) (delayedStorage b) (disposed b)
    (compiledKeys b) (nextDataId b).
Definition with_binaryCache (m : gmap string GPGPUBinary) (ks : list string)
    (b : MathBackendWebGL) :=
  mkBackend (texData b) (canvas b) (textureManager b) m
    (gpgpuCreatedLocally b) (gpgpu b) (delayedStorage b) (disposed b)
    ks (nextDataId b).
Definition with_gpgpu (g : GPGPUContext) (b : MathBackendWebGL) :=
  mkBackend (texData b) (canvas b) (textureManager b) (binaryCache b)
    (gpgpuCreatedLocally b) g (delayedStorage b) (disposed b)
    (compiledKeys b) (nextDataId b).
Definition with_disposed (d : bool) (b : MathBackendWebGL) :=
  mkBackend (texData b) (canvas b) (textureManager b) (binaryCache b)
    (gpgpuCreatedLocally b) (gpgpu b) (delayedStorage b) d
    (compiledKeys b) (nextDataId b).
Definition with_nextDataId (n : nat) (b : MathBackendWebGL) :=
  mkBackend (texData b) (canvas b) (textureManager b) (binaryCache b)
    (gpgpuCreatedLocally b) (gpgpu b) (delayedStorage b) (disposed b)
    (compiledKeys b) n.

Arguments with_values v d /.
Arguments with_texture t d /.
Arguments with_texShape s d /.
Arguments with_texType k d /.
Arguments with_texData m b /.
Arguments with_textureManager m b /.
Arguments with_binaryCache m ks b /.
Arguments with_gpgpu g b /.
Arguments with_disposed d b /.
Arguments with_nextDataId n b /.

(** ** Errors and the state monad *)

Inductive Error :=
| AlreadyRegistered (dataId : nat)
| ValuesNull
| PixelsNull
| NoCanvas
| NoData (dataId : nat)
| TypeError
| DeviceError (what : string).

(** The text of each [new Error(...)] in the class. *)
Definition message (e : Error) : string :=
  match e with
  | AlreadyRegistered dataId =>
      "data id " ++ pretty dataId ++ " already registered"
  | ValuesNull => "MathBackendWebGL.write(): values can not be null"
  | PixelsNull => "MathBackendWebGL.writePixels(): pixels can not be null"
  | NoCanvas => "Can't read pixels from HTMLImageElement outside the browser."
  | NoData dataId =>
      "No data found for NDArray with data id " ++ pretty dataId ++ ". " ++
      "Use dl.ENV.math instead of constructing your own NDArrayMath. " ++
      "If you need to construct your own math, make sure this array is " ++
      "allocated after the math construction"
  | TypeError => "TypeError"
  | DeviceError what => what
  end.

Inductive Result (A : Type) :=
| Ok (a : A)
| Throw (e : Error).
Arguments Ok {A} a.
Arguments Throw {A} e.

Definition M (A : Type) : Type := MathBackendWebGL -> Result A * MathBackendWebGL.

Definition ret {A} (a : A) : M A := fun st => (Ok a, st).
Definition throw {A} (e : Error) : M A := fun st => (Throw e, st).
Definition bind {A B} (m : M A) (k : A -> M B) : M B :=
  fun st => match m st with
            | (Ok a, st') => k a st'
            | (Throw e, st') => (Throw e, st')
            end.
Definition get : M MathBackendWebGL := fun st => (Ok st, st).
Definition modify (f : MathBackendWebGL -> MathBackendWebGL) : M unit :=
  fun st => (Ok tt, f st).

Declare Scope backend_scope.
Delimit Scope backend_scope with backend.
Notation "x <- m ;; k" := (bind m (fun x => k))
  (at level 100, m at next level, right associativity) : backend_scope.
Notation "m ;; k" := (bind m (fun _ => k))
  (at level 100, right associativity) : backend_scope.
Local Open Scope backend_scope.

Fixpoint mapM {A B} (f : A -> M B) (l : list A) : M (list B) :=
  match l with
  | [] => ret []
  | a :: l' => b <- f a ;; bs <- mapM f l' ;; ret (b :: bs)
  end.

(** ** Collaborators that are not part of the class *)

(** The operator snippets of [webgl/binaryop_gpu.ts] that the class names. *)
Inductive BinaryOp :=
| ADD | SUB | MUL | DIV | POW
| EQUAL | NOT_EQUAL | LESS | LESS_EQUAL | GREATER | GREATER_EQUAL
| LOGICAL_AND | LOGICAL_OR
| MIN | MAX | PRELU | PRELU_DER.

(** Pixel sources of [fromPixels]: an image, canvas or video element. *)
Record Pixels := mkPixels {
  height : nat;
  width : nat;
  isVideo : bool;
  pixelData : TypedArray
}.

(** What the dispatcher takes from other modules without looking inside:
    the texture shape chosen for a logical shape ([webgl_util]), the cache
    key of a program applied to operands ([gpgpu_math.makeShaderKey]),
    what a program writes into its output block ([gpgpu_math.runProgram]),
    the program constructors it calls ([BinaryOpProgram] throws on shapes
    that do not broadcast, hence the option), and two environment flags. *)
Class Collaborators := {
  getTextureShapeFromLogicalShape : list nat -> nat * nat;
  makeShaderKey : GPGPUProgram -> list ArrayData -> ArrayData -> string;
  runShader : GPGPUProgram -> list TypedArray -> TypedArray;
  BinaryOpProgram : BinaryOp -> list nat -> list nat -> option GPGPUProgram;
  Copy2DProgram : nat -> nat -> GPGPUProgram;
  FromPixelsProgram : list nat -> GPGPUProgram;
  WEBGL_VERSION : nat;
  WEBGL_GET_BUFFER_SUB_DATA_ASYNC_EXTENSION_ENABLED : bool;
  WEBGL_DISJOINT_QUERY_TIMER_EXTENSION_VERSION : nat
}.

Section Backend.
Context `{Collaborators}.

(** ** The device context *)

(** Modelled from the spec: the Device Context ([webgl/gpgpu_context.ts])
    is not part of this class.  It allocates device regions, uploads a host
    buffer into a region (failing if the region was not allocated),
    downloads a region, compiles and deletes programs, and its [dispose]
    releases everything once, guarded by a flag. *)
Definition createMatrixTexture : M WebGLTexture :=
  fun st =>
    let g := gpgpu st in
    let t := nextTexture g in
    (Ok t, with_gpgpu (mkGPGPU (<[t := []]> (textures g)) (S t) (programs g)
                         (nextProgram g) (gpgpuDisposed g)) st).

Definition uploadMatrixToTexture (t : WebGLTexture) (rows cols : nat)
    (data : TypedArray) : M unit :=
  fun st =>
    let g := gpgpu st in
    match textures g !! t with
    | Some _ =>
        (Ok tt, with_gpgpu (mkGPGPU (<[t := data]> (textures g)) (nextTexture g)
                              (programs g) (nextProgram g) (gpgpuDisposed g)) st)
    | None => (Throw (DeviceError "upload: region not allocated"), st)
    end.

Definition downloadMatrixFromTexture (t : option WebGLTexture)
    (rows cols : nat) : M TypedArray :=
  fun st =>
    match t with
    | Some t' =>
        match textures (gpgpu st) !! t' with
        | Some data => (Ok data, st)
        | None => (Throw (DeviceError "download: region not allocated"), st)
        end
    | None => (Throw (DeviceError "download: no region"), st)
    end.

Definition deleteMatrixTexture (t : WebGLTexture) (g : GPGPUContext) :=
  mkGPGPU (delete t (textures g)) (nextTexture g) (programs g)
    (nextProgram g) (gpgpuDisposed g).

Definition deleteProgram (p : WebGLProgram) (g : GPGPUContext) :=
  mkGPGPU (textures g) (nextTexture g) (programs g ∖ {[p]})
    (nextProgram g) (gpgpuDisposed g).

Definition gpgpu_dispose (g : GPGPUContext) : GPGPUContext :=
  if gpgpuDisposed g then g
  else mkGPGPU ∅ (nextTexture g) ∅ (nextProgram g) true.

(** Modelled from the spec: [gpgpu_math.compileProgram] is not part of this
    class.  Compiling produces a new program object in the device context;
    the artifact is that object together with the program it came from. *)
Definition compileProgram (prog : GPGPUProgram) (inputs : list ArrayData)
    (output : ArrayData) (g : GPGPUContext) : GPGPUBinary * GPGPUContext :=
  let p := nextProgram g in
  (mkBinary p prog,
   mkGPGPU (textures g) (nextTexture g) ({[p]} ∪ programs g) (S p)
     (gpgpuDisposed g)).

(** Modelled from the spec: [gpgpu_math.runProgram] is not part of this
    class.  Running a binary writes the output block; what it writes is the
    program's business ([runShader]).  The texture data bound here are the
    records as they are when the program runs. *)
Definition runProgram (binary : GPGPUBinary) (inputs : list ArrayData)
    (output : ArrayData) : M unit :=
  fun st =>
    let g := gpgpu st in
    let contents :=
      map (fun i : ArrayData =>
             default [] (t ← texture i.2; textures g !! t)) inputs in
    match texture output.2 with
    | Some t =>
        (Ok tt, with_gpgpu (mkGPGPU
                  (<[t := runShader (program binary) contents]> (textures g))
                  (nextTexture g) (programs g) (nextProgram g)
                  (gpgpuDisposed g)) st)
    | None => (Throw (DeviceError "run: output has no region"), st)
    end.

(** ** The texture manager *)

Fixpoint takeFree (k : option (nat * nat) * TextureType)
    (l : list (option (nat * nat) * TextureType * WebGLTexture))
    : option (WebGLTexture * list (option (nat * nat) * TextureType * WebGLTexture)) :=
  match l with
  | [] => None
  | (k', t) :: l' =>
      if decide (k' = k) then Some (t, l')
      else match takeFree k l' with
           | Some (t', rest) => Some (t', (k', t) :: rest)
           | None => None
           end
  end.

Fixpoint removeFirst (t : WebGLTexture) (l : list WebGLTexture) :=
  match l with
  | [] => []
  | t' :: l' => if decide (t' = t) then l' else t' :: removeFirst t l'
  end.

(** Modelled from the spec: the Texture/Memory Manager
    ([webgl/texture_manager.ts]) is not part of this class.  [acquire]
    returns a free block of exactly the requested (shape, kind) if the pool
    has one and otherwise allocates one from the device context; after
    [dispose] it is an error.  [release] returns the block to the pool and
    frees nothing.  [dispose] frees every pooled and outstanding block. *)
Definition acquireTexture (s : nat * nat) (k : TextureType) : M WebGLTexture :=
  fun st =>
    let tm := textureManager st in
    if managerDisposed tm then
      (Throw (DeviceError "acquire after dispose"), st)
    else
      match takeFree (Some s, k) (freeTextures tm) with
      | Some (t, rest) =>
          (Ok t, with_textureManager
                   (mkTextureManager rest (t :: usedTextures tm)
                      (S (numAcquired tm)) false) st)
      | None =>
          match createMatrixTexture st with
          | (Ok t, st') =>
              (Ok t, with_textureManager
                       (mkTextureManager (freeTextures tm) (t :: usedTextures tm)
                          (S (numAcquired tm)) false) st')
          | (Throw e, st') => (Throw e, st')
          end
      end.

Definition releaseTexture (t : WebGLTexture) (s : option (nat * nat))
    (k : TextureType) : M unit :=
  modify (fun st =>
    let tm := textureManager st in
    with_textureManager
      (mkTextureManager (freeTextures tm ++ [(s, k, t)])
         (removeFirst t (usedTextures tm)) (numAcquired tm)
         (managerDisposed tm)) st).

Definition textureManager_dispose (st : MathBackendWebGL) : MathBackendWebGL :=
  let tm := textureManager st in
  let blocks := (map snd (freeTextures tm) ++ usedTextures tm)%list in
  with_textureManager (mkTextureManager [] [] (numAcquired tm) true)
    (with_gpgpu (fold_right deleteMatrixTexture (gpgpu st) blocks) st).

(** ** Conversions between host buffers ([float32ToTypedArray],
    [typedArrayToFloat32]) *)

(** On integer-valued elements rounding changes nothing, and all three
    data types are handled, so the [Unknown dtype] throw is unreachable. *)
Definition float32ToTypedArray (a : TypedArray) (d : DataType) : TypedArray :=
  match d with
  | float32 => a
  | int32 | bool_ => map (fun val => val) a
  end.

Definition typedArrayToFloat32 (a : TypedArray) (d : DataType) : TypedArray :=
  match d with
  | float32 => a
  | _ => map (fun val => val) a
  end.

(** ** The methods of [MathBackendWebGL] *)

(** [this.texData[dataId].f = v]: a write through a missing record is a
    [TypeError] in JavaScript. *)
Definition updateTexData (dataId : nat) (f : TextureData -> TextureData) : M unit :=
  fun st =>
    match texData st !! dataId with
    | Some d => (Ok tt, with_texData (<[dataId := f d]> (texData st)) st)
    | None => (Throw TypeError, st)
    end.

(** [this.texData[dataId]], destructured. *)
Definition readTexData (dataId : nat) : M TextureData :=
  fun st =>
    match texData st !! dataId with
    | Some d => (Ok d, st)
    | None => (Throw TypeError, st)
    end.

Definition register (dataId : nat) (s : list nat) (d : DataType) : M unit :=
  fun st =>
    match texData st !! dataId with
    | Some _ => (Throw (AlreadyRegistered dataId), st)
    | None =>
        (Ok tt, with_texData
                  (<[dataId := mkTextureData s d None None None FLOAT]> (texData st)) st)
    end.

Definition throwIfNoData (dataId : nat) : M unit :=
  fun st =>
    match texData st !! dataId with
    | Some _ => (Ok tt, st)
    | None => (Throw (NoData dataId), st)
    end.

Definition uploadToGPU (dataId : nat) : M unit :=
  throwIfNoData dataId ;;
  d <- readTexData dataId ;;
  match texture d with
  | Some _ => ret tt
  | None =>
      let ts := getTextureShapeFromLogicalShape (shape d) in
      updateTexData dataId (with_texShape (Some ts)) ;;
      newTexture <- acquireTexture ts (texType d) ;;
      updateTexData dataId (with_texture (Some newTexture)) ;;
      match values d with
      | Some v =>
          uploadMatrixToTexture newTexture ts.1 ts.2
            (typedArrayToFloat32 v (dtype d)) ;;
          updateTexData dataId (with_values None)
      | None => ret tt
      end
  end.

Definition cacheOnCPU (dataId : nat) (float32Values : option TypedArray) : M unit :=
  st <- get ;;
  let dontKeepCopyOnGPU := delayedStorage st in
  d <- readTexData dataId ;;
  (match texture d with
   | Some t =>
       if dontKeepCopyOnGPU then
         releaseTexture t (texShape d) (texType d) ;;
         updateTexData dataId (with_texture None) ;;
         updateTexData dataId (with_texShape None)
       else ret tt
   | None => ret tt
   end) ;;
  match float32Values with
  | Some a => updateTexData dataId (with_values (Some (float32ToTypedArray a (dtype d))))
  | None => ret tt
  end.

Definition write (dataId : nat) (vals : option TypedArray) : M unit :=
  match vals with
  | None => throw ValuesNull
  | Some v =>
      throwIfNoData dataId ;;
      d <- readTexData dataId ;;
      (match texture d with
       | Some t =>
           releaseTexture t (texShape d) (texType d) ;;
           updateTexData dataId (with_texture None) ;;
           updateTexData dataId (with_texShape None)
       | None => ret tt
       end) ;;
      updateTexData dataId (with_values (Some v)) ;;
      st <- get ;;
      if delayedStorage st then ret tt else uploadToGPU dataId
  end.

Definition readSync (dataId : nat) : M (option TypedArray) :=
  throwIfNoData dataId ;;
  d <- readTexData dataId ;;
  match values d with
  | Some v => cacheOnCPU dataId None ;; ret (Some v)
  | None =>
      match texShape d with
      | None => throw TypeError
      | Some (r, c) =>
          float32Values <- downloadMatrixFromTexture (texture d) r c ;;
          cacheOnCPU dataId (Some float32Values) ;;
          d' <- readTexData dataId ;;
          ret (values d')
      end
  end.

(** [read] is asynchronous; the model runs it to completion in one step
    (nothing else runs between its awaits). *)
Definition read (dataId : nat) : M (option TypedArray) :=
  throwIfNoData dataId ;;
  d <- readTexData dataId ;;
  match values d with
  | Some v => cacheOnCPU dataId None ;; ret (Some v)
  | None =>
      if WEBGL_GET_BUFFER_SUB_DATA_ASYNC_EXTENSION_ENABLED then
        match texShape d with
        | None => throw TypeError
        | Some (r, c) =>
            float32Values <- downloadMatrixFromTexture (texture d) r c ;;
            cacheOnCPU dataId (Some float32Values) ;;
            d' <- readTexData dataId ;;
            ret (values d')
        end
      else if Nat.eqb WEBGL_DISJOINT_QUERY_TIMER_EXTENSION_VERSION 0 then
        readSync dataId
      else
        readSync dataId
  end.

Definition disposeData (dataId : nat) : M unit :=
  st <- get ;;
  match texData st !! dataId with
  | Some d =>
      (match texture d with
       | Some t => releaseTexture t (texShape d) (texType d)
       | None => ret tt
       end) ;;
      modify (fun st' => with_texData (delete dataId (texData st')) st')
  | None => ret tt
  end.

Definition getTexture (dataId : nat) : M (option WebGLTexture) :=
  uploadToGPU dataId ;;
  d <- readTexData dataId ;;
  ret (texture d).

Definition getTextureData (dataId : nat) : M TextureData :=
  uploadToGPU dataId ;;
  readTexData dataId.

(** Modelled from the spec: [NDArray.make] and [NDArray.dispose] belong to
    the allocation layer ([math/ndarray.ts]), which is not part of this
    class.  [make] issues an identity never issued before and registers it
    with the backend; disposing the array disposes its data. *)
Definition makeOutputArray (s : list nat) (d : DataType) : M NDArray.t :=
  st <- get ;;
  let id := nextDataId st in
  modify (with_nextDataId (S id)) ;;
  register id s d ;;
  ret (NDArray.make_handle id s d).

Definition NDArray_dispose (x : NDArray.t) : M unit :=
  disposeData (NDArray.dataId x).

(** Modelled from the spec: [as2D] and [reshape] reinterpret an array under
    another logical shape; the result names the same data. *)
Definition reshape (x : NDArray.t) (s : list nat) : NDArray.t :=
  NDArray.make_handle (NDArray.dataId x) s (NDArray.dtype x).

Definition as2D (x : NDArray.t) (r c : nat) : NDArray.t := reshape x [r; c].

Definition getAndSaveBinary (key : string)
    (getBinary : GPGPUContext -> GPGPUBinary * GPGPUContext) : M GPGPUBinary :=
  fun st =>
    match binaryCache st !! key with
    | None =>
        let (b, g) := getBinary (gpgpu st) in
        (Ok b, with_binaryCache (<[key := b]> (binaryCache st))
                 (key :: compiledKeys st) (with_gpgpu g st))
    | Some b => (Ok b, st)
    end.

(** The function [compileAndRun] maps over its inputs. *)
Definition uploadInput (input : NDArray.t) : M ArrayData :=
  uploadToGPU (NDArray.dataId input) ;;
  d <- readTexData (NDArray.dataId input) ;;
  ret (input, d).

(** [compileAndRun].  The timer bookkeeping around [runProgram] touches
    only the timer stacks and is left out. *)
Definition compileAndRun (prog : GPGPUProgram) (inputs : list NDArray.t)
    (output : option NDArray.t) : M NDArray.t :=
  out <- match output with
         | Some o => ret o
         | None =>
             match inputs with
             | i0 :: _ => makeOutputArray (outputShape prog) (NDArray.dtype i0)
             | [] => throw TypeError
             end
         end ;;
  inputsData <- mapM uploadInput inputs ;;
  uploadToGPU (NDArray.dataId out) ;;
  od <- readTexData (NDArray.dataId out) ;;
  let outputData := (out, od) in
  let key := makeShaderKey prog inputsData outputData in
  binary <- getAndSaveBinary key (compileProgram prog inputsData outputData) ;;
  runProgram binary inputsData outputData ;;
  ret out.

Definition copy2D (source : NDArray.t) (sourceSizeRowCol : nat * nat)
    (dest : NDArray.t) (destSizeRowCol : nat * nat) : M unit :=
  let prog := Copy2DProgram sourceSizeRowCol.2 destSizeRowCol.2 in
  compileAndRun prog [source] (Some dest) ;;
  ret tt.

Definition clone (x : NDArray.t) : M NDArray.t :=
  throwIfNoData (NDArray.dataId x) ;;
  uploadToGPU (NDArray.dataId x) ;;
  d <- readTexData (NDArray.dataId x) ;;
  match texShape d with
  | None => throw TypeError
  | Some (r, c) =>
      let source := as2D x r c in
      output <- makeOutputArray [r; c] (NDArray.dtype x) ;;
      copy2D source (r, c) output (r, c) ;;
      ret (reshape output (NDArray.shape x))
  end.

Definition uploadPixelDataToTexture (t : option WebGLTexture) (px : Pixels) : M unit :=
  match t with
  | Some t' => uploadMatrixToTexture t' (height px) (width px) (pixelData px)
  | None => throw (DeviceError "upload: no region")
  end.

Definition fromPixels (pixels : option Pixels) (numChannels : nat) : M NDArray.t :=
  match pixels with
  | None => throw PixelsNull
  | Some px =>
      let outShape := [height px; width px; numChannels] in
      st <- get ;;
      (if isVideo px then
         if canvas st then ret tt else throw NoCanvas
       else ret tt) ;;
      tempPixelArray <- makeOutputArray [height px; width px] int32 ;;
      updateTexData (NDArray.dataId tempPixelArray) (with_texType UNSIGNED_BYTE) ;;
      t <- getTexture (NDArray.dataId tempPixelArray) ;;
      uploadPixelDataToTexture t px ;;
      res <- compileAndRun (FromPixelsProgram outShape) [tempPixelArray] None ;;
      NDArray_dispose tempPixelArray ;;
      ret res
  end.

Definition dispose (st : MathBackendWebGL) : MathBackendWebGL :=
  if disposed st then st
  else
    let g := map_fold (fun _ b g => deleteProgram (webGLProgram b) g)
               (gpgpu st) (binaryCache st) in
    let st1 := textureManager_dispose (with_gpgpu g st) in
    let st2 := if gpgpuCreatedLocally st1
               then with_gpgpu (gpgpu_dispose (gpgpu st1)) st1 else st1 in
    with_disposed true st2.

(** ** Binary operations and their output encoding *)

(** Modelled from the spec: [types.upcastType] ([math/types.ts]) is a fixed
    table that is not part of this class; mixing a narrower and a wider
    kind yields the wider one, with bool below int32 below float32. *)
Definition upcastType (a b : DataType) : DataType :=
  match a, b with
  | float32, _ | _, float32 => float32
  | int32, _ | _, int32 => int32
  | bool_, bool_ => bool_
  end.

Definition newBinaryOpProgram (op : BinaryOp) (a b : NDArray.t) : M GPGPUProgram :=
  match BinaryOpProgram op (NDArray.shape a) (NDArray.shape b) with
  | Some p => ret p
  | None => throw (DeviceError "operands do not broadcast")
  end.

(** The shape shared by [equal] ... [logicalOr], [divide], [add],
    [subtract], [multiply], [pow]: the output is made first, with the
    encoding the method names. *)
Definition binaryWithOutput (op : BinaryOp) (outType : DataType)
    (a b : NDArray.t) : M NDArray.t :=
  prog <- newBinaryOpProgram op a b ;;
  output <- makeOutputArray (outputShape prog) outType ;;
  compileAndRun prog [a; b] (Some output).

(** The shape shared by [minimum], [maximum], [prelu], [preluDer]: no
    output is passed and [compileAndRun] makes it. *)
Definition binaryDefault (op : BinaryOp) (a b : NDArray.t) : M NDArray.t :=
  prog <- newBinaryOpProgram op a b ;;
  compileAndRun prog [a; b] None.

Definition multiply a b := binaryWithOutput MUL (upcastType (NDArray.dtype a) (NDArray.dtype b)) a b.
Definition equal := binaryWithOutput EQUAL bool_.
Definition notEqual := binaryWithOutput NOT_EQUAL bool_.
Definition less := binaryWithOutput LESS bool_.
Definition lessEqual := binaryWithOutput LESS_EQUAL bool_.
Definition greater := binaryWithOutput GREATER bool_.
Definition greaterEqual := binaryWithOutput GREATER_EQUAL bool_.
Definition logicalAnd := binaryWithOutput LOGICAL_AND bool_.
Definition logicalOr := binaryWithOutput LOGICAL_OR bool_.
Definition minimum := binaryDefault MIN.
Definition maximum := binaryDefault MAX.
Definition divide := binaryWithOutput DIV float32.
Definition add a b := binaryWithOutput ADD (upcastType (NDArray.dtype a) (NDArray.dtype b)) a b.
Definition subtract a b := binaryWithOutput SUB (upcastType (NDArray.dtype a) (NDArray.dtype b)) a b.
Definition pow a b := binaryWithOutput POW (upcastType (NDArray.dtype a) (NDArray.dtype b)) a b.
Definition prelu := binaryDefault PRELU.
Definition preluDer := binaryDefault PRELU_DER.

(** The binary methods by name. *)
Inductive BinaryMethod :=
| Equal | NotEqual | Less | LessEqual | Greater | GreaterEqual
| LogicalAnd | LogicalOr
| Add | Subtract | Multiply | Pow | Divide
| Minimum | Maximum.

Definition callBinary (m : BinaryMethod) : NDArray.t -> NDArray.t -> M NDArray.t :=
  match m with
  | Equal => equal | NotEqual => notEqual
  | Less => less | LessEqual => lessEqual
  | Greater => greater | GreaterEqual => greaterEqual
  | LogicalAnd => logicalAnd | LogicalOr => logicalOr
  | Add => add | Subtract => subtract | Multiply => multiply | Pow => pow
  | Divide => divide
  | Minimum => minimum | Maximum => maximum
  end.

(** The methods the specification counts as comparison or logical, and
    those it counts as arithmetic. *)
Definition isComparison (m : BinaryMethod) : bool :=
  match m with
  | Equal | NotEqual | Less | LessEqual | Greater | GreaterEqual
  | LogicalAnd | LogicalOr => true
  | _ => false
  end.

Definition isArithmetic (m : BinaryMethod) : bool := negb (isComparison m).

(** The shader operation each binary method builds its program with, and
    the encoding it makes its output with; [None] for the methods that
    pass no output and leave it to [compileAndRun]. *)
Definition binaryOp (m : BinaryMethod) : BinaryOp :=
  match m with
  | Equal => EQUAL | NotEqual => NOT_EQUAL
  | Less => LESS | LessEqual => LESS_EQUAL
  | Greater => GREATER | GreaterEqual => GREATER_EQUAL
  | LogicalAnd => LOGICAL_AND | LogicalOr => LOGICAL_OR
  | Add => ADD | Subtract => SUB | Multiply => MUL | Pow => POW
  | Divide => DIV
  | Minimum => MIN | Maximum => MAX
  end.

Definition binaryOutType (m : BinaryMethod) (a b : NDArray.t) : option DataType :=
  match m with
  | Equal | NotEqual | Less | LessEqual | Greater | GreaterEqual
  | LogicalAnd | LogicalOr => Some bool_
  | Add | Subtract | Multiply | Pow =>
      Some (upcastType (NDArray.dtype a) (NDArray.dtype b))
  | Divide => Some float32
  | Minimum | Maximum => None
  end.

(** ** Construction and the operation surface *)

Definition newGPGPUContext : GPGPUContext := mkGPGPU ∅ 0 ∅ 0 false.

(** [constructor(gpgpu?, delayedStorage = true)].  [None] for a failed
    construction (WebGL not supported).  [document] tells whether a
    rendering environment exists; [firstDataId] is where the allocation
    layer's counter stands. *)
Definition constructor (g : option GPGPUContext) (delayed : bool)
    (document : bool) (firstDataId : nat) : option MathBackendWebGL :=
  if Nat.ltb WEBGL_VERSION 1 then None
  else
    let '(ctx, locally) := match g with
                           | Some c => (c, false)
                           | None => (newGPGPUContext, true)
                           end in
    Some (mkBackend ∅ document (mkTextureManager [] [] 0 false) ∅ locally ctx
            delayed false [] firstDataId).

(** One call on the backend.  [Dispatch prog inputs (Some d)] is the shape
    of the methods that make their output with encoding [d] and then call
    [compileAndRun]; [Dispatch prog inputs None] is a bare
    [compileAndRun(program, inputs)].  Every tensor operation of the class
    is one of the two, or a sequence of them ([reduce], [argReduce],
    [maxPoolBackprop]). *)
Inductive Op :=
| Register (dataId : nat) (s : list nat) (d : DataType)
| Write (dataId : nat) (vals : option TypedArray)
| ReadSync (dataId : nat)
| Read (dataId : nat)
| DisposeData (dataId : nat)
| GetTexture (dataId : nat)
| GetTextureData (dataId : nat)
| Clone (x : NDArray.t)
| FromPixels (pixels : option Pixels) (numChannels : nat)
| Dispatch (prog : GPGPUProgram) (inputs : list NDArray.t) (outType : option DataType)
| Dispose.

Definition dispatch (prog : GPGPUProgram) (inputs : list NDArray.t)
    (outType : option DataType) : M NDArray.t :=
  match outType with
  | Some d =>
      output <- makeOutputArray (outputShape prog) d ;;
      compileAndRun prog inputs (Some output)
  | None => compileAndRun prog inputs None
  end.

(** The state a call leaves behind, whether it returns or throws. *)
Definition step (o : Op) (st : MathBackendWebGL) : MathBackendWebGL :=
  match o with
  | Register dataId s d => (register dataId s d st).2
  | Write dataId vals => (write dataId vals st).2
  | ReadSync dataId => (readSync dataId st).2
  | Read dataId => (read dataId st).2
  | DisposeData dataId => (disposeData dataId st).2
  | GetTexture dataId => (getTexture dataId st).2
  | GetTextureData dataId => (getTextureData dataId st).2
  | Clone x => (clone x st).2
  | FromPixels pixels numChannels => (fromPixels pixels numChannels st).2
  | Dispatch prog inputs outType => (dispatch prog inputs outType st).2
  | Dispose => dispose st
  end.

Definition run (ops : list Op) (st : MathBackendWebGL) : MathBackendWebGL :=
  fold_left (fun s o => step o s) ops st.

Definition isDispose (o : Op) : bool :=
  match o with Dispose => true | _ => false end.

(** A call on the backend is one of its methods, or the private cache
    lookup [getAndSaveBinary] with any key and factory. *)
Inductive Call :=
| Public (o : Op)
| Lookup (key : string) (getBinary : GPGPUContext -> GPGPUBinary * GPGPUContext).

Definition stepCall (c : Call) (st : MathBackendWebGL) : MathBackendWebGL :=
  match c with
  | Public o => step o st
  | Lookup key getBinary => (getAndSaveBinary key getBinary st).2
  end.

Definition runCalls (cs : list Call) (st : MathBackendWebGL) : MathBackendWebGL :=
  fold_left (fun s c => stepCall c s) cs st.

(** ** Predicates on states *)

(** No record holds host values and a device texture at once. *)
Definition exclusive (d : TextureData) : Prop :=
  values d = None ∨ texture d = None.

Definition residency_inv (st : MathBackendWebGL) : Prop :=
  delayedStorage st = true ∧
  ∀ dataId d, texData st !! dataId = Some d → exclusive d.

(** While the texture manager lives, the blocks in its pool and the blocks
    attached to records are regions the device context has allocated. *)
Definition pool_ok (st : MathBackendWebGL) : Prop :=
  managerDisposed (textureManager st) = false →
  (∀ s k t, (s, k, t) ∈ freeTextures (textureManager st) →
     is_Some (textures (gpgpu st) !! t)) ∧
  (∀ dataId d t, texData st !! dataId = Some d → texture d = Some t →
     is_Some (textures (gpgpu st) !! t)).

(** The factory ran at most once for each key, and only for cached keys. *)
Definition cache_inv (st : MathBackendWebGL) : Prop :=
  NoDup (compiledKeys st) ∧
  ∀ k, k ∈ compiledKeys st → is_Some (binaryCache st !! k).

(** Every cached artifact is a live program of the device context. *)
Definition cache_live (st : MathBackendWebGL) : Prop :=
  ∀ k b, binaryCache st !! k = Some b → webGLProgram b ∈ programs (gpgpu st).

(** ** Predicates and derived notions used in the proofs *)

Definition deletePrograms (m : gmap string GPGPUBinary) (g : GPGPUContext) :=
  map_fold (λ (_ : string) b g', deleteProgram (webGLProgram b) g') g m.

(** The record after the host part of [write]: an attached texture is
    detached together with its device shape, and the values are stored. *)
Definition written (d : TextureData) (v : TypedArray) : TextureData :=
  mkTextureData (shape d) (dtype d) (Some v) None
    (match texture d with Some _ => None | None => texShape d end)
    (texType d).

(** The state after the host part of [write]. *)
Definition hostWritten (dataId : nat) (d : TextureData) (v : TypedArray)
    (st : MathBackendWebGL) : MathBackendWebGL :=
  with_texData (<[dataId := written d v]> (texData st))
    match texture d with
    | Some t => (releaseTexture t (texShape d) (texType d) st).2
    | None => st
    end.

Definition preserves {A} (P : MathBackendWebGL → Prop) (m : M A) : Prop :=
  ∀ st, P st → P (m st).2.

(** The calls the methods are composed of.  A predicate closed under them
    is preserved by every method except, possibly, [dispose]. *)
Record Closed (P : MathBackendWebGL → Prop) : Prop := {
  closed_register : ∀ dataId s d, preserves P (register dataId s d);
  closed_nextDataId : ∀ n, preserves P (modify (with_nextDataId n));
  closed_texType : ∀ dataId k, preserves P (updateTexData dataId (with_texType k));
  closed_uploadToGPU : ∀ dataId, preserves P (uploadToGPU dataId);
  closed_cacheOnCPU : ∀ dataId v, preserves P (cacheOnCPU dataId v);
  closed_write : ∀ dataId v, preserves P (write dataId v);
  closed_disposeData : ∀ dataId, preserves P (disposeData dataId);
  closed_uploadPixels : ∀ t r c data, preserves P (uploadMatrixToTexture t r c data);
  closed_compile : ∀ prog ins out,
    preserves P (getAndSaveBinary (makeShaderKey prog ins out)
                   (compileProgram prog ins out));
  closed_runProgram : ∀ b ins out, preserves P (runProgram b ins out)
}.

Definition resident_ok (st : MathBackendWebGL) : Prop :=
  residency_inv st ∧ pool_ok st.

(** What the cache properties look at: the cache, the log of factory runs,
    and the programs alive in the device context. *)
Definition cacheView (st : MathBackendWebGL) :
    gmap string GPGPUBinary * list string * gset WebGLProgram :=
  (binaryCache st, compiledKeys st, programs (gpgpu st)).

Definition keepsCache {A} (m : M A) : Prop :=
  ∀ st, cacheView (m st).2 = cacheView st.

(** A property of the cache and the log alone. *)
Definition cacheOnly (Q : gmap string GPGPUBinary → list string → Prop)
    (st : MathBackendWebGL) : Prop :=
  Q (binaryCache st) (compiledKeys st).

Definition shape_inv (st : MathBackendWebGL) : Prop :=
  ∀ dataId d, texData st !! dataId = Some d →
    is_Some (texture d) → is_Some (texShape d).

(** The handle has a record with a device texture attached. *)
Definition resident (st : MathBackendWebGL) (dataId : nat) : Prop :=
  ∃ d t, texData st !! dataId = Some d ∧ texture d = Some t.

(** The settings of the backend and the life of its device context. *)
Definition configView (st : MathBackendWebGL) : bool * bool * bool * bool * bool :=
  (gpgpuCreatedLocally st, gpgpuDisposed (gpgpu st), delayedStorage st,
   disposed st, canvas st).

End Backend.

Close Scope string_scope.

(** * Multi-pass reductions, at the level of array contents

    [reduce] and [argReduce] drive device programs whose effect on the
    data is what the claims about sums and arg-extrema speak of.  Here an
    array is its shape and its rows of elements; running a program yields
    the output array.  Elements are integers: the exact arithmetic the
    specification's "mathematical sum" refers to. *)
Module Reduction.

Record Array2D (A : Type) := mkArray2D {
  rows : nat;
  cols : nat;
  data : list (list A)
}.
Arguments mkArray2D {A} rows cols data.
Arguments rows {A} a.
Arguments cols {A} a.
Arguments data {A} a.

(** The data agree with the declared shape. *)
Definition wellShaped {A} (x : Array2D A) : Prop :=
  length (data x) = rows x ∧ Forall (λ row, length row = cols x) (data x).

Inductive ReduceType := rmax | rmin | rsum.
Inductive ArgReduceType := amax | amin.

Record ReduceInfo := mkReduceInfo {
  windowSize : nat;
  inSize : nat;
  batchSize : nat
}.

(** [Math.ceil(inSize / windowSize)] for a positive window. *)
Definition ceilDiv (a b : nat) : nat := (a + b - 1) / b.

(** The elements an output position covers: window [outIdx] of the first
    [inSize] elements of its row; positions past the end of the row
    contribute nothing. *)
Definition windowOf {A} (info : ReduceInfo) (row : list A) (outIdx : nat) : list A :=
  take (windowSize info) (drop (outIdx * windowSize info) (take (inSize info) row)).

Definition reduceWindow (reduceType : ReduceType) (l : list Z) : Z :=
  match reduceType with
  | rsum => fold_right Z.add 0%Z l
  | rmax => match l with [] => 0%Z | a :: l' => fold_left Z.max l' a end
  | rmin => match l with [] => 0%Z | a :: l' => fold_left Z.min l' a end
  end.

(** Modelled from the spec: [ReduceProgram] ([webgl/reduce_gpu.ts]) is not
    among the sources.  One pass over a [batch, inSize] array produces the
    partially reduced [batch, ceil(inSize / window)] array, each output
    element reducing one window of consecutive input elements. *)
Definition ReduceProgram_outputShape (info : ReduceInfo) : nat * nat :=
  (batchSize info, ceilDiv (inSize info) (windowSize info)).

Definition runReduceProgram (info : ReduceInfo) (reduceType : ReduceType)
    (x : Array2D Z) : Array2D Z :=
  let '(r, c) := ReduceProgram_outputShape info in
  mkArray2D r c
    (map (λ row, map (λ outIdx, reduceWindow reduceType (windowOf info row outIdx))
                   (seq 0 c))
       (data x)).

(** The strict comparison of the arg-reduction: [>] for max, [<] for min. *)
Definition better (reduceType : ArgReduceType) (candidate best : Z) : bool :=
  match reduceType with
  | amax => (candidate >? best)%Z
  | amin => (candidate <? best)%Z
  end.

(** Modelled from the spec: [ArgMinMaxProgram] ([webgl/argminmax_gpu.ts])
    is not among the sources.  One pass looks, for each output position, at
    the window of candidate positions it covers.  In the first pass a
    candidate position is itself an index into the row of [x]; in later
    passes the index is read from the best-indices array of the previous
    pass.  The window is scanned left to right and a candidate replaces the
    best so far only if it is strictly better, so the first-encountered
    extremal element wins. *)
Definition candidateIndex (bestIndicesA : option (list nat)) (pos : nat) : nat :=
  match bestIndicesA with
  | None => pos
  | Some brow => nth pos brow 0
  end.

Definition scanWindow (reduceType : ArgReduceType) (xrow : list Z)
    (candidates : list nat) : nat :=
  match candidates with
  | [] => 0
  | c0 :: rest =>
      fold_left (λ bestIndex inIdx,
                   if better reduceType (nth inIdx xrow 0%Z) (nth bestIndex xrow 0%Z)
                   then inIdx else bestIndex)
        rest c0
  end.

Definition ArgMinMaxProgram_outputShape (info : ReduceInfo) : nat * nat :=
  (batchSize info, ceilDiv (inSize info) (windowSize info)).

Definition runArgMinMaxRow (info : ReduceInfo) (reduceType : ArgReduceType)
    (xrow : list Z) (brow : option (list nat)) : list nat :=
  map (λ outIdx,
         scanWindow reduceType xrow
           (map (candidateIndex brow) (windowOf info (seq 0 (inSize info)) outIdx)))
    (seq 0 (ceilDiv (inSize info) (windowSize info))).

Definition runArgMinMaxProgram (info : ReduceInfo) (reduceType : ArgReduceType)
    (x : Array2D Z) (bestIndicesA : option (Array2D nat)) : Array2D nat :=
  let '(r, c) := ArgMinMaxProgram_outputShape info in
  mkArray2D r c
    (map (λ batch,
            runArgMinMaxRow info reduceType (nth batch (data x) [])
              (option_map (λ b, nth batch (data b) []) bestIndicesA))
       (seq 0 r)).

Section Driver.

(** [reduce_util.computeOptimalWindowSize] is not among the sources and the
    specification leaves the heuristic open; the drivers take it as a
    parameter. *)
Variable computeOptimalWindowSize : nat → nat.

(** [reduce].  The recursion of the source is on the array just produced;
    [fuel] bounds the number of passes. *)
Fixpoint reduce (fuel : nat) (x : Array2D Z) (reduceType : ReduceType)
    : option (Array2D Z) :=
  match fuel with
  | 0 => None
  | S fuel' =>
      let batchSize := rows x in
      let inSize := cols x in
      let windowSize := computeOptimalWindowSize inSize in
      let reduceInfo := mkReduceInfo windowSize inSize batchSize in
      let output := runReduceProgram reduceInfo reduceType x in
      if Nat.eqb (cols output) 1 then Some output
      else reduce fuel' output reduceType
  end.

(** [argReduce]. *)
Fixpoint argReduce (fuel : nat) (x : Array2D Z) (reduceType : ArgReduceType)
    (bestIndicesA : option (Array2D nat)) : option (Array2D nat) :=
  match fuel with
  | 0 => None
  | S fuel' =>
      let '(batchSize, inSize) :=
        match bestIndicesA with
        | Some b => (rows b, cols b)
        | None => (rows x, cols x)
        end in
      let windowSize := computeOptimalWindowSize inSize in
      let reduceInfo := mkReduceInfo windowSize inSize batchSize in
      let output := runArgMinMaxProgram reduceInfo reduceType x bestIndicesA in
      if Nat.eqb (cols output) 1 then Some output
      else argReduce fuel' x reduceType (Some output)
  end.

(** [sum], [argMin] and [argMax] of a 2-D array over its last axis: the
    array is already the [batch, inSize] view, and the [batch, 1] result is
    reshaped to [batch], which leaves its elements in row order. *)
Definition sum (fuel : nat) (x : Array2D Z) : option (list Z) :=
  option_map (λ out, concat (data out)) (reduce fuel x rsum).

(** [max] and [min] of a 2-D array over its last axis. *)
Definition max (fuel : nat) (x : Array2D Z) : option (list Z) :=
  option_map (λ out, concat (data out)) (reduce fuel x rmax).

Definition min (fuel : nat) (x : Array2D Z) : option (list Z) :=
  option_map (λ out, concat (data out)) (reduce fuel x rmin).

Definition argMin (fuel : nat) (x : Array2D Z) : option (list nat) :=
  option_map (λ out, concat (data out)) (argReduce fuel x amin None).

Definition argMax (fuel : nat) (x : Array2D Z) : option (list nat) :=
  option_map (λ out, concat (data out)) (argReduce fuel x amax None).

End Driver.

(** The mathematical sum of a row. *)
Definition rowSum (row : list Z) : Z := fold_right Z.add 0%Z row.

(** [i] is the lowest index at which [row] takes its extremal value. *)
Definition firstExtremum (reduceType : ArgReduceType) (row : list Z) (i : nat) : Prop :=
  i < length row ∧
  (∀ j, j < length row → better reduceType (nth j row 0%Z) (nth i row 0%Z) = false) ∧
  (∀ j, j < i → better reduceType (nth i row 0%Z) (nth j row 0%Z) = true).

(** A window heuristic makes progress: it is positive, and at least 2 on
    sizes that still need reducing. *)
Definition progresses (w : nat → nat) : Prop :=
  ∀ n, 1 ≤ n → 1 ≤ w n ∧ (2 ≤ n → 2 ≤ w n).

(** ** Notions used in the proofs about arg-reductions *)

Definition val (x : list Z) (i : nat) : Z := nth i x 0%Z.

(** Candidate [c] is at least as good as [j]: strictly better, or equal in
    value and not to the right of it. *)
Definition dominates (rt : ArgReduceType) (x : list Z) (c j : nat) : Prop :=
  better rt (val x c) (val x j) = true ∨ (val x c = val x j ∧ c ≤ j).

Definition sortedIdx (C : list nat) : Prop :=
  ∀ i j a b, i ≤ j → C !! i = Some a → C !! j = Some b → a ≤ b.

(** What the candidates of a pass satisfy: they are indices into the row,
    in increasing order, and every position of the row is dominated by
    one of them. *)
Definition RowInv (rt : ArgReduceType) (x : list Z) (C : list nat) : Prop :=
  C ≠ [] ∧ (∀ c, c ∈ C → c < length x) ∧ sortedIdx C ∧
  ∀ j, j < length x → ∃ c, c ∈ C ∧ dominates rt x c j.

(** Windows of a candidate list. *)
Definition window (w : nat) (C : list nat) (k : nat) : list nat :=
  take w (drop (k * w) C).

(** The candidates one pass hands to the next: the scan of each window. *)
Definition scanAll (rt : ArgReduceType) (x : list Z) (w : nat) (C : list nat) : list nat :=
  map (λ k, scanWindow rt x (window w C k)) (seq 0 (ceilDiv (length C) w)).

(** The candidates a pass reads: the positions themselves in the first
    pass, the best indices of the previous pass afterwards. *)
Definition candidates (brow : option (list nat)) (n : nat) : list nat :=
  map (candidateIndex brow) (seq 0 n).

(** The state of [argReduce] between passes: [n] candidates per row, those
    of [bestIndicesA] (or the positions themselves before the first pass),
    satisfying the row invariant. *)
Definition ArgState (rt : ArgReduceType) (x : Array2D Z)
    (best : option (Array2D nat)) (n : nat) : Prop :=
  match best with
  | None => n = cols x
  | Some B => rows B = rows x ∧ cols B = n
  end ∧
  ∀ b row, data x !! b = Some row →
    RowInv rt row (candidates (option_map (λ B, nth b (data B) []) best) n).

Definition argResult (rt : ArgReduceType) (row : list Z) (orow : list nat) : Prop :=
  ∃ r, orow = [r] ∧ firstExtremum rt row r.

(** [v] is no better than [m] for the reduction: below it for max, above
    it for min. *)
Definition noBetter (rt : ReduceType) (v m : Z) : Prop :=
  match rt with
  | rmax => (v ≤ m)%Z
  | rmin => (m ≤ v)%Z
  | rsum => True
  end.

(** [m] is an element of the row and no element is better. *)
Definition rowExtremum (rt : ReduceType) (row : list Z) (m : Z) : Prop :=
  m ∈ row ∧ ∀ v, v ∈ row → noBetter rt v m.

(** What the partial results of a row satisfy between passes. *)
Definition Cover (rt : ReduceType) (row partial : list Z) : Prop :=
  partial ≠ [] ∧ (∀ u, u ∈ partial → u ∈ row) ∧
  ∀ v, v ∈ row → ∃ u, u ∈ partial ∧ noBetter rt v u.

End Reduction.

(** * Concrete collaborators and inputs used by the examples *)

Module Examples.

(** Rows-by-columns texture shapes: a logical shape [[r; c]] keeps its
    shape, anything else is laid out as one row. *)
#[export] Instance collaborators : Collaborators := {|
  getTextureShapeFromLogicalShape s :=
    match s with
    | [r; c] => (r, c)
    | _ => (1, foldr Nat.mul 1 s)
    end;
  makeShaderKey prog inputs output :=
    (userCode prog ++ "_" ++ pretty (length inputs))%string;
  runShader prog contents := concat contents;
  BinaryOpProgram op a b :=
    if decide (a = b) then Some (mkProgram "binary" a) else None;
  Copy2DProgram r c := mkProgram "copy2d" [];
  FromPixelsProgram s := mkProgram "fromPixels" s;
  WEBGL_VERSION := 2;
  WEBGL_GET_BUFFER_SUB_DATA_ASYNC_EXTENSION_ENABLED := false;
  WEBGL_DISJOINT_QUERY_TIMER_EXTENSION_VERSION := 0
|}.

(** A backend built by [new MathBackendWebGL()], and one built with delayed
    storage switched off; the allocation layer's counter stands at 100. *)
Definition fresh : MathBackendWebGL :=
  mkBackend ∅ true (mkTextureManager [] [] 0 false) ∅ true newGPGPUContext
    true false [] 100.

Definition freshEager : MathBackendWebGL :=
  mkBackend ∅ true (mkTextureManager [] [] 0 false) ∅ true newGPGPUContext
    false false [] 100.

(** Array 0 registered with shape [[3]] and host values [1, 2, 3]. *)
Definition hosted : MathBackendWebGL :=
  run [Register 0 [3] float32; Write 0 (Some [1; 2; 3]%Z)] fresh.

(** Arrays 0 (int32) and 1 (float32), both of shape [[3]], with values. *)
Definition mixed : MathBackendWebGL :=
  run [Register 0 [3] int32; Write 0 (Some [1; 2; 3]%Z);
       Register 1 [3] float32; Write 1 (Some [4; 5; 6]%Z)] fresh.

Definition i0 : NDArray.t := NDArray.make_handle 0 [3] int32.
Definition f1 : NDArray.t := NDArray.make_handle 1 [3] float32.

(** The value a call returned, if it returned. *)
Definition returned {A} (r : Result A * MathBackendWebGL) : option A :=
  match r.1 with Ok a => Some a | Throw _ => None end.

Definition a0 : NDArray.t := NDArray.make_handle 0 [3] float32.
Definition a1 : NDArray.t := NDArray.make_handle 1 [3] float32.
Definition out2 : NDArray.t := NDArray.make_handle 2 [3] float32.


(** Inputs of the examples about the backend. *)
Definition copyProgram : GPGPUProgram := mkProgram "copy" [3].

Definition record0 : TextureData :=
  mkTextureData [3] float32 (Some [1; 2; 3]%Z) None None FLOAT.

Definition factory0 : GPGPUContext → GPGPUBinary * GPGPUContext :=
  compileProgram copyProgram [] (a0, record0).

Definition sum100 : NDArray.t := NDArray.make_handle 100 [3] float32.

Definition registeredEager : MathBackendWebGL :=
  run [Register 0 [3] float32] freshEager.

Definition empty0 : TextureData :=
  mkTextureData [3] float32 None None None FLOAT.

(** Array 0 of [hosted] made resident on the device, and its record. *)
Definition uploaded : MathBackendWebGL := (uploadToGPU 0 hosted).2.

Definition record0dev : TextureData :=
  mkTextureData [3] float32 None (Some 0) (Some (1, 3)) FLOAT.

(** Array 0 on the device and array 1 of the same shape on the host. *)
Definition twoArrays : MathBackendWebGL :=
  run [Register 0 [3] float32; Write 0 (Some [1; 2; 3]%Z); GetTexture 0;
       Register 1 [3] float32; Write 1 (Some [4; 5; 6]%Z)] fresh.

Definition record1 : TextureData :=
  mkTextureData [3] float32 (Some [4; 5; 6]%Z) None None FLOAT.

(** A 2 by 2 image and the array [fromPixels] makes of it. *)
Definition px22 : Pixels := mkPixels 2 2 false [10; 20; 30; 40]%Z.

Definition pixels101 : NDArray.t := NDArray.make_handle 101 [2; 2; 3] int32.

(** A backend built on a device context supplied by the caller, with
    delayed storage off. *)
Definition freshUser : MathBackendWebGL :=
  mkBackend ∅ true (mkTextureManager [] [] 0 false) ∅ false newGPGPUContext
    false false [] 0.

(** Window heuristics that make progress, a [2, 7] array, and a row with
    a tie for the maximum. *)
Definition window2 : nat → nat := λ _, 2.
Definition window3 : nat → nat := λ _, 3.
Definition wholeRow : nat → nat := λ n, n.

Definition x27 : Reduction.Array2D Z :=
  Reduction.mkArray2D 2 7
    [[1; 2; 3; 4; 5; 6; 7]; [-1; 0; 5; 5; 9; 2; 2]]%Z.

Definition ties : Reduction.Array2D Z :=
  Reduction.mkArray2D 1 4 [[3; 5; 5; 1]]%Z.

End Examples.

(** * Properties of the backend *)

Ltac unfold_monad :=
  unfold bind, ret, throw, get, modify, throwIfNoData, readTexData,
    updateTexData in *.

Ltac unfold_device :=
  unfold acquireTexture, releaseTexture, createMatrixTexture,
    uploadMatrixToTexture, downloadMatrixFromTexture in *.

Ltac crush :=
  repeat (case_match; simplify_eq/=; simplify_map_eq/=).

Section BackendProofs.
Context `{Collaborators}.

(** *** Residency upload *)

Lemma uploadToGPU_resident st dataId d t :
  texData st !! dataId = Some d → texture d = Some t →
  uploadToGPU dataId st = (Ok tt, st).
Proof.
  intros Hd Ht. unfold uploadToGPU. unfold_monad.
  rewrite Hd. simpl. rewrite Hd. simpl. rewrite Ht. done.
Qed.

Lemma uploadToGPU_unregistered st dataId :
  texData st !! dataId = None →
  uploadToGPU dataId st = (Throw (NoData dataId), st).
Proof.
  intros Hd. unfold uploadToGPU. unfold_monad.
  by rewrite Hd.
Qed.

Lemma uploadToGPU_Ok_attached st dataId st1 :
  uploadToGPU dataId st = (Ok tt, st1) →
  ∃ d t, texData st1 !! dataId = Some d ∧ texture d = Some t.
Proof.
  unfold uploadToGPU. unfold_monad. unfold_device.
  intros Hu. crush; eauto.
Qed.

Lemma uploadToGPU_state_idem st dataId :
  (uploadToGPU dataId (uploadToGPU dataId st).2).2 = (uploadToGPU dataId st).2.
Proof.
  unfold uploadToGPU. unfold_monad. unfold_device.
  crush; eauto.
  by rewrite insert_insert_eq.
Qed.

(** C4.  For a registered handle, a second [uploadToGPU] right after the
    first changes nothing: the state it leaves is the state it found, so no
    texture is acquired (the manager's acquisition count stands still), and
    when the first call returned the second returns as well.  Whenever a
    device texture is already attached, [uploadToGPU] is a no-op. *)
Theorem uploadToGPU_twice st dataId d :
  texData st !! dataId = Some d →
  let st1 := (uploadToGPU dataId st).2 in
  (uploadToGPU dataId st1).2 = st1 ∧
  numAcquired (textureManager (uploadToGPU dataId st1).2)
    = numAcquired (textureManager st1) ∧
  ((uploadToGPU dataId st).1 = Ok tt → uploadToGPU dataId st1 = (Ok tt, st1)) ∧
  (∀ t, texture d = Some t → uploadToGPU dataId st = (Ok tt, st)).
Proof.
  intros Hd st1. subst st1.
  pose proof (uploadToGPU_state_idem st dataId) as Hidem.
  split; [done|]. split; [by rewrite Hidem|]. split.
  - intros Hok. destruct (uploadToGPU dataId st) as [r st1] eqn:Hu.
    simpl in *. subst r.
    destruct (uploadToGPU_Ok_attached _ _ _ Hu) as (d1 & t1 & Hd1 & Ht1).
    by apply (uploadToGPU_resident _ _ d1 t1).
  - intros t Ht. by apply (uploadToGPU_resident _ _ d t).
Qed.

(** *** Disposal of one array *)

Lemma disposeData_unregistered st dataId :
  texData st !! dataId = None → disposeData dataId st = (Ok tt, st).
Proof. intros Hd. unfold disposeData. unfold_monad. by rewrite Hd. Qed.

Lemma disposeData_registered st dataId d :
  texData st !! dataId = Some d →
  disposeData dataId st =
    (Ok tt,
     with_texData (delete dataId (texData st))
       match texture d with
       | Some t => (releaseTexture t (texShape d) (texType d) st).2
       | None => st
       end).
Proof.
  intros Hd. unfold disposeData. unfold_monad. unfold_device. unfold_monad.
  rewrite Hd. by destruct (texture d).
Qed.

(** C10.  [disposeData] on a handle with no record returns normally and
    leaves the state as it is, so disposing twice is the same as disposing
    once; on a registered handle it returns normally, the record is gone,
    an attached texture is in the free pool under the record's shape and
    kind, and a record without a texture leaves the manager untouched. *)
Theorem disposeData_spec st dataId :
  (texData st !! dataId = None → disposeData dataId st = (Ok tt, st)) ∧
  disposeData dataId (disposeData dataId st).2
    = (Ok tt, (disposeData dataId st).2) ∧
  (∀ d, texData st !! dataId = Some d →
     ∃ st', disposeData dataId st = (Ok tt, st') ∧
       texData st' = delete dataId (texData st) ∧
       (∀ t, texture d = Some t →
          (texShape d, texType d, t) ∈ freeTextures (textureManager st')) ∧
       (texture d = None → textureManager st' = textureManager st)).
Proof.
  split; [apply disposeData_unregistered|]. split.
  - apply disposeData_unregistered.
    destruct (texData st !! dataId) as [d|] eqn:Hd.
    + rewrite (disposeData_registered _ _ d) by done. simpl.
      apply lookup_delete_eq.
    + by rewrite disposeData_unregistered.
  - intros d Hd. eexists. split; [by apply disposeData_registered|].
    split; [done|]. split.
    + intros t Ht. rewrite Ht. simpl. set_solver.
    + intros Ht. by rewrite Ht.
Qed.

(** *** Teardown *)

Lemma deletePrograms_spec m g :
  let g' := deletePrograms m g in
  textures g' = textures g ∧ nextTexture g' = nextTexture g ∧
  nextProgram g' = nextProgram g ∧ gpgpuDisposed g' = gpgpuDisposed g ∧
  ∀ p, p ∈ programs g' ↔
       p ∈ programs g ∧ ∀ k b, m !! k = Some b → webGLProgram b ≠ p.
Proof.
  unfold deletePrograms.
  apply (map_fold_weak_ind (λ g' m,
    textures g' = textures g ∧ nextTexture g' = nextTexture g ∧
    nextProgram g' = nextProgram g ∧ gpgpuDisposed g' = gpgpuDisposed g ∧
    ∀ p, p ∈ programs g' ↔
         p ∈ programs g ∧ ∀ k b, m !! k = Some b → webGLProgram b ≠ p)).
  - do 4 (split; [done|]). intros p. split.
    + intros Hp. split; [done|]. intros k b Hk. by rewrite lookup_empty in Hk.
    + by intros [Hp _].
  - intros k b m' r Hk (Ht & Hnt & Hnp & Hd & Hp).
    do 4 (split; [done|]). intros p. simpl.
    rewrite elem_of_difference, Hp, not_elem_of_singleton. split.
    + intros [[Hg Hall] Hne]. split; [done|]. intros k' b' Hk'.
      destruct (decide (k = k')) as [->|Hkk].
      * rewrite lookup_insert_eq in Hk'. simplify_eq. congruence.
      * rewrite lookup_insert_ne in Hk' by done. eauto.
    + intros [Hg Hall]. split; [split; [done|]|].
      * intros k' b' Hk'. apply (Hall k' b').
        rewrite lookup_insert_ne; [done|]. intros ->. congruence.
      * intros Heq. apply (Hall k b); [apply lookup_insert_eq | done].
Qed.

Lemma deleteTextures_spec blocks g :
  let g' := fold_right deleteMatrixTexture g blocks in
  programs g' = programs g ∧ gpgpuDisposed g' = gpgpuDisposed g ∧
  nextTexture g' = nextTexture g ∧ nextProgram g' = nextProgram g ∧
  ∀ t, t ∈ blocks → textures g' !! t = None.
Proof.
  induction blocks as [|b blocks IH]; simpl.
  - repeat split. intros t Ht. by apply elem_of_nil in Ht.
  - destruct IH as (Hp & Hd & Hnt & Hnp & Hall). repeat split; try done.
    intros t Ht. apply elem_of_cons in Ht as [->|Ht].
    + apply lookup_delete_eq.
    + destruct (decide (b = t)) as [->|Hne].
      * apply lookup_delete_eq.
      * rewrite lookup_delete_ne by done. by apply Hall.
Qed.

Lemma dispose_unfold st :
  disposed st = false →
  dispose st =
    let st1 := textureManager_dispose
                 (with_gpgpu (deletePrograms (binaryCache st) (gpgpu st)) st) in
    with_disposed true
      (if gpgpuCreatedLocally st1
       then with_gpgpu (gpgpu_dispose (gpgpu st1)) st1 else st1).
Proof. intros Hd. unfold dispose. by rewrite Hd. Qed.

(** C8.  [dispose] is idempotent.  On a backend not yet disposed, the
    first call deletes every cached program from the device context,
    disposes the texture manager (every pooled and outstanding block is
    freed), disposes the device context when the backend created it, and
    sets the flag; on a disposed backend the call changes nothing. *)
Theorem dispose_idempotent st :
  dispose (dispose st) = dispose st ∧
  (disposed st = true → dispose st = st) ∧
  (disposed st = false →
     disposed (dispose st) = true ∧
     (∀ k b, binaryCache st !! k = Some b →
        webGLProgram b ∉ programs (gpgpu (dispose st))) ∧
     managerDisposed (textureManager (dispose st)) = true ∧
     (∀ t, t ∈ map snd (freeTextures (textureManager st))
             ++ usedTextures (textureManager st) →
        textures (gpgpu (dispose st)) !! t = None) ∧
     (gpgpuCreatedLocally st = true →
        gpgpuDisposed (gpgpu (dispose st)) = true) ∧
     (gpgpuCreatedLocally st = false →
        gpgpuDisposed (gpgpu (dispose st)) = gpgpuDisposed (gpgpu st))).
Proof.
  assert (Hflag : ∀ s, disposed s = true → dispose s = s).
  { intros s Hs. unfold dispose. by rewrite Hs. }
  assert (Hset : ∀ s, disposed s = false → disposed (dispose s) = true).
  { intros s Hs. rewrite dispose_unfold by done. simpl. done. }
  split; [|split; [apply Hflag|]].
  - destruct (disposed st) eqn:Hd.
    + rewrite (Hflag st Hd). apply (Hflag st Hd).
    + apply Hflag. by apply Hset.
  - intros Hd. split; [by apply Hset|].
    rewrite dispose_unfold by done.
    pose proof (deletePrograms_spec (binaryCache st) (gpgpu st)) as Hdp.
    simpl in Hdp. destruct Hdp as (Hdt & _ & _ & Hdd & Hdp).
    pose proof (deleteTextures_spec
                  (map snd (freeTextures (textureManager st))
                     ++ usedTextures (textureManager st))
                  (deletePrograms (binaryCache st) (gpgpu st))) as Hdx.
    simpl in Hdx. destruct Hdx as (Hxp & Hxd & _ & _ & Hxt).
    unfold textureManager_dispose. simpl.
    destruct (gpgpuCreatedLocally st) eqn:Hloc; simpl.
    + unfold gpgpu_dispose. rewrite Hxd, Hdd.
      destruct (gpgpuDisposed (gpgpu st)) eqn:Hgd; simpl.
      * split; [|split; [done|split; [done|split; [by rewrite Hxd, Hdd|done]]]].
        intros k b Hk. rewrite Hxp, Hdp. intros [_ Hall]. by apply (Hall k b).
      * split; [|split; [done|split; [|done]]].
        -- intros k b Hk. set_solver.
        -- intros t Ht. apply lookup_empty.
    + split; [|split; [done|split; [done|split; [done|by rewrite Hxd, Hdd]]]].
      intros k b Hk. rewrite Hxp, Hdp. intros [_ Hall]. by apply (Hall k b).
Qed.

(** *** Host writes *)

Lemma write_null st dataId : write dataId None st = (Throw ValuesNull, st).
Proof. done. Qed.

Lemma write_unregistered st dataId v :
  texData st !! dataId = None →
  write dataId (Some v) st = (Throw (NoData dataId), st).
Proof. intros Hd. unfold write. unfold_monad. by rewrite Hd. Qed.

Lemma write_delayed st dataId d v :
  texData st !! dataId = Some d → delayedStorage st = true →
  write dataId (Some v) st = (Ok tt, hostWritten dataId d v st).
Proof.
  intros Hd Hdel. unfold write, hostWritten, written. unfold_monad.
  unfold_device. unfold_monad.
  rewrite Hd. simpl. rewrite Hd. simpl.
  destruct (texture d) as [t|] eqn:Ht; simpl.
  - repeat first [rewrite lookup_insert_eq | rewrite Hd | progress simpl].
    rewrite Hdel. by rewrite !insert_insert_eq.
  - rewrite Hd. simpl. rewrite Hdel. by rewrite Ht.
Qed.

Lemma write_eager st dataId d v :
  texData st !! dataId = Some d → delayedStorage st = false →
  write dataId (Some v) st = uploadToGPU dataId (hostWritten dataId d v st).
Proof.
  intros Hd Hdel. unfold write, hostWritten, written. unfold_monad.
  unfold_device. unfold_monad.
  rewrite Hd. simpl. rewrite Hd. simpl.
  destruct (texture d) as [t|] eqn:Ht; simpl.
  - repeat first [rewrite lookup_insert_eq | rewrite Hd | progress simpl].
    rewrite Hdel. by rewrite !insert_insert_eq.
  - rewrite Hd. simpl. rewrite Hdel. by rewrite Ht.
Qed.

Lemma uploadToGPU_Ok_fresh st dataId d st1 :
  texData st !! dataId = Some d → texture d = None →
  uploadToGPU dataId st = (Ok tt, st1) →
  ∃ d' t, texData st1 !! dataId = Some d' ∧ texture d' = Some t ∧
          values d' = None.
Proof.
  unfold uploadToGPU. unfold_monad. unfold_device.
  intros Hd Ht Hu. crush; eauto.
Qed.

(** C7, as the code has it.  On a registered handle, [write] with null
    values throws and leaves the state as it is.  With values, an attached
    texture goes back to the free pool under the record's device shape and
    kind, the record loses texture and device shape, and the values are
    stored; other records are untouched.  Under delayed storage (the
    default) that is the end state and the call returns: the handle is
    host-resident.  With delayed storage off the call goes on to
    [uploadToGPU], and when it returns the record holds a device texture
    and no host values. *)
Theorem write_spec st dataId d :
  texData st !! dataId = Some d →
  write dataId None st = (Throw ValuesNull, st) ∧
  ∀ v,
    let st' := hostWritten dataId d v st in
    texData st' = <[dataId := written d v]> (texData st) ∧
    values (written d v) = Some v ∧ texture (written d v) = None ∧
    (∀ t, texture d = Some t →
       texShape (written d v) = None ∧
       (texShape d, texType d, t) ∈ freeTextures (textureManager st')) ∧
    (texture d = None → textureManager st' = textureManager st) ∧
    (delayedStorage st = true → write dataId (Some v) st = (Ok tt, st')) ∧
    (delayedStorage st = false →
       write dataId (Some v) st = uploadToGPU dataId st' ∧
       ∀ st2, write dataId (Some v) st = (Ok tt, st2) →
         ∃ d2 t2, texData st2 !! dataId = Some d2 ∧
                  texture d2 = Some t2 ∧ values d2 = None).
Proof.
  intros Hd. split; [done|]. intros v st'. subst st'.
  split; [done|]. split; [done|]. split; [done|]. split; [|split; [|split]].
  - intros t Ht. unfold written, hostWritten. rewrite Ht. simpl.
    split; [done|]. set_solver.
  - intros Ht. unfold hostWritten. by rewrite Ht.
  - intros Hdel. by apply write_delayed.
  - intros Hdel. split; [by apply write_eager|].
    intros st2. rewrite (write_eager _ _ d) by done. intros Hu.
    apply (uploadToGPU_Ok_fresh _ _ (written d v) _) in Hu; [done| |done].
    unfold hostWritten. simpl. apply lookup_insert_eq.
Qed.

(** *** Handles without a record *)

Lemma readSync_unregistered st dataId :
  texData st !! dataId = None →
  readSync dataId st = (Throw (NoData dataId), st).
Proof. intros Hd. unfold readSync. unfold_monad. by rewrite Hd. Qed.

Lemma read_unregistered st dataId :
  texData st !! dataId = None →
  read dataId st = (Throw (NoData dataId), st).
Proof. intros Hd. unfold read. unfold_monad. by rewrite Hd. Qed.

Lemma getTexture_unregistered st dataId :
  texData st !! dataId = None →
  getTexture dataId st = (Throw (NoData dataId), st).
Proof.
  intros Hd. unfold getTexture, bind.
  by rewrite uploadToGPU_unregistered.
Qed.

Lemma getTextureData_unregistered st dataId :
  texData st !! dataId = None →
  getTextureData dataId st = (Throw (NoData dataId), st).
Proof.
  intros Hd. unfold getTextureData, bind.
  by rewrite uploadToGPU_unregistered.
Qed.

Lemma clone_unregistered st x :
  texData st !! NDArray.dataId x = None →
  clone x st = (Throw (NoData (NDArray.dataId x)), st).
Proof. intros Hd. unfold clone. unfold_monad. by rewrite Hd. Qed.

Lemma uploadToGPU_keeps_unregistered st dataId other :
  texData st !! other = None →
  texData (uploadToGPU dataId st).2 !! other = None.
Proof.
  unfold uploadToGPU. unfold_monad. unfold_device.
  intros Hd. crush; eauto.
Qed.

Lemma uploadInput_keeps_unregistered st input other :
  texData st !! other = None →
  texData (uploadInput input st).2 !! other = None.
Proof.
  intros Hd. unfold uploadInput, bind.
  pose proof (uploadToGPU_keeps_unregistered st (NDArray.dataId input) other Hd) as Hu.
  destruct (uploadToGPU (NDArray.dataId input) st) as [[[]|e] st1]; simpl in *;
    [|done].
  unfold readTexData, ret. by destruct (texData st1 !! NDArray.dataId input).
Qed.

Lemma mapM_uploadInput_keeps_unregistered inputs st other :
  texData st !! other = None →
  texData (mapM uploadInput inputs st).2 !! other = None.
Proof.
  revert st. induction inputs as [|input inputs IH]; intros st Hd; [done|].
  simpl. unfold bind at 1.
  pose proof (uploadInput_keeps_unregistered st input other Hd) as Hu.
  destruct (uploadInput input st) as [[a|e] st1]; simpl in *; [|done].
  unfold bind at 1. specialize (IH st1 Hu).
  by destruct (mapM uploadInput inputs st1) as [[bs|e] st2].
Qed.

Lemma mapM_app_throw {A B} (f : A → M B) pre x post st :
  mapM f (pre ++ x :: post) st =
    match mapM f pre st with
    | (Ok bs, st1) =>
        match f x st1 with
        | (Ok b, st2) =>
            match mapM f post st2 with
            | (Ok bs', st3) => (Ok (bs ++ b :: bs'), st3)
            | (Throw e, st3) => (Throw e, st3)
            end
        | (Throw e, st2) => (Throw e, st2)
        end
    | (Throw e, st1) => (Throw e, st1)
    end.
Proof.
  revert st. induction pre as [|a pre IH]; intros st; simpl.
  - unfold bind, ret. destruct (f x st) as [[b|e] st2]; [|done].
    reflexivity.
  - unfold bind, ret. destruct (f a st) as [[b|e] st1]; [|done].
    rewrite IH.
    destruct (mapM f pre st1) as [[bs|e] st2]; [|done].
    destruct (f x st2) as [[b'|e] st3]; [|done].
    destruct (mapM f post st3) as [[bs'|e] st4]; reflexivity.
Qed.

(** Where [compileAndRun] stops when an operand has no record: at that
    operand's residency upload, after the uploads of the inputs before it. *)
Lemma compileAndRun_unregistered_input st prog pre x post out :
  texData st !! NDArray.dataId x = None →
  compileAndRun prog (pre ++ x :: post) (Some out) st =
    match mapM uploadInput pre st with
    | (Ok _, st1) => (Throw (NoData (NDArray.dataId x)), st1)
    | (Throw e, st1) => (Throw e, st1)
    end.
Proof.
  intros Hd. unfold compileAndRun. unfold bind at 1. unfold ret at 1.
  unfold bind at 1. rewrite mapM_app_throw.
  pose proof (mapM_uploadInput_keeps_unregistered pre st _ Hd) as Hpre.
  destruct (mapM uploadInput pre st) as [[bs|e] st1]; simpl in *; [|done].
  unfold uploadInput, bind. by rewrite uploadToGPU_unregistered.
Qed.

(** The residency uploads stop at the first operand without a record,
    whatever was to follow them. *)
Lemma uploads_reach_unregistered {B} st pre x post (k : list ArrayData → M B) :
  texData st !! NDArray.dataId x = None →
  (inputsData <- mapM uploadInput (pre ++ x :: post) ;; k inputsData) st
    = (mapM uploadInput pre ;; throw (NoData (NDArray.dataId x))) st.
Proof.
  intros Hd. unfold bind. rewrite mapM_app_throw.
  pose proof (mapM_uploadInput_keeps_unregistered pre st _ Hd) as Hpre.
  destruct (mapM uploadInput pre st) as [[bs|e] st1]; simpl in *; [|done].
  unfold uploadInput, bind. by rewrite uploadToGPU_unregistered.
Qed.

Lemma bind_ext_at {A B} (m : M A) (k k' : A → M B) st :
  (∀ a st1, m st = (Ok a, st1) → k a st1 = k' a st1) →
  bind m k st = bind m k' st.
Proof.
  intros Hk. unfold bind. destruct (m st) as [[a|e] st1]; [|done]. by apply Hk.
Qed.

Lemma makeOutputArray_unregistered st s d :
  texData st !! nextDataId st = None →
  makeOutputArray s d st
    = (Ok (NDArray.make_handle (nextDataId st) s d),
       with_texData (<[nextDataId st := mkTextureData s d None None None FLOAT]>
                       (texData st))
         (with_nextDataId (S (nextDataId st)) st)).
Proof.
  intros Hd. unfold makeOutputArray. unfold_monad. simpl. unfold register. simpl.
  by rewrite Hd.
Qed.

Lemma makeOutputArray_keeps_unregistered st s d other :
  other ≠ nextDataId st → texData st !! other = None →
  texData (makeOutputArray s d st).2 !! other = None.
Proof.
  intros Hne Hd. unfold makeOutputArray. unfold_monad. simpl. unfold register. simpl.
  destruct (texData st !! nextDataId st); simpl; [done|].
  by rewrite lookup_insert_ne.
Qed.

Lemma compileAndRun_unregistered_operand st prog pre x post output :
  texData st !! NDArray.dataId x = None →
  (output = None → NDArray.dataId x ≠ nextDataId st) →
  compileAndRun prog (pre ++ x :: post) output st =
    (match output with
     | Some o => ret o
     | None => makeOutputArray (outputShape prog) (NDArray.dtype (hd x pre))
     end ;;
     mapM uploadInput pre ;;
     throw (NoData (NDArray.dataId x))) st.
Proof.
  intros Hd Hne. unfold compileAndRun.
  destruct output as [o|].
  - apply bind_ext_at. intros out st0 [= <- <-].
    by apply uploads_reach_unregistered.
  - specialize (Hne eq_refl).
    assert (Hhd : match pre ++ x :: post with
                  | i0 :: _ => makeOutputArray (outputShape prog) (NDArray.dtype i0)
                  | [] => throw TypeError
                  end = makeOutputArray (outputShape prog) (NDArray.dtype (hd x pre)))
      by (by destruct pre).
    rewrite Hhd. apply bind_ext_at. intros out st0 Hout.
    apply uploads_reach_unregistered.
    pose proof (makeOutputArray_keeps_unregistered st (outputShape prog)
                  (NDArray.dtype (hd x pre)) _ Hne Hd) as Hk.
    by rewrite Hout in Hk.
Qed.

Lemma dispatch_unregistered_operand st prog pre x post outType :
  texData st !! NDArray.dataId x = None →
  NDArray.dataId x ≠ nextDataId st →
  dispatch prog (pre ++ x :: post) outType st =
    (makeOutputArray (outputShape prog)
       (default (NDArray.dtype (hd x pre)) outType) ;;
     mapM uploadInput pre ;;
     throw (NoData (NDArray.dataId x))) st.
Proof.
  intros Hd Hne. unfold dispatch. destruct outType as [d|]; simpl.
  - apply bind_ext_at. intros out st0 Hout.
    pose proof (makeOutputArray_keeps_unregistered st (outputShape prog) d _ Hne Hd)
      as Hk.
    rewrite Hout in Hk. simpl in Hk.
    by rewrite compileAndRun_unregistered_operand.
  - by rewrite compileAndRun_unregistered_operand by done.
Qed.

(** Every binary method builds its program and then dispatches it on its
    two operands. *)
Lemma callBinary_dispatch m a b :
  callBinary m a b =
    (prog <- newBinaryOpProgram (binaryOp m) a b ;;
     dispatch prog [a; b] (binaryOutType m a b)).
Proof. by destruct m. Qed.

Lemma callBinary_unregistered_operand st m a b pre x post :
  [a; b] = pre ++ x :: post →
  texData st !! NDArray.dataId x = None →
  NDArray.dataId x ≠ nextDataId st →
  callBinary m a b st =
    (prog <- newBinaryOpProgram (binaryOp m) a b ;;
     makeOutputArray (outputShape prog)
       (default (NDArray.dtype a) (binaryOutType m a b)) ;;
     mapM uploadInput pre ;;
     throw (NoData (NDArray.dataId x))) st.
Proof.
  intros Hab Hd Hne. rewrite callBinary_dispatch.
  apply bind_ext_at. intros prog st0 Hp.
  assert (st0 = st) as ->.
  { unfold newBinaryOpProgram in Hp.
    destruct (BinaryOpProgram _ _ _); unfold ret, throw in Hp; by simplify_eq. }
  assert (Hhd : hd x pre = a) by (destruct pre; simpl in *; by simplify_eq).
  rewrite Hab. rewrite dispatch_unregistered_operand; [|done|done].
  by rewrite Hhd.
Qed.


(** *** Invariants: what every call preserves *)

Lemma preserves_ret {A} P (a : A) : preserves P (ret a).
Proof. by intros st. Qed.

Lemma preserves_throw {A} P e : preserves P (@throw A e).
Proof. by intros st. Qed.

Lemma preserves_get P : preserves P get.
Proof. by intros st. Qed.

Lemma preserves_bind {A B} P (m : M A) (k : A → M B) :
  preserves P m → (∀ a, preserves P (k a)) → preserves P (bind m k).
Proof.
  intros Hm Hk st HP. unfold bind. specialize (Hm st HP).
  destruct (m st) as [[a|e] st1]; simpl in *; [by apply Hk | done].
Qed.

Lemma preserves_mapM {A B} P (f : A → M B) l :
  (∀ a, preserves P (f a)) → preserves P (mapM f l).
Proof.
  intros Hf. induction l as [|a l IH]; simpl.
  - apply preserves_ret.
  - apply preserves_bind; [done|]. intros b.
    apply preserves_bind; [done|]. intros bs. apply preserves_ret.
Qed.

Lemma preserves_throwIfNoData P dataId : preserves P (throwIfNoData dataId).
Proof. intros st HP. unfold throwIfNoData. by destruct (texData st !! dataId). Qed.

Lemma preserves_readTexData P dataId : preserves P (readTexData dataId).
Proof. intros st HP. unfold readTexData. by destruct (texData st !! dataId). Qed.

Lemma preserves_download P t r c : preserves P (downloadMatrixFromTexture t r c).
Proof.
  intros st HP. unfold downloadMatrixFromTexture.
  destruct t as [t|]; [|done]. by destruct (textures (gpgpu st) !! t).
Qed.

Section Composite.
Variable P : MathBackendWebGL → Prop.
Hypothesis HP : Closed P.

Ltac pres :=
  repeat first
    [ apply preserves_ret | apply preserves_throw | apply preserves_get
    | apply preserves_throwIfNoData | apply preserves_readTexData
    | apply preserves_download
    | apply (closed_register P HP) | apply (closed_nextDataId P HP)
    | apply (closed_texType P HP) | apply (closed_uploadToGPU P HP)
    | apply (closed_cacheOnCPU P HP) | apply (closed_write P HP)
    | apply (closed_disposeData P HP) | apply (closed_uploadPixels P HP)
    | apply (closed_compile P HP) | apply (closed_runProgram P HP)
    | apply preserves_mapM; intros ?
    | apply preserves_bind; [|intros ?]
    | progress case_match ].

Lemma preserves_compileAndRun prog inputs output :
  preserves P (compileAndRun prog inputs output).
Proof. unfold compileAndRun. pres. Qed.

Lemma preserves_readSync dataId : preserves P (readSync dataId).
Proof. unfold readSync. pres. Qed.

Lemma preserves_read dataId : preserves P (read dataId).
Proof. unfold read. pres. Qed.

Lemma preserves_getTexture dataId : preserves P (getTexture dataId).
Proof. unfold getTexture. pres. Qed.

Lemma preserves_getTextureData dataId : preserves P (getTextureData dataId).
Proof. unfold getTextureData. pres. Qed.

Lemma preserves_clone x : preserves P (clone x).
Proof. unfold clone, copy2D. pres. Qed.

Lemma preserves_fromPixels pixels numChannels :
  preserves P (fromPixels pixels numChannels).
Proof.
  unfold fromPixels, NDArray_dispose, uploadPixelDataToTexture. pres.
Qed.

Lemma preserves_dispatch prog inputs outType :
  preserves P (dispatch prog inputs outType).
Proof. unfold dispatch. pres. Qed.

Lemma step_preserves o st :
  (o = Dispose → P (dispose st)) → P st → P (step o st).
Proof.
  intros Hdis Hst. destruct o; simpl.
  - by apply (closed_register P HP).
  - by apply (closed_write P HP).
  - by apply preserves_readSync.
  - by apply preserves_read.
  - by apply (closed_disposeData P HP).
  - by apply preserves_getTexture.
  - by apply preserves_getTextureData.
  - by apply preserves_clone.
  - by apply preserves_fromPixels.
  - by apply preserves_dispatch.
  - by apply Hdis.
Qed.

Lemma run_preserves ops st :
  (∀ st', P st' → In Dispose ops → P (dispose st')) → P st → P (run ops st).
Proof.
  revert st. induction ops as [|o ops IH]; intros st Hdis Hst; [done|].
  simpl. apply IH.
  - intros st' Hst' Hin. apply Hdis; [done|by right].
  - apply step_preserves; [|done]. intros ->. apply Hdis; [done|by left].
Qed.

End Composite.

(** *** The residency invariant *)

Lemma takeFree_Some k l t rest :
  takeFree k l = Some (t, rest) →
  (k, t) ∈ l ∧ ∀ x, x ∈ rest → x ∈ l.
Proof.
  revert t rest. induction l as [|[k' t'] l IH]; intros t rest; simpl; [done|].
  case_decide as Hk.
  - intros [= -> ->]. subst. split; [left|]. intros x Hx. by right.
  - destruct (takeFree k l) as [[t0 rest0]|] eqn:Htf; [|done].
    intros [= -> <-]. destruct (IH _ _ eq_refl) as [Hin Hsub].
    split; [by right|]. intros x Hx.
    apply elem_of_cons in Hx as [->|Hx]; [left | right; by apply Hsub].
Qed.

Lemma acquireTexture_Throw s k st e st' :
  acquireTexture s k st = (Throw e, st') → st' = st.
Proof.
  unfold acquireTexture, createMatrixTexture. intros Ha.
  crush; done.
Qed.

Lemma acquireTexture_Ok s k st t st' :
  acquireTexture s k st = (Ok t, st') →
  texData st' = texData st ∧ delayedStorage st' = delayedStorage st ∧
  managerDisposed (textureManager st') = false ∧
  managerDisposed (textureManager st) = false ∧
  (∀ x, x ∈ freeTextures (textureManager st') →
        x ∈ freeTextures (textureManager st)) ∧
  (∀ t0, is_Some (textures (gpgpu st) !! t0) →
         is_Some (textures (gpgpu st') !! t0)) ∧
  (pool_ok st → is_Some (textures (gpgpu st') !! t)).
Proof.
  unfold acquireTexture, createMatrixTexture. intros Ha.
  destruct (managerDisposed (textureManager st)) eqn:Hdis; [done|].
  destruct (takeFree _ _) as [[t0 rest]|] eqn:Htf; simplify_eq/=.
  - apply takeFree_Some in Htf as [Hin Hsub].
    repeat split; try done.
    intros Hpool. destruct (Hpool Hdis) as [Hfree _]. by eapply Hfree.
  - repeat split; try done.
    + intros t0 Ht0. destruct (decide (nextTexture (gpgpu st) = t0)) as [->|Hne].
      * rewrite lookup_insert_eq. eauto.
      * by rewrite lookup_insert_ne.
    + intros _. rewrite lookup_insert_eq. eauto.
Qed.

Lemma resident_ok_register dataId s d : preserves resident_ok (register dataId s d).
Proof.
  intros st [[Hdel Hex] Hpool]. unfold register.
  destruct (texData st !! dataId) as [d0|] eqn:Hd; simpl; [done|].
  split; [split; [done|]|].
  - intros i di. simpl. destruct (decide (dataId = i)) as [->|Hne].
    + rewrite lookup_insert_eq. intros [= <-]. by left.
    + rewrite lookup_insert_ne by done. apply Hex.
  - intros Hdis. destruct (Hpool Hdis) as [Hfree Hrec]. split; [done|].
    intros i di t. simpl. destruct (decide (dataId = i)) as [->|Hne].
    + rewrite lookup_insert_eq. by intros [= <-].
    + rewrite lookup_insert_ne by done. apply Hrec.
Qed.

Lemma resident_ok_nextDataId n : preserves resident_ok (modify (with_nextDataId n)).
Proof. by intros st [[Hdel Hex] Hpool]. Qed.

(** Replacing one record by another that is exclusive and holds no new
    texture keeps the invariant. *)
Lemma resident_ok_update st dataId d d' :
  resident_ok st → texData st !! dataId = Some d →
  exclusive d' → (∀ t, texture d' = Some t → texture d = Some t) →
  resident_ok (with_texData (<[dataId := d']> (texData st)) st).
Proof.
  intros [[Hdel Hex] Hpool] Hd Hexd Htex.
  split; [split; [done|]|].
  - intros i di. simpl. destruct (decide (dataId = i)) as [->|Hne].
    + rewrite lookup_insert_eq. by intros [= <-].
    + rewrite lookup_insert_ne by done. apply Hex.
  - intros Hdis. destruct (Hpool Hdis) as [Hfree Hrec]. split; [done|].
    intros i di t. simpl. destruct (decide (dataId = i)) as [->|Hne].
    + rewrite lookup_insert_eq. intros [= <-] Ht. eapply Hrec; eauto.
    + rewrite lookup_insert_ne by done. apply Hrec.
Qed.

Lemma resident_ok_texType dataId k :
  preserves resident_ok (updateTexData dataId (with_texType k)).
Proof.
  intros st Hst. unfold updateTexData.
  destruct (texData st !! dataId) as [d|] eqn:Hd; simpl; [|done].
  apply (resident_ok_update st dataId d); try done.
  destruct Hst as [[_ Hex] _]. apply (Hex _ _ Hd).
Qed.

(** Releasing the texture of a record and detaching it. *)
Lemma resident_ok_release st dataId d t d' :
  resident_ok st → texData st !! dataId = Some d → texture d = Some t →
  texture d' = None →
  resident_ok
    (with_texData (<[dataId := d']> (texData st))
       (releaseTexture t (texShape d) (texType d) st).2).
Proof.
  intros [[Hdel Hex] Hpool] Hd Ht Ht'.
  split; [split; [done|]|].
  - intros i di. simpl. destruct (decide (dataId = i)) as [->|Hne].
    + rewrite lookup_insert_eq. intros [= <-]. by right.
    + rewrite lookup_insert_ne by done. apply Hex.
  - intros Hdis. simpl in Hdis. destruct (Hpool Hdis) as [Hfree Hrec]. split.
    + intros s k t0. simpl. rewrite elem_of_app, list_elem_of_singleton.
      intros [Hin|[= -> -> ->]]; [by eapply Hfree | by eapply Hrec].
    + intros i di t0. simpl. destruct (decide (dataId = i)) as [->|Hne].
      * rewrite lookup_insert_eq. intros [= <-]. by rewrite Ht'.
      * rewrite lookup_insert_ne by done. apply Hrec.
Qed.

Lemma uploadToGPU_fresh_unfold st dataId d :
  texData st !! dataId = Some d → texture d = None →
  uploadToGPU dataId st =
    let ts := getTextureShapeFromLogicalShape (shape d) in
    let st0 := with_texData (<[dataId := with_texShape (Some ts) d]> (texData st)) st in
    match acquireTexture ts (texType d) st0 with
    | (Throw e, st1) => (Throw e, st1)
    | (Ok t, st1) =>
        match texData st1 !! dataId with
        | None => (Throw TypeError, st1)
        | Some d1 =>
            let st2 := with_texData (<[dataId := with_texture (Some t) d1]> (texData st1)) st1 in
            match values d with
            | None => (Ok tt, st2)
            | Some v =>
                match uploadMatrixToTexture t ts.1 ts.2
                        (typedArrayToFloat32 v (dtype d)) st2 with
                | (Throw e, st3) => (Throw e, st3)
                | (Ok _, st3) => updateTexData dataId (with_values None) st3
                end
            end
        end
    end.
Proof.
  intros Hd Ht. unfold uploadToGPU. unfold_monad.
  rewrite Hd. simpl. rewrite Hd. simpl. rewrite Ht, Hd.
  cbv zeta. simpl. rewrite ?Ht.
  destruct (acquireTexture _ _ _) as [[t|e] st1]; [|done].
  destruct (texData st1 !! dataId) as [d1|]; [|done].
  destruct (values d) as [v|]; [|done].
  by destruct (uploadMatrixToTexture _ _ _ _ _) as [[[]|e] st3].
Qed.

(** A record that holds a texture and no values, put in place of the record
    of [dataId], in a device context [g] where the texture is allocated. *)
Lemma resident_ok_attached st dataId d t g :
  delayedStorage st = true →
  (∀ i di, i ≠ dataId → texData st !! i = Some di → exclusive di) →
  (managerDisposed (textureManager st) = false →
     (∀ s k t0, (s, k, t0) ∈ freeTextures (textureManager st) →
        is_Some (textures g !! t0)) ∧
     (∀ i di t0, i ≠ dataId → texData st !! i = Some di →
        texture di = Some t0 → is_Some (textures g !! t0)) ∧
     is_Some (textures g !! t)) →
  values d = None → texture d = Some t →
  resident_ok (with_gpgpu g (with_texData (<[dataId := d]> (texData st)) st)).
Proof.
  intros Hdel Hex Hpool Hv Ht. split; [split; [done|]|].
  - intros i di. simpl. destruct (decide (dataId = i)) as [->|Hne].
    + rewrite lookup_insert_eq. intros [= <-]. by left.
    + rewrite lookup_insert_ne by done. by apply Hex.
  - intros Hdis. simpl in Hdis. destruct (Hpool Hdis) as (Hfree & Hrec & Halloc).
    split; [done|]. intros i di t0. simpl.
    destruct (decide (dataId = i)) as [->|Hne].
    + rewrite lookup_insert_eq. intros [= <-]. rewrite Ht. by intros [= <-].
    + rewrite lookup_insert_ne by done. by apply Hrec.
Qed.

Lemma resident_ok_uploadToGPU dataId : preserves resident_ok (uploadToGPU dataId).
Proof.
  intros st Hst.
  destruct (texData st !! dataId) as [d|] eqn:Hd.
  2:{ by rewrite uploadToGPU_unregistered. }
  destruct (texture d) as [t|] eqn:Ht.
  { by rewrite (uploadToGPU_resident _ _ d t). }
  rewrite (uploadToGPU_fresh_unfold _ _ d) by done. cbv zeta.
  set (ts := getTextureShapeFromLogicalShape (shape d)).
  set (d0 := with_texShape (Some ts) d).
  set (st0 := with_texData (<[dataId := d0]> (texData st)) st).
  assert (Hst0 : resident_ok st0).
  { apply (resident_ok_update st dataId d); [done|done| |].
    - by right.
    - simpl. by rewrite Ht. }
  destruct (acquireTexture ts (texType d) st0) as [[t|e] st1] eqn:Hacq.
  2:{ apply acquireTexture_Throw in Hacq as ->. done. }
  apply acquireTexture_Ok in Hacq
    as (Htd & Hdel & Hdis1 & Hdis0 & Hfree & Hmono & Halloc).
  specialize (Halloc (proj2 Hst0)).
  assert (Hd1 : texData st1 !! dataId = Some d0).
  { rewrite Htd. subst st0. simpl. apply lookup_insert_eq. }
  rewrite Hd1.
  destruct Hst0 as [[Hdel0 Hex0] Hpool0].
  destruct (Hpool0 Hdis0) as [Hfree0 Hrec0].
  assert (Hex1 : ∀ i di, i ≠ dataId → texData st1 !! i = Some di → exclusive di).
  { intros i di _. rewrite Htd. apply Hex0. }
  assert (Hpool1 : ∀ g, (∀ t0, is_Some (textures (gpgpu st1) !! t0) →
                               is_Some (textures g !! t0)) →
            managerDisposed (textureManager st1) = false →
            (∀ s k t0, (s, k, t0) ∈ freeTextures (textureManager st1) →
               is_Some (textures g !! t0)) ∧
            (∀ i di t0, i ≠ dataId → texData st1 !! i = Some di →
               texture di = Some t0 → is_Some (textures g !! t0)) ∧
            is_Some (textures g !! t)).
  { intros g Hg _. split; [|split].
    - intros s k t0 Hin. apply Hg, Hmono. eapply Hfree0. by apply Hfree.
    - intros i di t0 _. rewrite Htd. intros Hi Hti. apply Hg, Hmono. eauto.
    - by apply Hg. }
  destruct (values d) as [v|] eqn:Hv.
  - unfold uploadMatrixToTexture. simpl.
    destruct Halloc as [old Hold]. rewrite Hold. simpl.
    unfold updateTexData. simpl. rewrite lookup_insert_eq. simpl.
    rewrite insert_insert_eq.
    apply (resident_ok_attached st1 dataId _ t
             (mkGPGPU (<[t := typedArrayToFloat32 v (dtype d)]> (textures (gpgpu st1)))
                (nextTexture (gpgpu st1)) (programs (gpgpu st1))
                (nextProgram (gpgpu st1)) (gpgpuDisposed (gpgpu st1))));
      [by rewrite Hdel|done| |done|done].
    apply Hpool1. intros t0 Ht0. simpl.
    destruct (decide (t = t0)) as [->|Hne].
    + rewrite lookup_insert_eq. eauto.
    + by rewrite lookup_insert_ne.
  - simpl.
    assert (Heq : ∀ s : MathBackendWebGL, with_gpgpu (gpgpu s) s = s)
      by (by intros []).
    rewrite <- (Heq st1) at 1.
    apply (resident_ok_attached st1 dataId _ t (gpgpu st1));
      [by rewrite Hdel|done| |by simpl; rewrite Hv|done].
    by apply Hpool1.
Qed.

Lemma resident_ok_cacheOnCPU dataId v : preserves resident_ok (cacheOnCPU dataId v).
Proof.
  intros st Hst. pose proof Hst as [[Hdel Hex] Hpool].
  unfold cacheOnCPU. unfold_monad. unfold_device. unfold_monad.
  rewrite Hdel.
  destruct (texData st !! dataId) as [d|] eqn:Hd; simpl; [|done].
  destruct (texture d) as [t|] eqn:Ht; simpl.
  - rewrite Hd. simpl. rewrite lookup_insert_eq. simpl.
    destruct v as [a|]; simpl.
    + rewrite lookup_insert_eq. simpl. rewrite !insert_insert_eq.
      by apply (resident_ok_release st dataId d t).
    + rewrite !insert_insert_eq.
      by apply (resident_ok_release st dataId d t).
  - destruct v as [a|]; simpl; [|done].
    rewrite Hd. simpl.
    apply (resident_ok_update st dataId d); [done|done| |].
    + right. simpl. done.
    + simpl. by rewrite Ht.
Qed.

Lemma resident_ok_write dataId v : preserves resident_ok (write dataId v).
Proof.
  intros st Hst. pose proof Hst as [[Hdel Hex] Hpool].
  destruct v as [v|]; [|done].
  destruct (texData st !! dataId) as [d|] eqn:Hd.
  2:{ by rewrite write_unregistered. }
  rewrite (write_delayed _ _ d) by done. simpl. unfold hostWritten.
  destruct (texture d) as [t|] eqn:Ht.
  - by apply (resident_ok_release st dataId d t).
  - apply (resident_ok_update st dataId d); [done|done|by right|done].
Qed.

Lemma resident_ok_disposeData dataId : preserves resident_ok (disposeData dataId).
Proof.
  intros st Hst. pose proof Hst as [[Hdel Hex] Hpool].
  destruct (texData st !! dataId) as [d|] eqn:Hd.
  2:{ by rewrite disposeData_unregistered. }
  rewrite (disposeData_registered _ _ d) by done. simpl.
  assert (Hdel_lookup : ∀ i di, delete dataId (texData st) !! i = Some di →
                                texData st !! i = Some di).
  { intros i di. destruct (decide (dataId = i)) as [->|Hne].
    - by rewrite lookup_delete_eq.
    - by rewrite lookup_delete_ne. }
  destruct (texture d) as [t|] eqn:Ht; simpl.
  - split; [split; [done|]|].
    + intros i di Hi. simpl in Hi. eapply Hex; eauto.
    + intros Hdis. simpl in Hdis. destruct (Hpool Hdis) as [Hfree Hrec]. split.
      * intros s k t0. simpl. rewrite elem_of_app, list_elem_of_singleton.
        intros [Hin|[= -> -> ->]]; [by eapply Hfree | by eapply Hrec].
      * intros i di t0 Hi. simpl in Hi. eapply Hrec; eauto.
  - split; [split; [done|]|].
    + intros i di Hi. simpl in Hi. eapply Hex; eauto.
    + intros Hdis. simpl in Hdis. destruct (Hpool Hdis) as [Hfree Hrec].
      split; [done|].
      intros i di t0 Hi. simpl in Hi. eapply Hrec; eauto.
Qed.

(** A change of the device context that frees no region, and any change of
    the program cache, keep the invariant. *)
Lemma resident_ok_device st g c ks :
  resident_ok st →
  (∀ t0, is_Some (textures (gpgpu st) !! t0) → is_Some (textures g !! t0)) →
  resident_ok (with_binaryCache c ks (with_gpgpu g st)).
Proof.
  intros [[Hdel Hex] Hpool] Hg. split; [done|].
  intros Hdis. simpl in Hdis. destruct (Hpool Hdis) as [Hfree Hrec]. split.
  - intros s k t0 Hin. apply Hg. by eapply Hfree.
  - intros i di t0 Hi Ht. apply Hg. by eapply Hrec.
Qed.

Lemma is_Some_insert_mono (m : gmap nat TypedArray) t v t0 :
  is_Some (m !! t0) → is_Some (<[t := v]> m !! t0).
Proof.
  intros Hs. destruct (decide (t = t0)) as [->|Hne].
  - rewrite lookup_insert_eq. eauto.
  - by rewrite lookup_insert_ne.
Qed.

Lemma resident_ok_upload t r c data :
  preserves resident_ok (uploadMatrixToTexture t r c data).
Proof.
  intros st Hst. unfold uploadMatrixToTexture.
  destruct (textures (gpgpu st) !! t) as [old|] eqn:Ht; simpl; [|done].
  apply (resident_ok_device st _ (binaryCache st) (compiledKeys st) Hst).
  intros t0. apply is_Some_insert_mono.
Qed.

Lemma resident_ok_compile prog ins out :
  preserves resident_ok
    (getAndSaveBinary (makeShaderKey prog ins out) (compileProgram prog ins out)).
Proof.
  intros st Hst. unfold getAndSaveBinary, compileProgram.
  destruct (binaryCache st !! _); simpl; [done|].
  by apply (resident_ok_device st).
Qed.

Lemma resident_ok_runProgram b ins out :
  preserves resident_ok (runProgram b ins out).
Proof.
  intros st Hst. unfold runProgram.
  destruct (texture out.2) as [t|]; simpl; [|done].
  apply (resident_ok_device st _ (binaryCache st) (compiledKeys st) Hst).
  intros t0. apply is_Some_insert_mono.
Qed.

Lemma resident_ok_dispose st : resident_ok st → resident_ok (dispose st).
Proof.
  intros Hst. destruct (disposed st) eqn:Hd.
  { unfold dispose. by rewrite Hd. }
  rewrite dispose_unfold by done. destruct Hst as [[Hdel Hex] Hpool].
  unfold textureManager_dispose. simpl.
  destruct (gpgpuCreatedLocally st); (split; [done|]); by intros Hdis.
Qed.

Lemma resident_ok_closed : Closed resident_ok.
Proof.
  constructor.
  - apply resident_ok_register.
  - apply resident_ok_nextDataId.
  - apply resident_ok_texType.
  - apply resident_ok_uploadToGPU.
  - apply resident_ok_cacheOnCPU.
  - apply resident_ok_write.
  - apply resident_ok_disposeData.
  - apply resident_ok_upload.
  - apply resident_ok_compile.
  - apply resident_ok_runProgram.
Qed.

Lemma constructor_resident_ok g doc n st :
  constructor g true doc n = Some st → resident_ok st.
Proof.
  unfold constructor. destruct (WEBGL_VERSION <? 1); [done|].
  destruct g as [c|]; intros [= <-].
  - split; [split; [done|]|].
    + intros i di. simpl. by rewrite lookup_empty.
    + intros _. split.
      * intros s k t. simpl. by rewrite elem_of_nil.
      * intros i di t. simpl. by rewrite lookup_empty.
  - split; [split; [done|]|].
    + intros i di. simpl. by rewrite lookup_empty.
    + intros _. split.
      * intros s k t. simpl. by rewrite elem_of_nil.
      * intros i di t. simpl. by rewrite lookup_empty.
Qed.

(** C9.  Under delayed storage, no sequence of calls on the backend ever
    leaves a record holding host values and a device texture at once:
    the invariant holds of every state reached from one where it holds
    (with the pool and the attached blocks allocated on the device), and
    it holds of a newly constructed backend. *)
Theorem residency_exclusive st ops :
  residency_inv st → pool_ok st →
  residency_inv (run ops st) ∧
  ∀ dataId d, texData (run ops st) !! dataId = Some d →
    ¬ (is_Some (values d) ∧ is_Some (texture d)).
Proof.
  intros Hinv Hpool.
  assert (Hrun : resident_ok (run ops st)).
  { apply (run_preserves resident_ok resident_ok_closed).
    - intros st' Hst' _. by apply resident_ok_dispose.
    - by split. }
  destruct Hrun as [Hres _]. split; [done|].
  intros dataId d Hd [[v Hv] [t Ht]].
  destruct Hres as [_ Hex]. destruct (Hex _ _ Hd) as [Hn|Hn]; congruence.
Qed.

Lemma residency_exclusive_constructed g doc n st ops :
  constructor g true doc n = Some st → residency_inv (run ops st).
Proof.
  intros Hc. destruct (constructor_resident_ok _ _ _ _ Hc) as [Hinv Hpool].
  by apply residency_exclusive.
Qed.

(** *** The program cache *)

Lemma keepsCache_ret {A} (a : A) : keepsCache (ret a).
Proof. by intros st. Qed.

Lemma keepsCache_throw {A} e : keepsCache (@throw A e).
Proof. by intros st. Qed.

Lemma keepsCache_get : keepsCache get.
Proof. by intros st. Qed.

Lemma keepsCache_bind {A B} (m : M A) (k : A → M B) :
  keepsCache m → (∀ a, keepsCache (k a)) → keepsCache (bind m k).
Proof.
  intros Hm Hk st. unfold bind. specialize (Hm st).
  destruct (m st) as [[a|e] st1]; simpl in *; [|done].
  by rewrite Hk.
Qed.

Lemma keepsCache_throwIfNoData dataId : keepsCache (throwIfNoData dataId).
Proof. intros st. unfold throwIfNoData. by destruct (texData st !! dataId). Qed.

Lemma keepsCache_readTexData dataId : keepsCache (readTexData dataId).
Proof. intros st. unfold readTexData. by destruct (texData st !! dataId). Qed.

Lemma keepsCache_updateTexData dataId f : keepsCache (updateTexData dataId f).
Proof. intros st. unfold updateTexData. by destruct (texData st !! dataId). Qed.

Lemma keepsCache_register dataId s d : keepsCache (register dataId s d).
Proof. intros st. unfold register. by destruct (texData st !! dataId). Qed.

Lemma keepsCache_acquireTexture s k : keepsCache (acquireTexture s k).
Proof.
  intros st. unfold acquireTexture, createMatrixTexture.
  destruct (managerDisposed (textureManager st)); [done|].
  by destruct (takeFree _ _) as [[t rest]|].
Qed.

Lemma keepsCache_releaseTexture t s k : keepsCache (releaseTexture t s k).
Proof. by intros st. Qed.

Lemma keepsCache_upload t r c data : keepsCache (uploadMatrixToTexture t r c data).
Proof.
  intros st. unfold uploadMatrixToTexture.
  by destruct (textures (gpgpu st) !! t).
Qed.

Lemma keepsCache_runProgram b ins out : keepsCache (runProgram b ins out).
Proof. intros st. unfold runProgram. by destruct (texture out.2). Qed.

Ltac keeps :=
  repeat first
    [ apply keepsCache_ret | apply keepsCache_throw | apply keepsCache_get
    | apply keepsCache_throwIfNoData | apply keepsCache_readTexData
    | apply keepsCache_updateTexData | apply keepsCache_register
    | apply keepsCache_acquireTexture | apply keepsCache_releaseTexture
    | apply keepsCache_upload | apply keepsCache_runProgram
    | apply keepsCache_bind; [|intros ?]
    | progress case_match ].

Lemma keepsCache_uploadToGPU dataId : keepsCache (uploadToGPU dataId).
Proof. unfold uploadToGPU. keeps. Qed.

Lemma keepsCache_cacheOnCPU dataId v : keepsCache (cacheOnCPU dataId v).
Proof. unfold cacheOnCPU. keeps. Qed.

Lemma keepsCache_write dataId v : keepsCache (write dataId v).
Proof.
  unfold write. destruct v as [v|]; [|keeps].
  do 4 (apply keepsCache_bind; [keeps|intros ?]).
  apply keepsCache_bind; [keeps|]. intros st0.
  destruct (delayedStorage st0); [keeps|apply keepsCache_uploadToGPU].
Qed.

Lemma keepsCache_disposeData dataId : keepsCache (disposeData dataId).
Proof.
  unfold disposeData. apply keepsCache_bind; [keeps|]. intros st0.
  destruct (texData st0 !! dataId) as [d|]; [|keeps].
  apply keepsCache_bind; [keeps|]. intros _. by intros st.
Qed.

Section CacheProperty.

(** A property of the cache view that survives one compilation is kept by
    everything the methods are composed of. *)
Variable R : gmap string GPGPUBinary * list string * gset WebGLProgram → Prop.
Hypothesis R_compile : ∀ prog ins out,
  preserves (λ st, R (cacheView st))
    (getAndSaveBinary (makeShaderKey prog ins out) (compileProgram prog ins out)).

Lemma keepsCache_preserves {A} (m : M A) :
  keepsCache m → preserves (λ st, R (cacheView st)) m.
Proof. intros Hm st HR. by rewrite Hm. Qed.

Lemma cacheProperty_closed : Closed (λ st, R (cacheView st)).
Proof.
  constructor; intros.
  - apply keepsCache_preserves, keepsCache_register.
  - apply keepsCache_preserves. by intros st.
  - apply keepsCache_preserves, keepsCache_updateTexData.
  - apply keepsCache_preserves, keepsCache_uploadToGPU.
  - apply keepsCache_preserves, keepsCache_cacheOnCPU.
  - apply keepsCache_preserves, keepsCache_write.
  - apply keepsCache_preserves, keepsCache_disposeData.
  - apply keepsCache_preserves, keepsCache_upload.
  - apply R_compile.
  - apply keepsCache_preserves, keepsCache_runProgram.
Qed.

End CacheProperty.

Lemma dispose_cache st :
  binaryCache (dispose st) = binaryCache st ∧
  compiledKeys (dispose st) = compiledKeys st.
Proof.
  destruct (disposed st) eqn:Hd.
  { unfold dispose. by rewrite Hd. }
  rewrite dispose_unfold by done. unfold textureManager_dispose. simpl.
  by destruct (gpgpuCreatedLocally st).
Qed.

Section CacheOnly.

(** Properties of the cache and the log alone. *)
Variable Q : gmap string GPGPUBinary → list string → Prop.
Hypothesis Q_insert : ∀ c ks key b,
  Q c ks → c !! key = None → Q (<[key := b]> c) (key :: ks).

Lemma cacheOnly_getAndSaveBinary key getBinary :
  preserves (cacheOnly Q) (getAndSaveBinary key getBinary).
Proof.
  intros st HQ. unfold getAndSaveBinary.
  destruct (binaryCache st !! key) as [b|] eqn:Hk; [done|].
  destruct (getBinary (gpgpu st)) as [b g]. simpl.
  by apply Q_insert.
Qed.

Lemma cacheOnly_stepCall c st : cacheOnly Q st → cacheOnly Q (stepCall c st).
Proof.
  intros HQ. destruct c as [o|key getBinary]; simpl.
  - pose (R := λ v : gmap string GPGPUBinary * list string * gset WebGLProgram,
                 Q v.1.1 v.1.2).
    change (R (cacheView (step o st))).
    apply (step_preserves (λ st, R (cacheView st))).
    + apply (cacheProperty_closed R). intros prog ins out.
      apply cacheOnly_getAndSaveBinary.
    + intros _. unfold R, cacheView. simpl. unfold cacheOnly in HQ.
      by destruct (dispose_cache st) as [-> ->].
    + done.
  - by apply cacheOnly_getAndSaveBinary.
Qed.

Lemma cacheOnly_runCalls cs st : cacheOnly Q st → cacheOnly Q (runCalls cs st).
Proof.
  revert st. induction cs as [|c cs IH]; intros st HQ; [done|].
  simpl. apply IH. by apply cacheOnly_stepCall.
Qed.

End CacheOnly.

Lemma cached_persists k b cs st :
  binaryCache st !! k = Some b → binaryCache (runCalls cs st) !! k = Some b.
Proof.
  apply (cacheOnly_runCalls (λ c _, c !! k = Some b)).
  intros c ks key b' Hc Hkey. rewrite lookup_insert_ne; [done|].
  intros ->. congruence.
Qed.

Lemma cache_inv_runCalls cs st : cache_inv st → cache_inv (runCalls cs st).
Proof.
  apply (cacheOnly_runCalls
           (λ c ks, NoDup ks ∧ ∀ k, k ∈ ks → is_Some (c !! k))).
  intros c ks key b [Hnd Hin] Hkey. split.
  - apply NoDup_cons. split; [|done]. intros Hk.
    destruct (Hin _ Hk) as [b' Hb']. congruence.
  - intros k Hk. destruct (decide (key = k)) as [->|Hne].
    + rewrite lookup_insert_eq. eauto.
    + rewrite lookup_insert_ne by done. apply Hin.
      apply elem_of_cons in Hk as [->|Hk]; done.
Qed.

Lemma cache_live_compile prog ins out :
  preserves cache_live
    (getAndSaveBinary (makeShaderKey prog ins out) (compileProgram prog ins out)).
Proof.
  intros st Hlive. unfold getAndSaveBinary, compileProgram.
  destruct (binaryCache st !! _) as [b|] eqn:Hk; [done|]. simpl.
  intros k b. simpl. destruct (decide (makeShaderKey prog ins out = k)) as [->|Hne].
  - rewrite lookup_insert_eq. intros [= <-]. simpl. set_solver.
  - rewrite lookup_insert_ne by done. intros Hb.
    specialize (Hlive _ _ Hb). set_solver.
Qed.

Lemma cache_live_run ops st :
  ¬ In Dispose ops → cache_live st → cache_live (run ops st).
Proof.
  intros Hnd Hlive.
  pose (R := λ v : gmap string GPGPUBinary * list string * gset WebGLProgram,
               ∀ k b, v.1.1 !! k = Some b → webGLProgram b ∈ v.2).
  change (R (cacheView (run ops st))).
  apply (run_preserves (λ st, R (cacheView st))).
  - apply (cacheProperty_closed R).
    intros prog ins out. apply cache_live_compile.
  - intros st' _ Hin. done.
  - done.
Qed.

Lemma getAndSaveBinary_hit st key b getBinary :
  binaryCache st !! key = Some b →
  getAndSaveBinary key getBinary st = (Ok b, st).
Proof. intros Hk. unfold getAndSaveBinary. by rewrite Hk. Qed.

Lemma getAndSaveBinary_returns st key getBinary :
  ∃ b, (getAndSaveBinary key getBinary st).1 = Ok b ∧
       binaryCache (getAndSaveBinary key getBinary st).2 !! key = Some b.
Proof.
  unfold getAndSaveBinary.
  destruct (binaryCache st !! key) as [b|] eqn:Hk; [by exists b|].
  destruct (getBinary (gpgpu st)) as [b g]. exists b. simpl.
  split; [done|]. apply lookup_insert_eq.
Qed.


(** *** Output encodings of the binary methods *)

Lemma makeOutputArray_Ok s d st r st' :
  makeOutputArray s d st = (Ok r, st') →
  r = NDArray.make_handle (nextDataId st) s d.
Proof.
  unfold makeOutputArray, register. unfold_monad. simpl.
  destruct (texData st !! nextDataId st); simpl; [done|]. by intros [= <- _].
Qed.

Lemma bind_Ok_inv {A B} (m : M A) (k : A → M B) st r st' :
  bind m k st = (Ok r, st') →
  ∃ a st1, m st = (Ok a, st1) ∧ k a st1 = (Ok r, st').
Proof.
  unfold bind. destruct (m st) as [[a|e] st1]; [|done]. eauto.
Qed.

Lemma compileAndRun_Ok_output prog inputs out st r st' :
  compileAndRun prog inputs (Some out) st = (Ok r, st') → r = out.
Proof.
  unfold compileAndRun. intros Hc.
  repeat (apply bind_Ok_inv in Hc as (? & ? & ? & Hc)).
  unfold ret in *. by simplify_eq.
Qed.

Lemma compileAndRun_Ok_default prog inputs st r st' :
  compileAndRun prog inputs None st = (Ok r, st') →
  ∃ i0 rest, inputs = i0 :: rest ∧ NDArray.dtype r = NDArray.dtype i0 ∧
             NDArray.shape r = outputShape prog.
Proof.
  unfold compileAndRun. intros Hc.
  apply bind_Ok_inv in Hc as (out & st1 & Hout & Hc).
  destruct inputs as [|i0 rest]; [done|].
  apply makeOutputArray_Ok in Hout.
  repeat (apply bind_Ok_inv in Hc as (? & ? & ? & Hc)).
  unfold ret in *. simplify_eq. by exists i0, rest.
Qed.

Lemma binaryWithOutput_Ok op outType a b st r st' :
  binaryWithOutput op outType a b st = (Ok r, st') →
  NDArray.dtype r = outType.
Proof.
  unfold binaryWithOutput. intros Hc.
  apply bind_Ok_inv in Hc as (prog & st1 & _ & Hc).
  apply bind_Ok_inv in Hc as (out & st2 & Hout & Hc).
  apply makeOutputArray_Ok in Hout. apply compileAndRun_Ok_output in Hc.
  by subst.
Qed.

Lemma binaryDefault_Ok op a b st r st' :
  binaryDefault op a b st = (Ok r, st') →
  NDArray.dtype r = NDArray.dtype a.
Proof.
  unfold binaryDefault. intros Hc.
  apply bind_Ok_inv in Hc as (prog & st1 & _ & Hc).
  apply compileAndRun_Ok_default in Hc as (i0 & rest & [= <- <-] & Hd & _).
  done.
Qed.

(** C6, as the code has it.  When a binary method returns, the encoding of
    its output is: boolean for the comparison and logical methods; the
    upcast of the operand encodings for [add], [subtract], [multiply] and
    [pow]; float32 for [divide], whatever the operands; and the encoding
    of the first operand for [minimum] and [maximum]. *)
Theorem binary_output_encoding m a b st r st' :
  callBinary m a b st = (Ok r, st') →
  NDArray.dtype r =
    match m with
    | Equal | NotEqual | Less | LessEqual | Greater | GreaterEqual
    | LogicalAnd | LogicalOr => bool_
    | Add | Subtract | Multiply | Pow =>
        upcastType (NDArray.dtype a) (NDArray.dtype b)
    | Divide => float32
    | Minimum | Maximum => NDArray.dtype a
    end.
Proof.
  destruct m; simpl; intros Hc;
    first [ by apply binaryWithOutput_Ok in Hc
          | by apply binaryDefault_Ok in Hc ].
Qed.

(** The upcast table yields the wider kind, in either order. *)
Lemma upcastType_wider a b :
  upcastType a b = upcastType b a ∧ upcastType a a = a ∧
  upcastType float32 b = float32 ∧ upcastType int32 bool_ = int32.
Proof. by destruct a, b. Qed.

End BackendProofs.

(** ** The backend on concrete inputs *)

Section BackendExamples.
Import Examples.
Local Open Scope string_scope.




Lemma uploadToGPU_twice_witness :
  texData hosted !! 0 = Some record0 ∧
  (uploadToGPU 0 hosted).1 = Ok tt ∧
  uploadToGPU 0 (uploadToGPU 0 hosted).2 = (Ok tt, (uploadToGPU 0 hosted).2).
Proof.
  assert (Hd : texData hosted !! 0 = Some record0) by reflexivity.
  assert (Hok : (uploadToGPU 0 hosted).1 = Ok tt) by reflexivity.
  split; [exact Hd|]. split; [exact Hok|].
  exact (proj1 (proj2 (proj2 (uploadToGPU_twice hosted 0 record0 Hd))) Hok).
Defined.

(** C6 as stated fails for [divide] and for [minimum] and [maximum]: on an
    int32 and a float32 operand [minimum] yields int32 while the upcast is
    float32, and on two int32 operands [divide] yields float32 while the
    upcast is int32. *)
Lemma binary_upcast_counterexample :
  (NDArray.dtype <$> returned (callBinary Minimum i0 f1 mixed)) = Some int32 ∧
  upcastType (NDArray.dtype i0) (NDArray.dtype f1) = float32 ∧
  (NDArray.dtype <$> returned (callBinary Maximum i0 f1 mixed)) = Some int32 ∧
  (NDArray.dtype <$> returned (callBinary Divide i0 i0 mixed)) = Some float32 ∧
  upcastType (NDArray.dtype i0) (NDArray.dtype i0) = int32 ∧
  ¬ (∀ m a b st r st',
       isArithmetic m = true → callBinary m a b st = (Ok r, st') →
       NDArray.dtype r = upcastType (NDArray.dtype a) (NDArray.dtype b)).
Proof.
  split; [reflexivity|]. split; [reflexivity|]. split; [reflexivity|].
  split; [reflexivity|]. split; [reflexivity|].
  intros Hall.
  assert (Hc : callBinary Minimum i0 f1 mixed
               = (Ok (NDArray.make_handle 100 [3] int32),
                  (callBinary Minimum i0 f1 mixed).2))
    by (vm_compute; reflexivity).
  specialize (Hall Minimum i0 f1 mixed _ _ eq_refl Hc).
  discriminate Hall.
Qed.

Lemma binary_output_encoding_witness :
  callBinary Add i0 f1 mixed = (Ok sum100, (callBinary Add i0 f1 mixed).2) ∧
  NDArray.dtype sum100 = float32.
Proof.
  assert (Hc : callBinary Add i0 f1 mixed
               = (Ok sum100, (callBinary Add i0 f1 mixed).2))
    by (vm_compute; reflexivity).
  split; [exact Hc|].
  exact (binary_output_encoding Add i0 f1 mixed sum100 _ Hc).
Defined.

(** C7 as stated fails when delayed storage is off: [write] with values on
    a registered handle returns with the values uploaded, the record
    holding a device texture and no host values. *)
Lemma write_eager_counterexample :
  delayedStorage registeredEager = false ∧
  is_Some (texData registeredEager !! 0) ∧
  (write 0 (Some [1; 2; 3]%Z) registeredEager).1 = Ok tt ∧
  (values <$> texData (write 0 (Some [1; 2; 3]%Z) registeredEager).2 !! 0)
    = Some None ∧
  (texture <$> texData (write 0 (Some [1; 2; 3]%Z) registeredEager).2 !! 0)
    = Some (Some 0).
Proof.
  split; [reflexivity|]. split; [by eexists|].
  split; [reflexivity|]. split; reflexivity.
Qed.

Lemma write_spec_witness :
  texData (run [Register 0 [3] float32] fresh) !! 0 = Some empty0 ∧
  write 0 (Some [1; 2; 3]%Z) (run [Register 0 [3] float32] fresh)
    = (Ok tt, hosted) ∧
  write 0 None hosted = (Throw ValuesNull, hosted).
Proof.
  assert (Hd : texData (run [Register 0 [3] float32] fresh) !! 0 = Some empty0)
    by reflexivity.
  assert (Hd' : texData hosted !! 0 = Some record0) by reflexivity.
  split; [exact Hd|]. split.
  - destruct (write_spec _ 0 empty0 Hd) as [_ Hw].
    destruct (Hw [1; 2; 3]%Z) as (_ & _ & _ & _ & _ & Hdel & _).
    exact (Hdel eq_refl).
  - exact (proj1 (write_spec hosted 0 record0 Hd')).
Defined.

Lemma dispose_idempotent_witness :
  disposed hosted = false ∧
  disposed (dispose hosted) = true ∧
  dispose (dispose hosted) = dispose hosted.
Proof.
  assert (Hd : disposed hosted = false) by reflexivity.
  destruct (dispose_idempotent hosted) as (Hidem & _ & Hfirst).
  split; [exact Hd|]. split; [exact (proj1 (Hfirst Hd))|exact Hidem].
Defined.

Lemma residency_exclusive_witness :
  residency_inv fresh ∧ pool_ok fresh ∧
  residency_inv
    (run [Register 0 [3] float32; Write 0 (Some [1; 2; 3]%Z); GetTexture 0;
          ReadSync 0; Clone a0; DisposeData 0] fresh).
Proof.
  assert (Hinv : residency_inv fresh).
  { split; [reflexivity|]. intros i d Hd. simpl in Hd.
    rewrite lookup_empty in Hd. discriminate Hd. }
  assert (Hpool : pool_ok fresh).
  { intros _. split.
    - intros s k t Hin. simpl in Hin. apply elem_of_nil in Hin. destruct Hin.
    - intros i d t Hd. simpl in Hd. rewrite lookup_empty in Hd. discriminate Hd. }
  split; [exact Hinv|]. split; [exact Hpool|].
  exact (proj1 (residency_exclusive fresh _ Hinv Hpool)).
Defined.

Lemma disposeData_spec_witness :
  texData hosted !! 7 = None ∧
  disposeData 7 hosted = (Ok tt, hosted) ∧
  texData hosted !! 0 = Some record0 ∧
  texData (disposeData 0 hosted).2 !! 0 = None.
Proof.
  assert (Hn : texData hosted !! 7 = None) by reflexivity.
  assert (Hd : texData hosted !! 0 = Some record0) by reflexivity.
  split; [exact Hn|]. split; [exact (proj1 (disposeData_spec hosted 7) Hn)|].
  split; [exact Hd|].
  destruct (proj2 (proj2 (disposeData_spec hosted 0)) record0 Hd)
    as (st' & Heq & Htd & _).
  rewrite Heq. simpl. rewrite Htd. apply lookup_delete_eq.
Defined.

End BackendExamples.

(** * Properties of the multi-pass reductions *)

Section ReductionProofs.
Import Reduction.

Lemma ceilDiv_covers a w : 1 ≤ w → a ≤ ceilDiv a w * w.
Proof.
  intros Hw. unfold ceilDiv.
  pose proof (Nat.div_mod_eq (a + w - 1) w) as Hdm.
  pose proof (Nat.mod_upper_bound (a + w - 1) w) as Hub.
  nia.
Qed.

Lemma ceilDiv_pos a w : 1 ≤ a → 1 ≤ w → 1 ≤ ceilDiv a w.
Proof.
  intros Ha Hw. unfold ceilDiv.
  apply Nat.div_le_lower_bound; lia.
Qed.

Lemma ceilDiv_shrinks a w : 2 ≤ a → 2 ≤ w → ceilDiv a w < a.
Proof.
  intros Ha Hw. unfold ceilDiv.
  apply Nat.Div0.div_lt_upper_bound; nia.
Qed.

Lemma ceilDiv_one w : 1 ≤ w → ceilDiv 1 w = 1.
Proof.
  intros Hw. unfold ceilDiv. replace (1 + w - 1) with w by lia.
  apply Nat.div_same. lia.
Qed.

Lemma rowSum_app l1 l2 : rowSum (l1 ++ l2) = (rowSum l1 + rowSum l2)%Z.
Proof.
  unfold rowSum. induction l1 as [|a l1 IH]; simpl; [done|]. rewrite IH. lia.
Qed.

(** Cutting a list into [n] consecutive windows of [w] elements, the last
    ones possibly short or empty, and adding up the window sums gives the
    sum of the list. *)
Lemma windows_sum w n (l : list Z) :
  length l ≤ n * w →
  rowSum (map (λ k, rowSum (take w (drop (k * w) l))) (seq 0 n)) = rowSum l.
Proof.
  revert l. induction n as [|n IH]; intros l Hlen.
  - destruct l; [done|]. simpl in Hlen. lia.
  - simpl seq. rewrite <- seq_shift. rewrite map_cons, map_map.
    change (rowSum (?a :: ?l)) with (a + rowSum l)%Z.
    simpl Nat.mul at 1. rewrite drop_0.
    transitivity (rowSum (take w l ++ drop w l)); [|by rewrite take_drop].
    rewrite rowSum_app. f_equal.
    rewrite <- (IH (drop w l)) by (rewrite length_drop; lia).
    f_equal. apply map_ext. intros k. rewrite drop_drop. reflexivity.
Qed.

Lemma reduceRow_sum info (row : list Z) :
  1 ≤ windowSize info → length row = inSize info →
  rowSum (map (λ outIdx, reduceWindow rsum (windowOf info row outIdx))
            (seq 0 (ceilDiv (inSize info) (windowSize info))))
  = rowSum row.
Proof.
  intros Hw Hlen. unfold windowOf.
  rewrite firstn_all2 by lia.
  apply windows_sum. rewrite Hlen. by apply ceilDiv_covers.
Qed.

(** One pass of the sum program keeps the shape discipline and every row
    sum. *)
Lemma runReduceProgram_sum w (x : Array2D Z) :
  1 ≤ w → wellShaped x →
  let out := runReduceProgram (mkReduceInfo w (cols x) (rows x)) rsum x in
  wellShaped out ∧ rows out = rows x ∧ cols out = ceilDiv (cols x) w ∧
  map rowSum (data out) = map rowSum (data x).
Proof.
  intros Hw [Hrows Hcols]. unfold runReduceProgram. simpl.
  split; [split|split; [done|split; [done|]]].
  - simpl. by rewrite length_map.
  - simpl. apply Forall_map, Forall_forall. intros row _. simpl.
    by rewrite length_map, length_seq.
  - rewrite map_map. apply map_ext_Forall.
    apply (Forall_impl _ _ _ Hcols). intros row Hlen.
    by apply (reduceRow_sum (mkReduceInfo w (cols x) (rows x))).
Qed.

Section WithWindow.
Variable w : nat → nat.
Hypothesis Hw : progresses w.

Lemma reduce_sum_terminates fuel (x : Array2D Z) :
  wellShaped x → 1 ≤ cols x → cols x ≤ fuel →
  ∃ out, reduce w fuel x rsum = Some out ∧
         wellShaped out ∧ rows out = rows x ∧ cols out = 1 ∧
         map rowSum (data out) = map rowSum (data x).
Proof.
  revert x. induction fuel as [|fuel IH]; intros x Hx Hc Hf; [lia|].
  destruct (Hw (cols x) Hc) as [Hw1 Hw2].
  pose proof (runReduceProgram_sum (w (cols x)) x Hw1 Hx) as Hpass.
  cbv zeta in Hpass.
  set (output := runReduceProgram
                   (mkReduceInfo (w (cols x)) (cols x) (rows x)) rsum x) in *.
  change (reduce w (S fuel) x rsum)
    with (if Nat.eqb (cols output) 1 then Some output
          else reduce w fuel output rsum).
  destruct Hpass as (Hwo & Hro & Hco & Hso).
  destruct (Nat.eqb_spec (cols output) 1) as [Heq|Hne].
  - exists output. done.
  - assert (2 ≤ cols x).
    { destruct (decide (cols x = 1)) as [H1|H1]; [|lia].
      exfalso. apply Hne. rewrite Hco. apply ceilDiv_one in Hw1.
      by rewrite H1 in *. }
    pose proof (ceilDiv_shrinks (cols x) (w (cols x)) H (Hw2 H)).
    pose proof (ceilDiv_pos (cols x) (w (cols x)) Hc Hw1).
    destruct (IH _ Hwo) as (out & Hr & Hwf & Hrs & Hcs & Hss); [lia|lia|].
    exists out. split; [done|]. split; [done|].
    split; [congruence|]. split; [done|congruence].
Qed.

Lemma singleton_rows_concat (rows : list (list Z)) :
  Forall (λ row, length row = 1) rows → concat rows = map rowSum rows.
Proof.
  induction 1 as [|row rows Hrow _ IH]; [done|].
  destruct row as [|v [|? ?]]; try done. simpl. rewrite IH.
  f_equal. unfold rowSum. simpl. lia.
Qed.

End WithWindow.



(** *** Arg-reductions *)

Lemma better_spec rt a b :
  better rt a b = true ↔
  match rt with amax => (b < a)%Z | amin => (a < b)%Z end.
Proof.
  destruct rt; simpl.
  - rewrite Z.gtb_ltb. apply Z.ltb_lt.
  - apply Z.ltb_lt.
Qed.

Lemma better_false rt a b :
  better rt a b = false ↔
  match rt with amax => (a ≤ b)%Z | amin => (b ≤ a)%Z end.
Proof.
  destruct rt; simpl.
  - rewrite Z.gtb_ltb. apply Z.ltb_ge.
  - apply Z.ltb_ge.
Qed.

Lemma dominates_refl rt x c : dominates rt x c c.
Proof. right. done. Qed.

Lemma dominates_trans rt x a b c :
  dominates rt x a b → dominates rt x b c → dominates rt x a c.
Proof.
  unfold dominates. rewrite !better_spec.
  intros [Hab|[Hab Hle]] [Hbc|[Hbc Hle']]; destruct rt; first [left; lia | right; lia].
Qed.

Lemma not_better_dominates rt x b c :
  better rt (val x c) (val x b) = false → b ≤ c → dominates rt x b c.
Proof.
  unfold dominates. rewrite better_false, better_spec. intros Hnb Hle.
  destruct rt.
  - destruct (decide (val x b = val x c)); [right; done | left; lia].
  - destruct (decide (val x b = val x c)); [right; done | left; lia].
Qed.

Lemma sortedIdx_cons c C :
  sortedIdx (c :: C) → (∀ c', c' ∈ C → c ≤ c') ∧ sortedIdx C.
Proof.
  intros Hs. split.
  - intros c' Hin. apply list_elem_of_lookup in Hin as [i Hi].
    by apply (Hs 0 (S i) c c'); [lia| |].
  - intros i j a b Hij Ha Hb. apply (Hs (S i) (S j) a b); [lia|done|done].
Qed.

(** The scan of one window returns one of its candidates, and that
    candidate dominates all the others. *)
Lemma scan_fold rt x rest : ∀ best,
  (∀ c, c ∈ rest → best ≤ c) → sortedIdx rest →
  let r := fold_left (λ bestIndex inIdx,
                        if better rt (nth inIdx x 0%Z) (nth bestIndex x 0%Z)
                        then inIdx else bestIndex) rest best in
  r ∈ best :: rest ∧ dominates rt x r best ∧ ∀ c, c ∈ rest → dominates rt x r c.
Proof.
  induction rest as [|c rest IH]; intros best Hle Hs; simpl.
  - split; [left|]. split; [apply dominates_refl|].
    intros c Hc. by apply elem_of_nil in Hc.
  - apply sortedIdx_cons in Hs as [Hc Hs].
    destruct (better rt (nth c x 0%Z) (nth best x 0%Z)) eqn:Hb.
    + destruct (IH c Hc Hs) as (Hin & Hdc & Hall).
      split; [by right|]. split.
      * apply (dominates_trans _ _ _ c); [done|]. by left.
      * intros c' Hc'. apply elem_of_cons in Hc' as [->|Hc']; [done|by apply Hall].
    + assert (Hle' : ∀ c', c' ∈ rest → best ≤ c').
      { intros c' Hc'. apply Hle. by right. }
      destruct (IH best Hle' Hs) as (Hin & Hdb & Hall).
      split; [|split; [done|]].
      * apply elem_of_cons in Hin as [->|Hin]; [left|right; by right].
      * intros c' Hc'. apply elem_of_cons in Hc' as [->|Hc']; [|by apply Hall].
        apply (dominates_trans _ _ _ best); [done|].
        apply not_better_dominates; [done|]. apply Hle. left.
Qed.

Lemma scanWindow_spec rt x cs :
  cs ≠ [] → sortedIdx cs →
  scanWindow rt x cs ∈ cs ∧ ∀ c, c ∈ cs → dominates rt x (scanWindow rt x cs) c.
Proof.
  intros Hne Hs. destruct cs as [|c0 rest]; [done|].
  apply sortedIdx_cons in Hs as [Hc Hs]. simpl.
  destruct (scan_fold rt x rest c0 Hc Hs) as (Hin & Hd0 & Hall).
  split; [done|]. intros c Hin'.
  apply elem_of_cons in Hin' as [->|Hin']; [done|by apply Hall].
Qed.

Lemma window_lookup w C k i c :
  window w C k !! i = Some c ↔ i < w ∧ C !! (k * w + i) = Some c.
Proof.
  unfold window. split.
  - intros Hl. destruct (decide (i < w)) as [Hi|Hi].
    + rewrite lookup_take_lt in Hl by done. rewrite lookup_drop in Hl. done.
    + rewrite lookup_take_ge in Hl by lia. done.
  - intros [Hi Hl]. rewrite lookup_take_lt by done. by rewrite lookup_drop.
Qed.

Lemma window_sorted w C k : sortedIdx C → sortedIdx (window w C k).
Proof.
  intros Hs i j a b Hij Ha Hb.
  apply window_lookup in Ha as [_ Ha]. apply window_lookup in Hb as [_ Hb].
  apply (Hs (k * w + i) (k * w + j) a b); [lia|done|done].
Qed.

Lemma window_nonempty w C k : 1 ≤ w → k * w < length C → window w C k ≠ [].
Proof.
  intros Hw Hk Hnil.
  destruct (lookup_lt_is_Some_2 C (k * w) Hk) as [c Hc].
  assert (Hl : window w C k !! 0 = Some c).
  { apply window_lookup. split; [lia|]. by rewrite Nat.add_0_r. }
  rewrite Hnil in Hl. done.
Qed.

Lemma length_scanAll rt x w C : length (scanAll rt x w C) = ceilDiv (length C) w.
Proof. unfold scanAll. by rewrite length_map, length_seq. Qed.

Lemma lookup_map {A B} (f : A → B) (l : list A) (i : nat) :
  map f l !! i = f <$> (l !! i).
Proof.
  revert i. induction l as [|a l IH]; intros [|i]; simpl; done.
Qed.

Lemma scanAll_lookup rt x w C k r :
  scanAll rt x w C !! k = Some r ↔
  k < ceilDiv (length C) w ∧ r = scanWindow rt x (window w C k).
Proof.
  unfold scanAll. rewrite lookup_map. split.
  - intros Hl. destruct (seq 0 _ !! k) as [k'|] eqn:Hk; [|done].
    apply lookup_seq in Hk as [-> Hk]. simpl in Hl. by simplify_eq.
  - intros [Hk ->]. by rewrite lookup_seq_lt.
Qed.

Lemma scanAll_RowInv rt x w C :
  1 ≤ w → RowInv rt x C → RowInv rt x (scanAll rt x w C).
Proof.
  intros Hw (Hne & Hrange & Hsorted & Hcover).
  assert (Hlen : 1 ≤ length C) by (destruct C; [done|simpl; lia]).
  pose proof (ceilDiv_covers (length C) w Hw) as Hcov.
  assert (Hwin : ∀ k, k < ceilDiv (length C) w →
            let r := scanWindow rt x (window w C k) in
            (∃ i, i < w ∧ C !! (k * w + i) = Some r) ∧
            ∀ c, c ∈ window w C k → dominates rt x r c).
  { intros k Hk.
    assert (Hkw : k * w < length C).
    { unfold ceilDiv in Hk.
      pose proof (Nat.div_mod_eq (length C + w - 1) w).
      pose proof (Nat.mod_upper_bound (length C + w - 1) w). nia. }
    destruct (scanWindow_spec rt x (window w C k)) as [Hin Hall].
    { by apply window_nonempty. }
    { by apply window_sorted. }
    split; [|done].
    apply list_elem_of_lookup in Hin as [i Hi].
    apply window_lookup in Hi. by exists i. }
  split; [|split; [|split]].
  - intros Hnil. pose proof (length_scanAll rt x w C) as Hl.
    rewrite Hnil in Hl. simpl in Hl.
    pose proof (ceilDiv_pos (length C) w Hlen Hw). lia.
  - intros r Hr. apply list_elem_of_lookup in Hr as [k Hk].
    apply scanAll_lookup in Hk as [Hk ->].
    destruct (Hwin k Hk) as [(i & _ & Hi) _].
    apply Hrange. apply list_elem_of_lookup. eauto.
  - intros k1 k2 r1 r2 Hle H1 H2.
    apply scanAll_lookup in H1 as [Hk1 ->].
    apply scanAll_lookup in H2 as [Hk2 ->].
    destruct (decide (k1 = k2)) as [->|Hne12]; [done|].
    destruct (Hwin k1 Hk1) as [(i1 & Hi1 & Hl1) _].
    destruct (Hwin k2 Hk2) as [(i2 & Hi2 & Hl2) _].
    apply (Hsorted (k1 * w + i1) (k2 * w + i2)); [nia|done|done].
  - intros j Hj. destruct (Hcover j Hj) as (c & Hc & Hdom).
    apply list_elem_of_lookup in Hc as [p Hp].
    assert (Hpn : p < length C) by (by apply lookup_lt_Some in Hp).
    assert (Hk : p / w < ceilDiv (length C) w).
    { apply Nat.Div0.div_lt_upper_bound. lia. }
    destruct (Hwin (p / w) Hk) as [_ Hall].
    exists (scanWindow rt x (window w C (p / w))). split.
    + apply list_elem_of_lookup. exists (p / w). by apply scanAll_lookup.
    + apply (dominates_trans _ _ _ c); [|done]. apply Hall.
      apply list_elem_of_lookup. exists (p mod w). apply window_lookup.
      split; [apply Nat.mod_upper_bound; lia|].
      rewrite (Nat.mul_comm (p / w) w), <- Nat.div_mod_eq. done.
Qed.

Lemma candidates_None n : candidates None n = seq 0 n.
Proof. unfold candidates. simpl. apply map_id. Qed.

Lemma candidates_Some (b : list nat) : candidates (Some b) (length b) = b.
Proof.
  unfold candidates. simpl. apply list_eq. intros i. rewrite lookup_map.
  destruct (decide (i < length b)) as [Hi|Hi].
  - rewrite lookup_seq_lt by done. simpl.
    destruct (lookup_lt_is_Some_2 b i Hi) as [c Hc]. rewrite Hc.
    f_equal. by apply nth_lookup_Some.
  - rewrite lookup_seq_ge by lia. simpl. symmetry. apply lookup_ge_None. lia.
Qed.

Lemma length_candidates brow n : length (candidates brow n) = n.
Proof. unfold candidates. by rewrite length_map, length_seq. Qed.

Lemma runArgMinMaxRow_scanAll info rt x brow :
  runArgMinMaxRow info rt x brow
  = scanAll rt x (windowSize info) (candidates brow (inSize info)).
Proof.
  unfold runArgMinMaxRow, scanAll. rewrite length_candidates.
  apply map_ext. intros k. f_equal. unfold windowOf, window, candidates.
  rewrite (take_ge (seq 0 (inSize info)) (inSize info))
    by (rewrite length_seq; lia).
  by rewrite <- firstn_map, <- skipn_map.
Qed.

Lemma seq_RowInv rt (x : list Z) : 1 ≤ length x → RowInv rt x (seq 0 (length x)).
Proof.
  intros Hlen. split; [|split; [|split]].
  - destruct (length x); [lia|done].
  - intros c Hc. apply elem_of_seq in Hc. lia.
  - intros i j a b Hij Ha Hb.
    apply lookup_seq in Ha as [-> _]. apply lookup_seq in Hb as [-> _]. lia.
  - intros j Hj. exists j. split; [apply elem_of_seq; lia|apply dominates_refl].
Qed.

Lemma RowInv_single rt x r : RowInv rt x [r] → firstExtremum rt x r.
Proof.
  intros (_ & Hrange & _ & Hcover).
  assert (Hdom : ∀ j, j < length x → dominates rt x r j).
  { intros j Hj. destruct (Hcover j Hj) as (c & Hc & Hd).
    apply list_elem_of_singleton in Hc. by subst. }
  split; [apply Hrange; by left|]. split.
  - intros j Hj. apply better_false.
    destruct (Hdom j Hj) as [Hb|[Heq _]].
    + apply better_spec in Hb. unfold val in Hb. destruct rt; lia.
    + unfold val in Heq. destruct rt; lia.
  - intros j Hj.
    assert (Hjx : j < length x).
    { pose proof (Hrange r). assert (r ∈ [r]) by (by left). 
      specialize (H H0). lia. }
    destruct (Hdom j Hjx) as [Hb|[_ Hle]]; [done|lia].
Qed.

Lemma argReduce_step w fuel x rt best :
  argReduce w (S fuel) x rt best =
    let '(batchSize, inSize) :=
      match best with
      | Some b => (rows b, cols b)
      | None => (rows x, cols x)
      end in
    let output :=
      runArgMinMaxProgram (mkReduceInfo (w inSize) inSize batchSize) rt x best in
    if Nat.eqb (cols output) 1 then Some output
    else argReduce w fuel x rt (Some output).
Proof. reflexivity. Qed.

Lemma argPass_spec wn rt (x : Array2D Z) best n :
  1 ≤ wn → 1 ≤ n → wellShaped x → ArgState rt x best n →
  let output := runArgMinMaxProgram (mkReduceInfo wn n (rows x)) rt x best in
  rows output = rows x ∧ cols output = ceilDiv n wn ∧
  length (data output) = rows x ∧
  ArgState rt x (Some output) (ceilDiv n wn) ∧
  (ceilDiv n wn = 1 → Forall2 (argResult rt) (data x) (data output)).
Proof.
  intros Hw Hn [Hrows Hcols] [Hshape Hinv]. unfold runArgMinMaxProgram. simpl.
  assert (Hrow : ∀ b row, data x !! b = Some row →
            nth b (map (λ batch,
                     runArgMinMaxRow (mkReduceInfo wn n (rows x)) rt
                       (nth batch (data x) [])
                       (option_map (λ b0, nth batch (data b0) []) best))
                    (seq 0 (rows x))) []
            = scanAll rt row wn
                (candidates (option_map (λ B, nth b (data B) []) best) n)).
  { intros b row Hb.
    assert (Hlt : b < rows x) by (rewrite <- Hrows; by apply lookup_lt_Some in Hb).
    apply nth_lookup_Some with (d := []) in Hb as Hnth.
    erewrite nth_lookup_Some; [|rewrite lookup_map, lookup_seq_lt by done; done].
    rewrite runArgMinMaxRow_scanAll. simpl. by rewrite Hnth. }
  assert (Hnew : ∀ b row, data x !! b = Some row →
            RowInv rt row
              (scanAll rt row wn
                 (candidates (option_map (λ B, nth b (data B) []) best) n)) ∧
            length (scanAll rt row wn
                 (candidates (option_map (λ B, nth b (data B) []) best) n))
            = ceilDiv n wn).
  { intros b row Hb. split.
    - apply scanAll_RowInv; [done|]. by apply Hinv.
    - by rewrite length_scanAll, length_candidates. }
  split; [done|]. split; [done|]. split.
  { by rewrite length_map, length_seq. }
  split.
  - split; [done|]. intros b row Hb. simpl.
    rewrite (Hrow b row Hb). destruct (Hnew b row Hb) as [HI Hl].
    rewrite <- Hl. by rewrite candidates_Some.
  - intros Hone. apply Forall2_same_length_lookup_2.
    { by rewrite length_map, length_seq. }
    intros b row orow Hb Ho.
    pose proof (Hrow b row Hb) as Hr. destruct (Hnew b row Hb) as [HI Hl].
    apply nth_lookup_Some with (d := []) in Ho. rewrite Ho in Hr. subst orow.
    rewrite Hone in Hl.
    destruct (scanAll rt row wn _) as [|r [|? ?]] eqn:Hs; simpl in Hl; try lia.
    exists r. split; [done|]. by apply RowInv_single.
Qed.

Lemma argReduce_terminates w rt (x : Array2D Z) :
  progresses w → wellShaped x →
  ∀ fuel best n, 1 ≤ n → n ≤ fuel → ArgState rt x best n →
  ∃ out, argReduce w fuel x rt best = Some out ∧
         rows out = rows x ∧ cols out = 1 ∧
         Forall2 (argResult rt) (data x) (data out).
Proof.
  intros Hw Hx. induction fuel as [|fuel IH]; intros best n Hn Hf Hst; [lia|].
  destruct (Hw n Hn) as [Hw1 Hw2].
  pose proof (argPass_spec (w n) rt x best n Hw1 Hn Hx Hst) as Hpass.
  cbv zeta in Hpass.
  rewrite argReduce_step.
  assert (Hshape : match best with
                   | Some b => (rows b, cols b)
                   | None => (rows x, cols x)
                   end = (rows x, n)).
  { destruct Hst as [Hs _]. destruct best as [B|]; [|by subst].
    destruct Hs as [-> ->]. done. }
  rewrite Hshape. cbv zeta.
  set (output := runArgMinMaxProgram (mkReduceInfo (w n) n (rows x)) rt x best) in *.
  destruct Hpass as (Hro & Hco & Hlo & Hnext & Hfin).
  destruct (Nat.eqb_spec (cols output) 1) as [Heq|Hne].
  - exists output. split; [done|]. split; [done|]. split; [done|].
    apply Hfin. congruence.
  - assert (H2 : 2 ≤ n).
    { destruct (decide (n = 1)) as [H1|H1]; [|lia].
      exfalso. apply Hne. rewrite Hco. subst n. by apply ceilDiv_one. }
    pose proof (ceilDiv_shrinks n (w n) H2 (Hw2 H2)).
    pose proof (ceilDiv_pos n (w n) Hn Hw1).
    apply (IH (Some output) (ceilDiv n (w n))); [lia|lia|done].
Qed.

Lemma initial_ArgState rt (x : Array2D Z) :
  wellShaped x → 1 ≤ cols x → ArgState rt x None (cols x).
Proof.
  intros [Hrows Hcols] Hc. split; [done|]. intros b row Hb. simpl.
  rewrite candidates_None.
  assert (Hlen : length row = cols x).
  { rewrite Forall_forall in Hcols. apply Hcols.
    apply list_elem_of_lookup. eauto. }
  rewrite <- Hlen. apply seq_RowInv. lia.
Qed.

Lemma argResult_concat rt (xs : list (list Z)) (os : list (list nat)) :
  Forall2 (argResult rt) xs os →
  Forall2 (firstExtremum rt) xs (concat os).
Proof.
  induction 1 as [|row orow xs os (r & -> & Hr) _ IH]; simpl; [constructor|].
  by constructor.
Qed.


End ReductionProofs.

(** ** The reductions on concrete inputs *)

Section ReductionExamples.
Import Reduction Examples.

Lemma progresses_const c : 2 ≤ c → progresses (λ _, c).
Proof. intros Hc n Hn. lia. Qed.

Lemma progresses_wholeRow : progresses wholeRow.
Proof. intros n Hn. unfold wholeRow. lia. Qed.

Lemma wellShaped_x27 : wellShaped x27.
Proof. split; [reflexivity|]. repeat constructor. Qed.

Lemma wellShaped_ties : wellShaped ties.
Proof. split; [reflexivity|]. repeat constructor. Qed.

(** The [2, 7] input of the specification under three window choices. *)
Example sum_x27_windows :
  sum window2 7 x27 = Some [28; 22]%Z ∧
  sum window3 7 x27 = Some [28; 22]%Z ∧
  sum wholeRow 7 x27 = Some [28; 22]%Z.
Proof. repeat split. Qed.

(** The row [3, 5, 5, 1] of the specification: index 1 under each window
    choice, in one pass or several. *)
Example argMax_ties :
  argMax window2 4 ties = Some [1] ∧
  argMax window3 4 ties = Some [1] ∧
  argMax wholeRow 4 ties = Some [1].
Proof. repeat split. Qed.



End ReductionExamples.

(** * Further properties of the backend *)

Section BackendMore.
Context `{Collaborators}.

Lemma with_texData_id st : with_texData (texData st) st = st.
Proof. by destruct st. Qed.

(** Registration and disposal of one handle undo each other: a free id
    can be registered, a second registration of it throws and changes
    nothing, disposing it gives back the state before the registration,
    and after that the id can be registered again. *)
Theorem register_dispose_roundtrip st dataId s d :
  texData st !! dataId = None →
  let st1 := (register dataId s d st).2 in
  register dataId s d st = (Ok tt, st1) ∧
  texData st1 !! dataId = Some (mkTextureData s d None None None FLOAT) ∧
  (∀ s' d', register dataId s' d' st1 = (Throw (AlreadyRegistered dataId), st1)) ∧
  disposeData dataId st1 = (Ok tt, st) ∧
  register dataId s d (disposeData dataId st1).2 = (Ok tt, st1).
Proof.
  intros Hd.
  assert (Hreg : register dataId s d st
            = (Ok tt, with_texData
                 (<[dataId := mkTextureData s d None None None FLOAT]> (texData st)) st)).
  { unfold register. by rewrite Hd. }
  cbv zeta. rewrite !Hreg. cbn [snd].
  set (st1 := with_texData _ st).
  assert (Hd1 : texData st1 !! dataId
                = Some (mkTextureData s d None None None FLOAT)).
  { apply lookup_insert_eq. }
  split; [done|]. split; [done|]. split.
  { intros s' d'. unfold register. by rewrite Hd1. }
  assert (Hdis : disposeData dataId st1 = (Ok tt, st)).
  { rewrite (disposeData_registered _ _ _ Hd1). unfold st1. simpl.
    rewrite delete_insert_id by done. by destruct st. }
  split; [exact Hdis|]. by rewrite Hdis.
Qed.

(** *** Operations on one handle leave the other records alone *)

Section Frame.
Variables (dataId other : nat) (r : option TextureData).
Hypothesis Hne : other ≠ dataId.

Local Notation P := (λ st : MathBackendWebGL, texData st !! other = r).

Lemma frame_updateTexData f : preserves P (updateTexData dataId f).
Proof.
  intros st HP. unfold updateTexData.
  destruct (texData st !! dataId) as [d|]; [|done].
  simpl. by rewrite lookup_insert_ne.
Qed.

Lemma frame_acquireTexture s k : preserves P (acquireTexture s k).
Proof.
  intros st HP. unfold acquireTexture, createMatrixTexture.
  destruct (managerDisposed (textureManager st)); [done|].
  by destruct (takeFree _ _) as [[t rest]|].
Qed.

Lemma frame_releaseTexture t s k : preserves P (releaseTexture t s k).
Proof. by intros st HP. Qed.

Lemma frame_upload t rw c data : preserves P (uploadMatrixToTexture t rw c data).
Proof.
  intros st HP. unfold uploadMatrixToTexture.
  by destruct (textures (gpgpu st) !! t).
Qed.

Ltac frame :=
  repeat first
    [ apply preserves_ret | apply preserves_throw | apply preserves_get
    | apply preserves_throwIfNoData | apply preserves_readTexData
    | apply preserves_download
    | apply frame_updateTexData | apply frame_acquireTexture
    | apply frame_releaseTexture | apply frame_upload
    | apply preserves_bind; [|intros ?]
    | progress case_match ].

Lemma frame_uploadToGPU : preserves P (uploadToGPU dataId).
Proof. unfold uploadToGPU. frame. Qed.

Lemma frame_cacheOnCPU v : preserves P (cacheOnCPU dataId v).
Proof. unfold cacheOnCPU. frame. Qed.

Lemma frame_write v : preserves P (write dataId v).
Proof.
  unfold write. destruct v as [v|]; [|frame].
  do 4 (apply preserves_bind; [frame|intros ?]).
  apply preserves_bind; [frame|]. intros st0.
  destruct (delayedStorage st0); [frame|apply frame_uploadToGPU].
Qed.

Lemma frame_readSync : preserves P (readSync dataId).
Proof.
  unfold readSync.
  do 2 (apply preserves_bind; [frame|intros ?]).
  destruct (values _).
  - apply preserves_bind; [apply frame_cacheOnCPU|]. intros ?. frame.
  - destruct (texShape _) as [[? ?]|]; [|frame].
    apply preserves_bind; [frame|]. intros ?.
    apply preserves_bind; [apply frame_cacheOnCPU|]. intros ?. frame.
Qed.

Lemma frame_read : preserves P (read dataId).
Proof.
  unfold read.
  do 2 (apply preserves_bind; [frame|intros ?]).
  destruct (values _).
  - apply preserves_bind; [apply frame_cacheOnCPU|]. intros ?. frame.
  - destruct WEBGL_GET_BUFFER_SUB_DATA_ASYNC_EXTENSION_ENABLED.
    + destruct (texShape _) as [[? ?]|]; [|frame].
      apply preserves_bind; [frame|]. intros ?.
      apply preserves_bind; [apply frame_cacheOnCPU|]. intros ?. frame.
    + destruct (Nat.eqb _ _); apply frame_readSync.
Qed.

Lemma frame_disposeData : preserves P (disposeData dataId).
Proof.
  unfold disposeData. apply preserves_bind; [frame|]. intros st0.
  destruct (texData st0 !! dataId) as [d|]; [|frame].
  apply preserves_bind; [frame|]. intros _.
  intros st HP. simpl. by rewrite lookup_delete_ne.
Qed.

Lemma frame_register s d : preserves P (register dataId s d).
Proof.
  intros st HP. unfold register.
  destruct (texData st !! dataId); [done|].
  simpl. by rewrite lookup_insert_ne.
Qed.

End Frame.

(** [register], [write], [readSync], [read], [getTexture]/[uploadToGPU]
    and [disposeData] on one handle never change the record of another
    handle, whether they return or throw. *)
Theorem other_records_untouched st dataId other :
  other ≠ dataId →
  (∀ s d, texData (register dataId s d st).2 !! other = texData st !! other) ∧
  (∀ v, texData (write dataId v st).2 !! other = texData st !! other) ∧
  texData (readSync dataId st).2 !! other = texData st !! other ∧
  texData (read dataId st).2 !! other = texData st !! other ∧
  texData (uploadToGPU dataId st).2 !! other = texData st !! other ∧
  texData (getTexture dataId st).2 !! other = texData st !! other ∧
  texData (disposeData dataId st).2 !! other = texData st !! other.
Proof.
  intros Hne.
  split; [intros s d; by apply (frame_register dataId other _ Hne)|].
  split; [intros v; by apply (frame_write dataId other _ Hne)|].
  split; [by apply (frame_readSync dataId other _ Hne)|].
  split; [by apply (frame_read dataId other _ Hne)|].
  split; [by apply (frame_uploadToGPU dataId other _ Hne)|].
  split; [|by apply (frame_disposeData dataId other _ Hne)].
  unfold getTexture.
  apply (preserves_bind (λ st', texData st' !! other = texData st !! other));
    [by apply (frame_uploadToGPU dataId other _ Hne)| |done].
  intros _. apply preserves_bind; [apply preserves_readTexData|].
  intros d. apply preserves_ret.
Qed.

(** *** Host reads *)

Lemma cacheOnCPU_idle st dataId d :
  texData st !! dataId = Some d →
  texture d = None ∨ delayedStorage st = false →
  cacheOnCPU dataId None st = (Ok tt, st).
Proof.
  intros Hd Hor. unfold cacheOnCPU. unfold_monad. rewrite Hd. simpl.
  destruct (texture d) as [t|] eqn:Ht; [|done].
  destruct Hor as [Hn|Hdel]; [done|]. by rewrite Hdel.
Qed.

(** A read of cached host values returns them and changes nothing, as
    long as no texture has to be given up (none is attached, or delayed
    storage is off); so under delayed storage what [write] stored is what
    [readSync] and [read] return, and the state stays as [write] left it. *)
Theorem write_read_roundtrip st dataId d v :
  texData st !! dataId = Some d →
  (values d = Some v → texture d = None ∨ delayedStorage st = false →
     readSync dataId st = (Ok (Some v), st) ∧
     read dataId st = (Ok (Some v), st)) ∧
  (delayedStorage st = true →
     let st1 := (write dataId (Some v) st).2 in
     readSync dataId st1 = (Ok (Some v), st1) ∧
     read dataId st1 = (Ok (Some v), st1)).
Proof.
  intros Hd.
  assert (Hhost : ∀ s d0, texData s !! dataId = Some d0 → values d0 = Some v →
            texture d0 = None ∨ delayedStorage s = false →
            readSync dataId s = (Ok (Some v), s) ∧
            read dataId s = (Ok (Some v), s)).
  { intros s d0 Hd0 Hv Hor. unfold readSync, read. unfold_monad.
    rewrite Hd0. simpl. rewrite Hd0. simpl. rewrite Hv.
    by rewrite (cacheOnCPU_idle s dataId d0 Hd0 Hor). }
  split; [by apply Hhost|].
  intros Hdel. rewrite (write_delayed _ _ d) by done. cbn [snd].
  apply (Hhost _ (written d v)); [apply lookup_insert_eq|done|by left].
Qed.

(** Reading a handle that has never held data (registered, nothing
    written, nothing uploaded) throws on the missing device shape and
    leaves the state as it is. *)
Theorem read_unwritten st dataId d :
  texData st !! dataId = Some d → values d = None → texShape d = None →
  readSync dataId st = (Throw TypeError, st) ∧
  read dataId st = (Throw TypeError, st).
Proof.
  intros Hd Hv Hs.
  assert (Hsync : readSync dataId st = (Throw TypeError, st)).
  { unfold readSync. unfold_monad. rewrite Hd. simpl. rewrite Hd. simpl.
    by rewrite Hv, Hs. }
  split; [done|].
  unfold read. unfold_monad. rewrite Hd. simpl. rewrite Hd. simpl. rewrite Hv.
  destruct WEBGL_GET_BUFFER_SUB_DATA_ASYNC_EXTENSION_ENABLED; [by rewrite Hs|].
  by destruct (Nat.eqb _ _).
Qed.

(** Whatever the environment flags, [read] run to completion returns what
    [readSync] returns and leaves the same state. *)
Theorem read_as_readSync st dataId : read dataId st = readSync dataId st.
Proof.
  destruct (texData st !! dataId) as [d|] eqn:Hd.
  2:{ by rewrite read_unregistered, readSync_unregistered. }
  destruct (values d) as [v|] eqn:Hv.
  - unfold read, readSync. unfold_monad. rewrite Hd. simpl. rewrite Hd. simpl.
    by rewrite Hv.
  - unfold read. unfold_monad. rewrite Hd. simpl. rewrite Hd. simpl. rewrite Hv.
    destruct WEBGL_GET_BUFFER_SUB_DATA_ASYNC_EXTENSION_ENABLED.
    + unfold readSync. unfold_monad. rewrite Hd. simpl. rewrite Hd. simpl.
      by rewrite Hv.
    + by destruct (Nat.eqb _ _).
Qed.

Lemma uploadToGPU_Ok_contents st dataId d v st1 :
  texData st !! dataId = Some d → values d = Some v → texture d = None →
  uploadToGPU dataId st = (Ok tt, st1) →
  ∃ d1 t, texData st1 !! dataId = Some d1 ∧ values d1 = None ∧
          texture d1 = Some t ∧
          texShape d1 = Some (getTextureShapeFromLogicalShape (shape d)) ∧
          dtype d1 = dtype d ∧
          textures (gpgpu st1) !! t = Some (typedArrayToFloat32 v (dtype d)).
Proof.
  unfold uploadToGPU. unfold_monad. unfold_device.
  intros Hd Hv Ht Hu. crush; eauto 10.
  - eexists _, _. repeat split; try done. simpl. apply lookup_insert_eq.
  - eexists _, _. repeat split; try done. simpl. apply lookup_insert_eq.
Qed.

(** A host read of a float32 array that lives on the device returns the
    contents of its block.  Under delayed storage the block then goes back
    to the pool and the record keeps only the host copy; with delayed
    storage off the record keeps the texture and the host copy together. *)
Theorem readSync_device st dataId d t sh content :
  texData st !! dataId = Some d → dtype d = float32 →
  values d = None → texture d = Some t → texShape d = Some sh →
  textures (gpgpu st) !! t = Some content →
  let st' := (readSync dataId st).2 in
  (readSync dataId st).1 = Ok (Some content) ∧
  (delayedStorage st = true →
     texData st' !! dataId
       = Some (mkTextureData (shape d) float32 (Some content) None None (texType d)) ∧
     (Some sh, texType d, t) ∈ freeTextures (textureManager st')) ∧
  (delayedStorage st = false →
     texData st' !! dataId
       = Some (mkTextureData (shape d) float32 (Some content) (Some t) (Some sh)
                 (texType d)) ∧
     textureManager st' = textureManager st).
Proof.
  intros Hd Hty Hv Ht Hs Hc. destruct sh as [r c].
  unfold readSync, cacheOnCPU. unfold_monad. unfold_device. unfold_monad.
  destruct (delayedStorage st) eqn:Hdel;
    repeat (first [ rewrite Hd | rewrite lookup_insert_eq | rewrite Hv
                  | rewrite Hs | rewrite Ht | rewrite Hc | rewrite Hty
                  | rewrite Hdel ]; simpl).
  - split; [done|]. split; [|done]. intros _. split; [done|]. set_solver.
  - split; [done|]. split; [done|]. intros _. done.
Qed.

(** Host values of a float32 array that have been uploaded to the device
    are read back unchanged. *)
Theorem upload_read_roundtrip st dataId d v st1 :
  texData st !! dataId = Some d → dtype d = float32 →
  values d = Some v → texture d = None →
  uploadToGPU dataId st = (Ok tt, st1) →
  (readSync dataId st1).1 = Ok (Some v) ∧ (read dataId st1).1 = Ok (Some v).
Proof.
  intros Hd Hty Hv Ht Hu.
  destruct (uploadToGPU_Ok_contents _ _ _ _ _ Hd Hv Ht Hu)
    as (d1 & t & Hd1 & Hv1 & Ht1 & Hs1 & Hty1 & Hc).
  rewrite Hty in *. simpl in Hc.
  rewrite read_as_readSync.
  destruct (readSync_device st1 dataId d1 t _ v Hd1 Hty1 Hv1 Ht1 Hs1 Hc)
    as [Hr _].
  done.
Qed.

(** *** A record with a texture has a device shape *)

Lemma shape_inv_same_texData {A} (m : M A) :
  (∀ st, texData (m st).2 = texData st) → preserves shape_inv m.
Proof. intros Hm st Hst. unfold shape_inv. by rewrite Hm. Qed.

Lemma shape_inv_update st dataId d' :
  shape_inv st → (is_Some (texture d') → is_Some (texShape d')) →
  shape_inv (with_texData (<[dataId := d']> (texData st)) st).
Proof.
  intros Hst Hd' i di. simpl. destruct (decide (dataId = i)) as [->|Hne].
  - rewrite lookup_insert_eq. by intros [= <-].
  - rewrite lookup_insert_ne by done. apply Hst.
Qed.

Lemma shape_inv_uploadToGPU dataId : preserves shape_inv (uploadToGPU dataId).
Proof.
  intros st Hst.
  destruct (texData st !! dataId) as [d|] eqn:Hd.
  2:{ by rewrite uploadToGPU_unregistered. }
  destruct (texture d) as [t|] eqn:Ht.
  { by rewrite (uploadToGPU_resident _ _ d t). }
  rewrite (uploadToGPU_fresh_unfold _ _ d) by done. cbv zeta.
  set (ts := getTextureShapeFromLogicalShape (shape d)).
  set (st0 := with_texData (<[dataId := with_texShape (Some ts) d]> (texData st)) st).
  assert (Hst0 : shape_inv st0) by (apply shape_inv_update; [done|by eexists]).
  destruct (acquireTexture ts (texType d) st0) as [[t|e] st1] eqn:Hacq.
  2:{ apply acquireTexture_Throw in Hacq as ->. done. }
  apply acquireTexture_Ok in Hacq as (Htd & _).
  assert (Hst1 : shape_inv st1) by (unfold shape_inv; by rewrite Htd).
  assert (Hd1 : texData st1 !! dataId = Some (with_texShape (Some ts) d)).
  { rewrite Htd. apply lookup_insert_eq. }
  rewrite Hd1.
  set (st2 := with_texData _ st1).
  assert (Hst2 : shape_inv st2) by (apply shape_inv_update; [done|by eexists]).
  destruct (values d) as [v|]; [|done].
  unfold uploadMatrixToTexture.
  destruct (textures (gpgpu st2) !! t) as [old|]; [|done].
  unfold updateTexData. simpl. rewrite lookup_insert_eq. simpl.
  rewrite insert_insert_eq.
  intros i di. simpl. destruct (decide (dataId = i)) as [->|Hne].
  - rewrite lookup_insert_eq. intros [= <-]. by eexists.
  - rewrite lookup_insert_ne by done. intros Hi.
    apply (Hst1 i di Hi).
Qed.

Lemma shape_inv_cacheOnCPU dataId v : preserves shape_inv (cacheOnCPU dataId v).
Proof.
  intros st Hst.
  unfold cacheOnCPU. unfold_monad. unfold_device. unfold_monad.
  destruct (texData st !! dataId) as [d|] eqn:Hd; simpl; [|done].
  assert (Hd0 : is_Some (texture d) → is_Some (texShape d)) by (by apply (Hst dataId)).
  destruct (texture d) as [t|] eqn:Ht; simpl.
  - destruct (delayedStorage st); simpl.
    + rewrite Hd. simpl. rewrite lookup_insert_eq. simpl.
      destruct v as [a|]; simpl.
      * rewrite lookup_insert_eq. simpl. rewrite !insert_insert_eq.
        intros i di. simpl. destruct (decide (dataId = i)) as [->|Hne].
        -- rewrite lookup_insert_eq. intros [= <-]. simpl. by intros [? ?].
        -- rewrite lookup_insert_ne by done. apply Hst.
      * rewrite !insert_insert_eq.
        intros i di. simpl. destruct (decide (dataId = i)) as [->|Hne].
        -- rewrite lookup_insert_eq. intros [= <-]. simpl. by intros [? ?].
        -- rewrite lookup_insert_ne by done. apply Hst.
    + destruct v as [a|]; simpl; [|done]. rewrite Hd. simpl.
      apply (shape_inv_update st); [done|]. simpl. by rewrite Ht.
  - destruct v as [a|]; simpl; [|done]. rewrite Hd. simpl.
    apply (shape_inv_update st); [done|]. simpl. rewrite Ht. by intros [? ?].
Qed.

Lemma shape_inv_hostWritten st dataId d v :
  shape_inv st → shape_inv (hostWritten dataId d v st).
Proof.
  intros Hst. unfold hostWritten.
  assert (Hw : is_Some (texture (written d v)) → is_Some (texShape (written d v))).
  { simpl. by intros [? ?]. }
  destruct (texture d) as [t|].
  - intros i di. simpl. destruct (decide (dataId = i)) as [->|Hne].
    + rewrite lookup_insert_eq. by intros [= <-].
    + rewrite lookup_insert_ne by done. apply Hst.
  - by apply shape_inv_update.
Qed.

Lemma shape_inv_write dataId v : preserves shape_inv (write dataId v).
Proof.
  intros st Hst. destruct v as [v|]; [|done].
  destruct (texData st !! dataId) as [d|] eqn:Hd.
  2:{ by rewrite write_unregistered. }
  destruct (delayedStorage st) eqn:Hdel.
  - rewrite (write_delayed _ _ d) by done. by apply shape_inv_hostWritten.
  - rewrite (write_eager _ _ d) by done.
    apply shape_inv_uploadToGPU. by apply shape_inv_hostWritten.
Qed.

Lemma shape_inv_disposeData dataId : preserves shape_inv (disposeData dataId).
Proof.
  intros st Hst.
  destruct (texData st !! dataId) as [d|] eqn:Hd.
  2:{ by rewrite disposeData_unregistered. }
  rewrite (disposeData_registered _ _ d) by done. simpl.
  intros i di. simpl. destruct (decide (dataId = i)) as [->|Hne].
  - by rewrite lookup_delete_eq.
  - rewrite lookup_delete_ne by done. destruct (texture d); apply Hst.
Qed.

Lemma shape_inv_closed : Closed shape_inv.
Proof.
  constructor.
  - intros dataId s d st Hst. unfold register.
    destruct (texData st !! dataId); [done|]. simpl.
    apply shape_inv_update; [done|]. simpl. by intros [? ?].
  - intros n. by apply shape_inv_same_texData.
  - intros dataId k st Hst. unfold updateTexData.
    destruct (texData st !! dataId) as [d|] eqn:Hd; [|done]. simpl.
    apply shape_inv_update; [done|]. simpl. by apply (Hst dataId).
  - apply shape_inv_uploadToGPU.
  - apply shape_inv_cacheOnCPU.
  - apply shape_inv_write.
  - apply shape_inv_disposeData.
  - intros t r c data. apply shape_inv_same_texData. intros st.
    unfold uploadMatrixToTexture. by destruct (textures (gpgpu st) !! t).
  - intros prog ins out. apply shape_inv_same_texData. intros st.
    unfold getAndSaveBinary. by destruct (binaryCache st !! _).
  - intros b ins out. apply shape_inv_same_texData. intros st.
    unfold runProgram. by destruct (texture out.2).
Qed.

Lemma dispose_texData st : texData (dispose st) = texData st.
Proof.
  destruct (disposed st) eqn:Hd.
  { unfold dispose. by rewrite Hd. }
  rewrite dispose_unfold by done. unfold textureManager_dispose. simpl.
  by destruct (gpgpuCreatedLocally st).
Qed.

(** In every state reached from a newly constructed backend, in either
    storage mode, a record that holds a device texture also holds the
    shape of that texture: the shape [readSync] and [clone] dereference is
    there whenever the texture is. *)
Theorem texture_has_shape g delayed doc n st ops :
  constructor g delayed doc n = Some st →
  ∀ dataId d, texData (run ops st) !! dataId = Some d →
    is_Some (texture d) → is_Some (texShape d).
Proof.
  intros Hc.
  assert (Hst : shape_inv st).
  { unfold constructor in Hc. destruct (WEBGL_VERSION <? 1); [done|].
    destruct g; simplify_eq; intros i di; simpl; by rewrite lookup_empty. }
  apply (run_preserves shape_inv shape_inv_closed); [|done].
  intros st' Hst' _. unfold shape_inv. by rewrite dispose_texData.
Qed.

(** *** What a dispatch leaves behind *)

Lemma resident_registered st dataId : resident st dataId → is_Some (texData st !! dataId).
Proof. intros (d & t & Hd & _). eauto. Qed.

Lemma uploadToGPU_keeps_resident st dataId i :
  resident st i → resident (uploadToGPU dataId st).2 i.
Proof.
  intros (d & t & Hd & Ht). destruct (decide (i = dataId)) as [->|Hne].
  - rewrite (uploadToGPU_resident _ _ d t) by done. by exists d, t.
  - exists d, t. split; [|done].
    destruct (other_records_untouched st dataId i Hne)
      as (_ & _ & _ & _ & Hu & _).
    by rewrite Hu.
Qed.

Lemma uploadInput_Ok st input a st1 :
  uploadInput input st = (Ok a, st1) →
  resident st1 (NDArray.dataId input) ∧
  (∀ i, resident st i → resident st1 i) ∧
  (∀ i, texData st1 !! i = None → texData st !! i = None).
Proof.
  unfold uploadInput. intros Hu.
  apply bind_Ok_inv in Hu as ([] & st2 & Hup & Hu).
  apply bind_Ok_inv in Hu as (d & st3 & Hrd & Hu).
  unfold readTexData in Hrd. destruct (texData st2 !! _) eqn:Hd; [|done].
  unfold ret in Hu. simplify_eq. split; [|split].
  - by apply uploadToGPU_Ok_attached in Hup.
  - intros i Hi. pose proof (uploadToGPU_keeps_resident st (NDArray.dataId input) i Hi) as Hk.
    by rewrite Hup in Hk.
  - intros i Hi. destruct (decide (i = NDArray.dataId input)) as [->|Hne].
    + congruence.
    + destruct (other_records_untouched st (NDArray.dataId input) i Hne)
        as (_ & _ & _ & _ & Hu & _).
      rewrite Hup in Hu. simpl in Hu. congruence.
Qed.

Lemma mapM_uploadInput_Ok inputs st ds st1 :
  mapM uploadInput inputs st = (Ok ds, st1) →
  (∀ x, x ∈ inputs → resident st1 (NDArray.dataId x)) ∧
  (∀ i, resident st i → resident st1 i) ∧
  (∀ i, texData st1 !! i = None → texData st !! i = None).
Proof.
  revert st ds st1. induction inputs as [|x inputs IH]; intros st ds st1 Hm.
  - simpl in Hm. unfold ret in Hm. simplify_eq.
    split; [|done]. intros x Hx. by apply elem_of_nil in Hx.
  - simpl in Hm.
    apply bind_Ok_inv in Hm as (a & st2 & Hu & Hm).
    apply bind_Ok_inv in Hm as (bs & st3 & Hrest & Hm).
    unfold ret in Hm. simplify_eq.
    apply uploadInput_Ok in Hu as (Hx & Hkeep & Hfresh).
    apply IH in Hrest as (Hall & Hkeep' & Hfresh').
    split; [|split].
    + intros y Hy. apply elem_of_cons in Hy as [->|Hy]; [by apply Hkeep'|by apply Hall].
    + intros i Hi. by apply Hkeep', Hkeep.
    + intros i Hi. by apply Hfresh, Hfresh'.
Qed.

Lemma makeOutputArray_Ok_fresh s d st r st' :
  makeOutputArray s d st = (Ok r, st') →
  texData st !! NDArray.dataId r = None ∧
  NDArray.shape r = s ∧ NDArray.dtype r = d ∧
  (∀ i, resident st i → resident st' i ∧ i ≠ NDArray.dataId r) ∧
  (∀ i, i ≠ NDArray.dataId r → texData st' !! i = texData st !! i).
Proof.
  unfold makeOutputArray, register. unfold_monad. simpl.
  destruct (texData st !! nextDataId st) eqn:Hn; simpl; [done|].
  intros [= <- <-]. simpl. split; [done|]. split; [done|]. split; [done|]. split.
  - intros i (d0 & t & Hd & Ht).
    assert (i ≠ nextDataId st) by congruence. split; [|done].
    exists d0, t. simpl. by rewrite lookup_insert_ne.
  - intros i Hi. by rewrite lookup_insert_ne.
Qed.

Lemma readTexData_state dataId st d st1 :
  readTexData dataId st = (Ok d, st1) → st1 = st.
Proof.
  unfold readTexData. destruct (texData st !! dataId); [|done].
  by intros [= _ <-].
Qed.

Lemma getAndSaveBinary_texData key getBinary st :
  texData (getAndSaveBinary key getBinary st).2 = texData st.
Proof.
  unfold getAndSaveBinary. destruct (binaryCache st !! key); [done|].
  by destruct (getBinary (gpgpu st)).
Qed.

Lemma runProgram_texData b ins out st :
  texData (runProgram b ins out st).2 = texData st.
Proof. unfold runProgram. by destruct (texture out.2). Qed.

(** When a dispatch returns, the array it returns and all its inputs are
    on the device; the returned array is the output that was passed or,
    when none was, a newly made one: its handle had no record before,
    and it has the encoding of the first input and the output shape of
    the program. *)
Theorem compileAndRun_resident prog inputs output st r st' :
  compileAndRun prog inputs output st = (Ok r, st') →
  resident st' (NDArray.dataId r) ∧
  (∀ x, x ∈ inputs → resident st' (NDArray.dataId x)) ∧
  match output with
  | Some o => r = o
  | None =>
      texData st !! NDArray.dataId r = None ∧
      NDArray.shape r = outputShape prog ∧
      ∃ i0 rest, inputs = i0 :: rest ∧ NDArray.dtype r = NDArray.dtype i0
  end.
Proof.
  unfold compileAndRun. intros Hc.
  apply bind_Ok_inv in Hc as (out & st1 & Hout & Hc).
  apply bind_Ok_inv in Hc as (ins & st2 & Hins & Hc).
  apply bind_Ok_inv in Hc as ([] & st3 & Hup & Hc).
  apply bind_Ok_inv in Hc as (od & st4 & Hod & Hc).
  apply bind_Ok_inv in Hc as (b & st5 & Hbin & Hc).
  apply bind_Ok_inv in Hc as ([] & st6 & Hrun & Hc).
  unfold ret in Hc. simplify_eq.
  apply mapM_uploadInput_Ok in Hins as (Hall & _ & _).
  assert (Hres3 : ∀ i, resident st2 i → resident st3 i).
  { intros i Hi. pose proof (uploadToGPU_keeps_resident st2 (NDArray.dataId r) i Hi) as Hk.
    by rewrite Hup in Hk. }
  apply uploadToGPU_Ok_attached in Hup.
  assert (Htd : texData st' = texData st3).
  { pose proof (readTexData_state _ _ _ _ Hod) as ->.
    pose proof (getAndSaveBinary_texData
                  (makeShaderKey prog ins (r, od))
                  (compileProgram prog ins (r, od)) st3) as Hb.
    rewrite Hbin in Hb. simpl in Hb.
    pose proof (runProgram_texData b ins (r, od) st5) as Hr.
    rewrite Hrun in Hr. simpl in Hr. congruence. }
  assert (Hres : ∀ i, resident st3 i → resident st' i).
  { intros i. unfold resident. by rewrite Htd. }
  split; [by apply Hres|]. split; [intros x Hx; by apply Hres, Hres3, Hall|].
  destruct output as [o|].
  - unfold ret in Hout. by simplify_eq.
  - destruct inputs as [|i0 rest]; [done|].
    apply makeOutputArray_Ok_fresh in Hout as (Hfresh & Hs & Hd & _).
    split; [done|]. split; [done|]. by exists i0, rest.
Qed.

(** [clone] returns a new array with the shape and encoding of its
    argument: the handle is different and had no record before, and both
    arrays are on the device afterwards. *)
Theorem clone_fresh x st r st' :
  clone x st = (Ok r, st') →
  NDArray.shape r = NDArray.shape x ∧ NDArray.dtype r = NDArray.dtype x ∧
  NDArray.dataId r ≠ NDArray.dataId x ∧
  texData st !! NDArray.dataId r = None ∧
  resident st' (NDArray.dataId x) ∧ resident st' (NDArray.dataId r).
Proof.
  unfold clone, copy2D. intros Hc.
  apply bind_Ok_inv in Hc as ([] & st1 & Hthrow & Hc).
  apply bind_Ok_inv in Hc as ([] & st2 & Hup & Hc).
  apply bind_Ok_inv in Hc as (d & st3 & Hrd & Hc).
  destruct (texShape d) as [[rw c]|]; [|done].
  apply bind_Ok_inv in Hc as (out & st4 & Hout & Hc).
  apply bind_Ok_inv in Hc as ([] & st5 & Hcopy & Hc).
  apply bind_Ok_inv in Hcopy as (o & st6 & Hrun & Hcopy).
  unfold ret in *. simplify_eq.
  unfold throwIfNoData in Hthrow. destruct (texData st !! _) eqn:Hx; [|done].
  simplify_eq.
  unfold readTexData in Hrd. destruct (texData st2 !! _) eqn:Hx2; [|done].
  simplify_eq.
  pose proof (uploadToGPU_Ok_attached _ _ _ Hup) as Hresx.
  apply makeOutputArray_Ok_fresh in Hout as (Hfresh & Hs & Hd & Hkeep & _).
  destruct (Hkeep _ Hresx) as [_ Hne].
  apply compileAndRun_resident in Hrun as (Hro & Hall & ->).
  simpl. split; [done|]. split; [done|]. split; [done|]. split; [|split].
  - destruct (other_records_untouched st1 (NDArray.dataId x) (NDArray.dataId out))
      as (_ & _ & _ & _ & Hu & _); [done|].
    rewrite Hup in Hu. simpl in Hu. congruence.
  - apply (Hall (as2D x rw c)). by left.
  - done.
Qed.

(** *** Pixel ingestion *)

Lemma getTexture_Ok dataId st t st1 :
  getTexture dataId st = (Ok t, st1) →
  (∃ d t', texData st1 !! dataId = Some d ∧ texture d = Some t' ∧ t = Some t') ∧
  (∀ other, other ≠ dataId → texData st1 !! other = texData st !! other).
Proof.
  unfold getTexture. intros Hg.
  apply bind_Ok_inv in Hg as ([] & st2 & Hup & Hg).
  apply bind_Ok_inv in Hg as (d & st3 & Hrd & Hg).
  pose proof (readTexData_state _ _ _ _ Hrd) as ->.
  unfold ret in Hg. simplify_eq. split.
  - apply uploadToGPU_Ok_attached in Hup as (d' & t' & Hd' & Ht').
    unfold readTexData in Hrd. rewrite Hd' in Hrd. simplify_eq.
    by exists d, t'.
  - intros other Hne.
    destruct (other_records_untouched st dataId other Hne)
      as (_ & _ & _ & _ & Hu & _).
    by rewrite Hup in Hu.
Qed.

Lemma uploadPixelDataToTexture_texData t px st :
  texData (uploadPixelDataToTexture t px st).2 = texData st.
Proof.
  unfold uploadPixelDataToTexture. destruct t as [t|]; [|done].
  unfold uploadMatrixToTexture. by destruct (textures (gpgpu st) !! t).
Qed.

(** [fromPixels] throws on null pixels, and on a video element when there
    is no canvas to draw it on, leaving the state as it is.  When it
    returns, the result is a new int32 array on the device, and the
    temporary array that held the pixels has been disposed. *)
Theorem fromPixels_spec st numChannels :
  fromPixels None numChannels st = (Throw PixelsNull, st) ∧
  (∀ px, isVideo px = true → canvas st = false →
     fromPixels (Some px) numChannels st = (Throw NoCanvas, st)) ∧
  (∀ px res st', fromPixels (Some px) numChannels st = (Ok res, st') →
     NDArray.dtype res = int32 ∧
     texData st !! NDArray.dataId res = None ∧
     resident st' (NDArray.dataId res) ∧
     NDArray.dataId res ≠ nextDataId st ∧
     texData st' !! nextDataId st = None).
Proof.
  split; [done|]. split.
  { intros px Hv Hc. unfold fromPixels. unfold_monad. by rewrite Hv, Hc. }
  intros px res st' Hf. unfold fromPixels, NDArray_dispose in Hf.
  apply bind_Ok_inv in Hf as (st0 & st0' & Hget & Hf).
  unfold get in Hget. simplify_eq.
  apply bind_Ok_inv in Hf as ([] & st1 & Hcanvas & Hf).
  assert (st1 = st0) as ->.
  { destruct (isVideo px); [destruct (canvas st0)|];
      unfold ret, throw in Hcanvas; by simplify_eq. }
  clear Hcanvas.
  apply bind_Ok_inv in Hf as (tmp & st2 & Htmp & Hf).
  apply bind_Ok_inv in Hf as ([] & st3 & Hty & Hf).
  apply bind_Ok_inv in Hf as (t & st4 & Htex & Hf).
  apply bind_Ok_inv in Hf as ([] & st5 & Hpix & Hf).
  apply bind_Ok_inv in Hf as (r & st6 & Hrun & Hf).
  apply bind_Ok_inv in Hf as ([] & st7 & Hdis & Hf).
  unfold ret in Hf. simplify_eq.
  pose proof (makeOutputArray_Ok _ _ _ _ _ Htmp) as Hid.
  apply makeOutputArray_Ok_fresh in Htmp as (Hfresh & _ & Htd & _ & Hsame2).
  assert (Hidt : NDArray.dataId tmp = nextDataId st0) by (by subst tmp).
  assert (Hsame3 : ∀ i, i ≠ NDArray.dataId tmp → texData st3 !! i = texData st2 !! i).
  { intros i Hi. unfold updateTexData in Hty.
    destruct (texData st2 !! NDArray.dataId tmp); [|done]. simplify_eq.
    simpl. by rewrite lookup_insert_ne. }
  apply getTexture_Ok in Htex as ((dt & t' & Hdt & Htt & _) & Hsame4).
  assert (Htd5 : texData st5 = texData st4).
  { pose proof (uploadPixelDataToTexture_texData t px st4) as Hp.
    by rewrite Hpix in Hp. }
  apply compileAndRun_resident in Hrun as (Hres & _ & Hfr & _ & (i0 & rest & [= <- <-] & Hdty)).
  assert (Hne : NDArray.dataId res ≠ NDArray.dataId tmp).
  { intros Heq. rewrite Heq, Htd5, Hdt in Hfr. done. }
  destruct (other_records_untouched st6 (NDArray.dataId tmp) (NDArray.dataId res) Hne)
    as (_ & _ & _ & _ & _ & _ & Hd7).
  rewrite Hdis in Hd7. simpl in Hd7.
  split; [congruence|]. split; [|split; [|split]].
  - rewrite <- Hsame2, <- Hsame3, <- Hsame4 by done. by rewrite <- Htd5.
  - destruct Hres as (d & tr & Hd & Htr). exists d, tr. by rewrite Hd7.
  - congruence.
  - rewrite <- Hidt.
    destruct (texData st6 !! NDArray.dataId tmp) as [d6|] eqn:H6.
    + rewrite (disposeData_registered _ _ d6) in Hdis by done.
      simplify_eq. simpl. apply lookup_delete_eq.
    + rewrite disposeData_unregistered in Hdis by done. by simplify_eq.
Qed.

(** *** What the methods never change *)

Section Config.
Variable R : bool * bool * bool * bool * bool → Prop.
Local Notation P := (λ st : MathBackendWebGL, R (configView st)).

Lemma config_same {A} (m : M A) :
  (∀ st, configView (m st).2 = configView st) → preserves P m.
Proof. intros Hm st HP. by rewrite Hm. Qed.

Lemma config_updateTexData dataId f : preserves P (updateTexData dataId f).
Proof.
  apply config_same. intros st. unfold updateTexData.
  by destruct (texData st !! dataId).
Qed.

Lemma config_acquireTexture s k : preserves P (acquireTexture s k).
Proof.
  apply config_same. intros st. unfold acquireTexture, createMatrixTexture.
  destruct (managerDisposed (textureManager st)); [done|].
  by destruct (takeFree _ _) as [[t rest]|].
Qed.

Lemma config_releaseTexture t s k : preserves P (releaseTexture t s k).
Proof. by apply config_same. Qed.

Lemma config_upload t rw c data : preserves P (uploadMatrixToTexture t rw c data).
Proof.
  apply config_same. intros st. unfold uploadMatrixToTexture.
  by destruct (textures (gpgpu st) !! t).
Qed.

Ltac config :=
  repeat first
    [ apply preserves_ret | apply preserves_throw | apply preserves_get
    | apply preserves_throwIfNoData | apply preserves_readTexData
    | apply preserves_download
    | apply config_updateTexData | apply config_acquireTexture
    | apply config_releaseTexture | apply config_upload
    | apply preserves_bind; [|intros ?]
    | progress case_match ].

Lemma config_uploadToGPU dataId : preserves P (uploadToGPU dataId).
Proof. unfold uploadToGPU. config. Qed.

Lemma config_closed : Closed P.
Proof.
  constructor.
  - intros dataId s d. apply config_same. intros st. unfold register.
    by destruct (texData st !! dataId).
  - intros n. by apply config_same.
  - intros dataId k. apply config_updateTexData.
  - apply config_uploadToGPU.
  - intros dataId v. unfold cacheOnCPU. config.
  - intros dataId v. unfold write. destruct v as [v|]; [|config].
    do 4 (apply preserves_bind; [config|intros ?]).
    apply preserves_bind; [config|]. intros st0.
    destruct (delayedStorage st0); [config|apply config_uploadToGPU].
  - intros dataId. unfold disposeData. apply preserves_bind; [config|].
    intros st0. destruct (texData st0 !! dataId) as [d|]; [|config].
    apply preserves_bind; [config|]. intros _. by apply config_same.
  - apply config_upload.
  - intros prog ins out. apply config_same. intros st.
    unfold getAndSaveBinary, compileProgram.
    by destruct (binaryCache st !! _).
  - intros b ins out. apply config_same. intros st.
    unfold runProgram. by destruct (texture out.2).
Qed.

End Config.

Lemma dispose_config st :
  gpgpuCreatedLocally (dispose st) = gpgpuCreatedLocally st ∧
  delayedStorage (dispose st) = delayedStorage st ∧
  canvas (dispose st) = canvas st ∧
  (gpgpuCreatedLocally st = false →
     gpgpuDisposed (gpgpu (dispose st)) = gpgpuDisposed (gpgpu st)).
Proof.
  destruct (dispose_idempotent st) as (_ & Hflag & Hfirst).
  destruct (disposed st) eqn:Hd.
  { by rewrite Hflag. }
  destruct (Hfirst eq_refl) as (_ & _ & _ & _ & _ & Hsame).
  rewrite dispose_unfold by done. unfold textureManager_dispose. simpl.
  split; [by destruct (gpgpuCreatedLocally st)|].
  split; [by destruct (gpgpuCreatedLocally st)|].
  split; [by destruct (gpgpuCreatedLocally st)|].
  intros Hloc. specialize (Hsame Hloc).
  rewrite dispose_unfold in Hsame by done.
  unfold textureManager_dispose in Hsame. simpl in Hsame. done.
Qed.

(** The storage mode, the canvas and the ownership of the device context
    are fixed at construction: no sequence of calls changes them, so the
    context counts as created locally exactly when none was passed to the
    constructor.  A device context passed to the constructor is never
    disposed by the backend, [dispose] included; and short of [dispose] the
    backend is not marked disposed and a context it created stays alive. *)
Theorem configuration_fixed g delayed doc n st ops :
  constructor g delayed doc n = Some st →
  delayedStorage (run ops st) = delayed ∧
  canvas (run ops st) = doc ∧
  gpgpuCreatedLocally (run ops st) = gpgpuCreatedLocally st ∧
  gpgpuCreatedLocally (run ops st)
    = match g with Some _ => false | None => true end ∧
  (∀ c, g = Some c →
     gpgpuCreatedLocally (run ops st) = false ∧
     gpgpuDisposed (gpgpu (run ops st)) = gpgpuDisposed c) ∧
  (¬ In Dispose ops →
     disposed (run ops st) = false ∧
     (g = None → gpgpuDisposed (gpgpu (run ops st)) = false)).
Proof.
  intros Hc.
  assert (Hview : configView st
            = (match g with Some _ => false | None => true end,
               match g with Some c => gpgpuDisposed c | None => false end,
               delayed, false, doc)).
  { unfold constructor in Hc. destruct (WEBGL_VERSION <? 1); [done|].
    by destruct g; simplify_eq. }
  assert (Hloc : gpgpuCreatedLocally st
            = match g with Some _ => false | None => true end).
  { apply (f_equal (λ v, v.1.1.1.1)) in Hview. exact Hview. }
  pose (R1 := λ v : bool * bool * bool * bool * bool,
                v.1.1.2 = delayed ∧ v.2 = doc ∧
                v.1.1.1.1 = match g with Some _ => false | None => true end ∧
                ∀ c, g = Some c → v.1.1.1.2 = gpgpuDisposed c).
  assert (H1 : R1 (configView (run ops st))).
  { apply (run_preserves (λ st, R1 (configView st)) (config_closed R1)).
    - intros st' (Hd & Hcv & Hl & Hg) _.
      destruct (dispose_config st') as (Hl' & Hd' & Hc' & Hg').
      unfold R1, configView in *. simpl in *.
      split; [congruence|]. split; [congruence|]. split; [congruence|].
      intros c ->. rewrite Hg' by done. by apply Hg.
    - rewrite Hview. unfold R1. simpl. split; [done|]. split; [done|].
      split; [done|]. by intros c ->. }
  destruct H1 as (Hd & Hcv & Hl & Hg). simpl in *.
  split; [done|]. split; [done|].
  split; [by rewrite Hl, Hloc|].
  split; [done|]. split.
  { intros c ->. split; [done|]. by apply Hg. }
  intros Hnd.
  pose (R2 := λ v : bool * bool * bool * bool * bool, v = configView st).
  assert (H2 : R2 (configView (run ops st))).
  { apply (run_preserves (λ st, R2 (configView st)) (config_closed R2)).
    - intros st' _ Hin. done.
    - done. }
  unfold R2 in H2. rewrite Hview in H2. unfold configView in H2.
  simplify_eq. split; [done|]. by intros ->.
Qed.

(** *** Writes and the texture pool *)

(** Under delayed storage the last of two writes wins: the state after
    writing [v1] and then [v2] is the state after writing [v2] alone. *)
Theorem last_write_wins st dataId d v1 v2 :
  texData st !! dataId = Some d → delayedStorage st = true →
  write dataId (Some v2) (write dataId (Some v1) st).2
    = write dataId (Some v2) st.
Proof.
  intros Hd Hdel.
  rewrite (write_delayed st dataId d v1) by done.
  rewrite (write_delayed st dataId d v2) by done. cbn [snd].
  assert (Hd1 : texData (hostWritten dataId d v1 st) !! dataId
                = Some (written d v1)) by apply lookup_insert_eq.
  assert (Hdel1 : delayedStorage (hostWritten dataId d v1 st) = true).
  { unfold hostWritten. by destruct (texture d). }
  rewrite (write_delayed _ dataId (written d v1) v2 Hd1 Hdel1). f_equal.
  unfold hostWritten, written. simpl.
  rewrite insert_insert_eq. by destruct (texture d).
Qed.

Lemma takeFree_elem k t l :
  (k, t) ∈ l → is_Some (takeFree k l).
Proof.
  induction l as [|[k' t'] l IH]; intros Hin; [by apply elem_of_nil in Hin|].
  simpl. case_decide as Hk; [eauto|].
  apply elem_of_cons in Hin as [[= <- <-]|Hin]; [done|].
  destruct (IH Hin) as [[t0 rest] ->]. eauto.
Qed.

(** The block of a disposed array is reused: after [disposeData] on an
    array with a texture, making resident a host-only array whose texture
    shape and kind are the same allocates no new device block. *)
Theorem disposed_block_reused st a b da db t :
  a ≠ b →
  texData st !! a = Some da → texture da = Some t →
  texShape da = Some (getTextureShapeFromLogicalShape (shape db)) →
  texType da = texType db →
  texData st !! b = Some db → texture db = None →
  managerDisposed (textureManager st) = false →
  let st1 := (disposeData a st).2 in
  let st2 := (uploadToGPU b st1).2 in
  nextTexture (gpgpu st2) = nextTexture (gpgpu st) ∧
  numAcquired (textureManager st2) = S (numAcquired (textureManager st)).
Proof.
  intros Hne Ha Hta Hsa Hka Hb Htb Hdis st1 st2. subst st2 st1.
  rewrite (disposeData_registered _ _ da) by done. rewrite Hta. cbn [snd].
  set (st1 := with_texData _ _).
  assert (Hb1 : texData st1 !! b = Some db).
  { unfold st1. simpl. by rewrite lookup_delete_ne. }
  rewrite (uploadToGPU_fresh_unfold st1 b db Hb1 Htb). cbv zeta.
  set (ts := getTextureShapeFromLogicalShape (shape db)) in *.
  unfold acquireTexture. simpl. rewrite Hdis.
  assert (Hfree : is_Some (takeFree (Some ts, texType db)
                    (freeTextures (textureManager st) ++ [(texShape da, texType da, t)]))).
  { apply (takeFree_elem _ t). rewrite Hsa, Hka. set_solver. }
  destruct Hfree as [[t0 rest] Htf]. unfold st1. simpl. rewrite Htf. simpl.
  rewrite lookup_insert_eq. simpl.
  destruct (values db) as [v|]; [|done].
  unfold uploadMatrixToTexture. simpl.
  destruct (textures (gpgpu st) !! t0); simpl; [|done].
  unfold updateTexData. simpl. rewrite lookup_insert_eq. done.
Qed.

End BackendMore.

(** * Further properties of the reductions *)

Section ReductionMore.
Import Reduction.

Lemma noBetter_refl rt v : noBetter rt v v.
Proof. destruct rt; simpl; lia. Qed.

Lemma noBetter_trans rt a b c : noBetter rt a b → noBetter rt b c → noBetter rt a c.
Proof. destruct rt; simpl; lia. Qed.

Lemma fold_max l : ∀ a,
  let m := fold_left Z.max l a in
  m ∈ a :: l ∧ ∀ v, v ∈ a :: l → (v ≤ m)%Z.
Proof.
  induction l as [|b l IH]; intros a; simpl.
  - split; [left|]. intros v Hv. apply list_elem_of_singleton in Hv. lia.
  - destruct (IH (Z.max a b)) as [Hin Hall]. split.
    + apply elem_of_cons in Hin as [Hm|Hin]; [|right; by right].
      rewrite Hm. destruct (Z.max_spec a b) as [[_ ->]|[_ ->]];
        [right; left | left].
    + intros v Hv. apply elem_of_cons in Hv as [->|Hv].
      * pose proof (Hall (Z.max a b)). assert (Z.max a b ∈ Z.max a b :: l) by left.
        specialize (H H0). lia.
      * apply elem_of_cons in Hv as [->|Hv].
        -- pose proof (Hall (Z.max a b)). assert (Z.max a b ∈ Z.max a b :: l) by left.
           specialize (H H0). lia.
        -- apply Hall. by right.
Qed.

Lemma fold_min l : ∀ a,
  let m := fold_left Z.min l a in
  m ∈ a :: l ∧ ∀ v, v ∈ a :: l → (m ≤ v)%Z.
Proof.
  induction l as [|b l IH]; intros a; simpl.
  - split; [left|]. intros v Hv. apply list_elem_of_singleton in Hv. lia.
  - destruct (IH (Z.min a b)) as [Hin Hall]. split.
    + apply elem_of_cons in Hin as [Hm|Hin]; [|right; by right].
      rewrite Hm. destruct (Z.min_spec a b) as [[_ ->]|[_ ->]];
        [left | right; left].
    + intros v Hv. apply elem_of_cons in Hv as [->|Hv].
      * pose proof (Hall (Z.min a b)). assert (Z.min a b ∈ Z.min a b :: l) by left.
        specialize (H H0). lia.
      * apply elem_of_cons in Hv as [->|Hv].
        -- pose proof (Hall (Z.min a b)). assert (Z.min a b ∈ Z.min a b :: l) by left.
           specialize (H H0). lia.
        -- apply Hall. by right.
Qed.

Lemma reduceWindow_extremum rt l :
  rt ≠ rsum → l ≠ [] → rowExtremum rt l (reduceWindow rt l).
Proof.
  intros Hrt Hl. destruct l as [|a l]; [done|].
  destruct rt; [| |done]; simpl.
  - apply fold_max.
  - apply fold_min.
Qed.

Lemma windowOf_lookup {A} info (row : list A) k i c :
  length row = inSize info →
  windowOf info row k !! i = Some c ↔
  i < windowSize info ∧ row !! (k * windowSize info + i) = Some c.
Proof.
  intros Hlen. unfold windowOf. rewrite (take_ge row) by lia. split.
  - intros Hl. destruct (decide (i < windowSize info)) as [Hi|Hi].
    + rewrite lookup_take_lt in Hl by done. by rewrite lookup_drop in Hl.
    + by rewrite lookup_take_ge in Hl by lia.
  - intros [Hi Hl]. rewrite lookup_take_lt by done. by rewrite lookup_drop.
Qed.

(** One pass on one row keeps the cover of the original row. *)
Lemma reduceRow_Cover rt info row0 (row : list Z) :
  rt ≠ rsum → 1 ≤ windowSize info → length row = inSize info →
  Cover rt row0 row →
  Cover rt row0
    (map (λ outIdx, reduceWindow rt (windowOf info row outIdx))
       (seq 0 (ceilDiv (inSize info) (windowSize info)))).
Proof.
  intros Hrt Hw Hlen (Hne & Hsub & Hcov).
  set (w := windowSize info) in *. set (n := inSize info) in *.
  assert (Hn : 1 ≤ n) by (rewrite <- Hlen; destruct row; [done|simpl; lia]).
  assert (Hwin : ∀ k, k < ceilDiv n w →
            rowExtremum rt (windowOf info row k)
              (reduceWindow rt (windowOf info row k))).
  { intros k Hk. apply reduceWindow_extremum; [done|].
    assert (Hkw : k * w < length row).
    { rewrite Hlen. unfold ceilDiv in Hk.
      pose proof (Nat.div_mod_eq (n + w - 1) w).
      pose proof (Nat.mod_upper_bound (n + w - 1) w). nia. }
    destruct (lookup_lt_is_Some_2 row (k * w) Hkw) as [c Hc].
    intros Hnil.
    assert (Hl : windowOf info row k !! 0 = Some c).
    { apply windowOf_lookup; [done|]. split; [done|].
      by rewrite Nat.add_0_r. }
    by rewrite Hnil in Hl. }
  assert (Hsubw : ∀ k u, u ∈ windowOf info row k → u ∈ row).
  { intros k u Hu. apply list_elem_of_lookup in Hu as [i Hi].
    apply windowOf_lookup in Hi as [_ Hi]; [|done].
    apply list_elem_of_lookup. eauto. }
  split; [|split].
  - intros Hnil. apply (f_equal length) in Hnil.
    rewrite length_map, length_seq in Hnil. simpl in Hnil.
    pose proof (ceilDiv_pos n w Hn Hw). lia.
  - intros u Hu. apply list_elem_of_lookup in Hu as [k Hk].
    rewrite lookup_map in Hk.
    destruct (seq 0 _ !! k) as [k'|] eqn:Hs; [|done].
    apply lookup_seq in Hs as [-> Hs]. simpl in Hk. simplify_eq.
    destruct (Hwin k Hs) as [Hin _]. eapply Hsub, Hsubw, Hin.
  - intros v Hv. destruct (Hcov v Hv) as (u & Hu & Hvu).
    apply list_elem_of_lookup in Hu as [p Hp].
    assert (Hpn : p < n) by (rewrite <- Hlen; by apply lookup_lt_Some in Hp).
    pose proof (ceilDiv_covers n w Hw) as Hcv.
    assert (Hk : p / w < ceilDiv n w).
    { apply Nat.Div0.div_lt_upper_bound. lia. }
    destruct (Hwin (p / w) Hk) as [_ Hall].
    exists (reduceWindow rt (windowOf info row (p / w))). split.
    + apply list_elem_of_lookup. exists (p / w). rewrite lookup_map.
      by rewrite lookup_seq_lt.
    + apply (noBetter_trans _ _ u); [done|]. apply Hall.
      apply list_elem_of_lookup. exists (p mod w).
      apply windowOf_lookup; [done|].
      split; [apply Nat.mod_upper_bound; lia|].
      fold w. rewrite (Nat.mul_comm (p / w) w), <- Nat.div_mod_eq. done.
Qed.

Lemma runReduceProgram_Cover rt w xs0 (x : Array2D Z) :
  rt ≠ rsum → 1 ≤ w → wellShaped x →
  Forall2 (Cover rt) xs0 (data x) →
  let out := runReduceProgram (mkReduceInfo w (cols x) (rows x)) rt x in
  wellShaped out ∧ rows out = rows x ∧ cols out = ceilDiv (cols x) w ∧
  Forall2 (Cover rt) xs0 (data out).
Proof.
  intros Hrt Hw [Hrows Hcols] Hall. unfold runReduceProgram. simpl.
  split; [split|split; [done|split; [done|]]].
  - simpl. by rewrite length_map.
  - simpl. apply Forall_map, Forall_forall. intros row _. simpl.
    by rewrite length_map, length_seq.
  - revert Hcols. clear Hrows. induction Hall as [|row0 row xs rs Hc _ IH];
      intros Hcols; simpl; [constructor|].
    apply Forall_cons in Hcols as [Hlen Hcols]. constructor; [|by apply IH].
    by apply (reduceRow_Cover rt (mkReduceInfo w (cols x) (rows x))).
Qed.

Lemma reduce_extremum_terminates w rt xs0 :
  progresses w → rt ≠ rsum →
  ∀ fuel (x : Array2D Z),
    wellShaped x → 1 ≤ cols x → cols x ≤ fuel →
    Forall2 (Cover rt) xs0 (data x) →
    ∃ out, reduce w fuel x rt = Some out ∧ wellShaped out ∧ cols out = 1 ∧
           Forall2 (Cover rt) xs0 (data out).
Proof.
  intros Hw Hrt. induction fuel as [|fuel IH]; intros x Hx Hc Hf Hall; [lia|].
  destruct (Hw (cols x) Hc) as [Hw1 Hw2].
  pose proof (runReduceProgram_Cover rt (w (cols x)) xs0 x Hrt Hw1 Hx Hall) as Hpass.
  cbv zeta in Hpass.
  set (output := runReduceProgram
                   (mkReduceInfo (w (cols x)) (cols x) (rows x)) rt x) in *.
  change (reduce w (S fuel) x rt)
    with (if Nat.eqb (cols output) 1 then Some output
          else reduce w fuel output rt).
  destruct Hpass as (Hwo & Hro & Hco & Hso).
  destruct (Nat.eqb_spec (cols output) 1) as [Heq|Hne].
  - exists output. done.
  - assert (H2 : 2 ≤ cols x).
    { destruct (decide (cols x = 1)) as [H1|H1]; [|lia].
      exfalso. apply Hne. rewrite Hco. apply ceilDiv_one in Hw1.
      by rewrite H1 in *. }
    pose proof (ceilDiv_shrinks (cols x) (w (cols x)) H2 (Hw2 H2)).
    pose proof (ceilDiv_pos (cols x) (w (cols x)) Hc Hw1).
    apply (IH output); [done|lia|lia|done].
Qed.

Lemma Cover_refl rt (row : list Z) : row ≠ [] → Cover rt row row.
Proof.
  intros Hne. split; [done|]. split; [done|].
  intros v Hv. exists v. split; [done|apply noBetter_refl].
Qed.

Lemma Cover_single_concat rt (xs0 rs : list (list Z)) :
  Forall2 (Cover rt) xs0 rs → Forall (λ row, length row = 1) rs →
  Forall2 (rowExtremum rt) xs0 (concat rs).
Proof.
  induction 1 as [|row0 r xs rs (Hne & Hsub & Hcov) _ IH]; intros Hlen; simpl;
    [constructor|].
  apply Forall_cons in Hlen as [Hl Hlen].
  destruct r as [|m [|? ?]]; try done. simpl. constructor; [|by apply IH].
  split; [apply Hsub; by left|].
  intros v Hv. destruct (Hcov v Hv) as (u & Hu & Hvu).
  apply list_elem_of_singleton in Hu. by subst.
Qed.

Lemma extremum_correct w rt (x : Array2D Z) fuel :
  progresses w → rt ≠ rsum → wellShaped x → 1 ≤ cols x → cols x ≤ fuel →
  ∃ out, reduce w fuel x rt = Some out ∧
         Forall2 (rowExtremum rt) (data x) (concat (data out)).
Proof.
  intros Hw Hrt Hx Hc Hf.
  assert (Hinit : Forall2 (Cover rt) (data x) (data x)).
  { destruct Hx as [_ Hcols]. apply Forall2_same_length_lookup_2; [done|].
    intros i r1 r2 H1 H2. simplify_eq. apply Cover_refl.
    rewrite Forall_forall in Hcols.
    assert (length r1 = cols x) by (apply Hcols, list_elem_of_lookup; eauto).
    destruct r1; [simpl in *; lia|done]. }
  destruct (reduce_extremum_terminates w rt (data x) Hw Hrt fuel x Hx Hc Hf Hinit)
    as (out & Hr & [_ Hwf] & Hcs & Hall).
  exists out. split; [done|]. apply Cover_single_concat; [done|].
  by rewrite Hcs in Hwf.
Qed.



End ReductionMore.

(** ** The further properties on concrete inputs *)

Section MoreExamples.
Import Reduction Examples.

Lemma register_dispose_roundtrip_witness :
  texData fresh !! 0 = None ∧
  disposeData 0 (register 0 [3] float32 fresh).2 = (Ok tt, fresh).
Proof.
  assert (Hd : texData fresh !! 0 = None) by reflexivity.
  split; [exact Hd|].
  exact (proj1 (proj2 (proj2 (proj2
           (register_dispose_roundtrip fresh 0 [3] float32 Hd))))).
Defined.

Lemma other_records_untouched_witness :
  1 ≠ 0 ∧ texData (disposeData 0 mixed).2 !! 1 = texData mixed !! 1.
Proof.
  assert (Hne : 1 ≠ 0) by lia.
  split; [exact Hne|].
  exact (proj2 (proj2 (proj2 (proj2 (proj2 (proj2
           (other_records_untouched mixed 0 1 Hne))))))).
Defined.

Lemma write_read_roundtrip_witness :
  texData (run [Register 0 [3] float32] fresh) !! 0 = Some empty0 ∧
  delayedStorage (run [Register 0 [3] float32] fresh) = true ∧
  readSync 0 (write 0 (Some [1; 2; 3]%Z) (run [Register 0 [3] float32] fresh)).2
    = (Ok (Some [1; 2; 3]%Z),
       (write 0 (Some [1; 2; 3]%Z) (run [Register 0 [3] float32] fresh)).2).
Proof.
  assert (Hd : texData (run [Register 0 [3] float32] fresh) !! 0 = Some empty0)
    by reflexivity.
  assert (Hdel : delayedStorage (run [Register 0 [3] float32] fresh) = true)
    by reflexivity.
  split; [exact Hd|]. split; [exact Hdel|].
  destruct (write_read_roundtrip _ 0 empty0 [1; 2; 3]%Z Hd) as [_ Hw].
  exact (proj1 (Hw Hdel)).
Defined.

Lemma read_unwritten_witness :
  texData (run [Register 0 [3] float32] fresh) !! 0 = Some empty0 ∧
  readSync 0 (run [Register 0 [3] float32] fresh)
    = (Throw TypeError, run [Register 0 [3] float32] fresh).
Proof.
  assert (Hd : texData (run [Register 0 [3] float32] fresh) !! 0 = Some empty0)
    by reflexivity.
  split; [exact Hd|].
  exact (proj1 (read_unwritten _ 0 empty0 Hd eq_refl eq_refl)).
Defined.

Lemma readSync_device_witness :
  texData uploaded !! 0 = Some record0dev ∧
  textures (gpgpu uploaded) !! 0 = Some [1; 2; 3]%Z ∧
  (readSync 0 uploaded).1 = Ok (Some [1; 2; 3]%Z).
Proof.
  assert (Hd : texData uploaded !! 0 = Some record0dev) by reflexivity.
  assert (Hc : textures (gpgpu uploaded) !! 0 = Some [1; 2; 3]%Z) by reflexivity.
  split; [exact Hd|]. split; [exact Hc|].
  exact (proj1 (readSync_device uploaded 0 record0dev 0 (1, 3) [1; 2; 3]%Z
                  Hd eq_refl eq_refl eq_refl eq_refl Hc)).
Defined.

Lemma upload_read_roundtrip_witness :
  texData hosted !! 0 = Some record0 ∧
  uploadToGPU 0 hosted = (Ok tt, uploaded) ∧
  (readSync 0 uploaded).1 = Ok (Some [1; 2; 3]%Z).
Proof.
  assert (Hd : texData hosted !! 0 = Some record0) by reflexivity.
  assert (Hu : uploadToGPU 0 hosted = (Ok tt, uploaded))
    by (vm_compute; reflexivity).
  split; [exact Hd|]. split; [exact Hu|].
  exact (proj1 (upload_read_roundtrip hosted 0 record0 [1; 2; 3]%Z uploaded
                  Hd eq_refl eq_refl eq_refl Hu)).
Defined.

Lemma texture_has_shape_witness :
  constructor None true true 100 = Some fresh ∧
  texData (run [Register 0 [3] float32; Write 0 (Some [1; 2; 3]%Z); GetTexture 0]
             fresh) !! 0 = Some record0dev ∧
  is_Some (texShape record0dev).
Proof.
  assert (Hc : constructor None true true 100 = Some fresh) by reflexivity.
  assert (Hd : texData (run [Register 0 [3] float32; Write 0 (Some [1; 2; 3]%Z);
                             GetTexture 0] fresh) !! 0 = Some record0dev)
    by reflexivity.
  split; [exact Hc|]. split; [exact Hd|].
  exact (texture_has_shape None true true 100 fresh _ Hc 0 record0dev Hd
           (ex_intro _ 0 eq_refl)).
Defined.

Lemma compileAndRun_resident_witness :
  compileAndRun copyProgram [a0] None hosted
    = (Ok sum100, (compileAndRun copyProgram [a0] None hosted).2) ∧
  resident (compileAndRun copyProgram [a0] None hosted).2 100 ∧
  resident (compileAndRun copyProgram [a0] None hosted).2 0.
Proof.
  assert (Hc : compileAndRun copyProgram [a0] None hosted
               = (Ok sum100, (compileAndRun copyProgram [a0] None hosted).2))
    by (vm_compute; reflexivity).
  destruct (compileAndRun_resident copyProgram [a0] None hosted sum100 _ Hc)
    as (Hr & Hall & _).
  split; [exact Hc|]. split; [exact Hr|].
  apply (Hall a0). left.
Defined.

Lemma clone_fresh_witness :
  clone a0 hosted = (Ok sum100, (clone a0 hosted).2) ∧
  NDArray.dataId sum100 ≠ NDArray.dataId a0 ∧
  resident (clone a0 hosted).2 100.
Proof.
  assert (Hc : clone a0 hosted = (Ok sum100, (clone a0 hosted).2))
    by (vm_compute; reflexivity).
  destruct (clone_fresh a0 hosted sum100 _ Hc) as (_ & _ & Hne & _ & _ & Hr).
  split; [exact Hc|]. split; [exact Hne|exact Hr].
Defined.

Lemma fromPixels_spec_witness :
  fromPixels (Some px22) 3 fresh
    = (Ok pixels101, (fromPixels (Some px22) 3 fresh).2) ∧
  texData (fromPixels (Some px22) 3 fresh).2 !! 100 = None ∧
  resident (fromPixels (Some px22) 3 fresh).2 101.
Proof.
  assert (Hf : fromPixels (Some px22) 3 fresh
               = (Ok pixels101, (fromPixels (Some px22) 3 fresh).2))
    by (vm_compute; reflexivity).
  destruct (proj2 (proj2 (fromPixels_spec fresh 3)) px22 pixels101 _ Hf)
    as (_ & _ & Hr & _ & Htmp).
  split; [exact Hf|]. split; [exact Htmp|exact Hr].
Defined.

Lemma configuration_fixed_witness :
  constructor (Some newGPGPUContext) false true 0 = Some freshUser ∧
  delayedStorage (run [Register 0 [3] float32; Write 0 (Some [1; 2; 3]%Z); Dispose]
                    freshUser) = false ∧
  gpgpuDisposed (gpgpu (run [Register 0 [3] float32; Write 0 (Some [1; 2; 3]%Z);
                             Dispose] freshUser)) = false.
Proof.
  assert (Hc : constructor (Some newGPGPUContext) false true 0 = Some freshUser)
    by reflexivity.
  destruct (configuration_fixed (Some newGPGPUContext) false true 0 freshUser
              [Register 0 [3] float32; Write 0 (Some [1; 2; 3]%Z); Dispose] Hc)
    as (Hd & _ & _ & _ & Hg & _).
  split; [exact Hc|]. split; [exact Hd|].
  exact (proj2 (Hg newGPGPUContext eq_refl)).
Defined.

Lemma last_write_wins_witness :
  texData hosted !! 0 = Some record0 ∧ delayedStorage hosted = true ∧
  write 0 (Some [7; 8]%Z) (write 0 (Some [9]%Z) hosted).2
    = write 0 (Some [7; 8]%Z) hosted.
Proof.
  assert (Hd : texData hosted !! 0 = Some record0) by reflexivity.
  assert (Hdel : delayedStorage hosted = true) by reflexivity.
  split; [exact Hd|]. split; [exact Hdel|].
  exact (last_write_wins hosted 0 record0 [9]%Z [7; 8]%Z Hd Hdel).
Defined.

Lemma disposed_block_reused_witness :
  texData twoArrays !! 0 = Some record0dev ∧
  texData twoArrays !! 1 = Some record1 ∧
  nextTexture (gpgpu (uploadToGPU 1 (disposeData 0 twoArrays).2).2)
    = nextTexture (gpgpu twoArrays).
Proof.
  assert (Ha : texData twoArrays !! 0 = Some record0dev) by reflexivity.
  assert (Hb : texData twoArrays !! 1 = Some record1) by reflexivity.
  assert (Hne : 0 ≠ 1) by lia.
  split; [exact Ha|]. split; [exact Hb|].
  exact (proj1 (disposed_block_reused twoArrays 0 1 record0dev record1 0
                  Hne Ha eq_refl eq_refl eq_refl Hb eq_refl eq_refl)).
Defined.


(** The maxima and minima of the [2, 7] input under three window choices. *)
Example max_min_x27_windows :
  max window2 7 x27 = Some [7; 9]%Z ∧ max window3 7 x27 = Some [7; 9]%Z ∧
  max wholeRow 7 x27 = Some [7; 9]%Z ∧
  min window2 7 x27 = Some [1; -1]%Z ∧ min window3 7 x27 = Some [1; -1]%Z.
Proof. repeat split. Qed.


End MoreExamples.
